(** * hw-command: the post extractor and the section sorter of [main.ts]

    A shallow embedding of the algorithmic core of the plugin:
    - [TimestampParser.parseTimestamp] and [sortTimestampedEntries],
    - [SortTimestampedListCommand.sortTimestampsInSection],
      [getHeadingLevel] and the heading discovery of [loadSectionsForFile],
    - [RedditPostParserCommand.extractRedditPosts],
    - [execute] of both commands and the promise of the selection modals
      ([selectNote], [selectSection]), as sequences of effects.

    JavaScript strings are sequences of UTF-16 code units, the regular
    expressions of the source are terms of a small backtracking matcher,
    [Date] follows the abstract operations of ECMA-262 (Day, DayFromYear,
    YearFromTime, MakeDay, MakeDate, LocalTime, UTC), and the host's time
    zone is an explicit argument. *)

From Stdlib Require Import Ascii String DecimalString.
From Stdlib Require Import ZArith NArith List Bool Lia Permutation Sorted.
Import ListNotations.

(* ================================================================= *)
(** ** Strings *)

Module JS.

(** A code unit of a JavaScript string. *)
Abbreviation char := N (only parsing).
Abbreviation jsstring := (list N) (only parsing).

(** A literal of the source, written as a Rocq string (ASCII only). *)
Definition lit (s : string) : jsstring :=
  List.map N_of_ascii (list_ascii_of_string s).

Definition char_eqb (a b : char) : bool := N.eqb a b.
Arguments char_eqb : simpl never.

Fixpoint str_eqb (a b : jsstring) : bool :=
  match a, b with
  | [], [] => true
  | x :: a', y :: b' => char_eqb x y && str_eqb a' b'
  | _, _ => false
  end.

Lemma str_eqb_eq a b : str_eqb a b = true <-> a = b.
Proof.
  revert b; induction a as [|x a IH]; intros [|y b]; simpl; try (split; congruence).
  rewrite andb_true_iff, IH. unfold char_eqb. rewrite N.eqb_eq.
  split; [intros [-> ->]; reflexivity | intros H; inversion H; auto].
Qed.

(** [\d] *)
Definition isDigit (c : char) : bool := (48 <=? c)%N && (c <=? 57)%N.

(** LineTerminator: LF, CR, LS, PS. *)
Definition isLineTerminator (c : char) : bool :=
  (c =? 10)%N || (c =? 13)%N || (c =? 8232)%N || (c =? 8233)%N.

(** [\s], which is also what [String.prototype.trim] strips: WhiteSpace
    (TAB, VT, FF, SP, NBSP, ZWNBSP and the space separators) and
    LineTerminator. *)
Definition isSpace (c : char) : bool :=
  (c =? 9)%N || (c =? 11)%N || (c =? 12)%N || (c =? 32)%N || (c =? 160)%N
  || (c =? 5760)%N || ((8192 <=? c)%N && (c <=? 8202)%N)
  || (c =? 8239)%N || (c =? 8287)%N || (c =? 12288)%N || (c =? 65279)%N
  || isLineTerminator c.

(** [.] without the [s] flag. *)
Definition isDot (c : char) : bool := negb (isLineTerminator c).

Definition isHash (c : char) : bool := (c =? 35)%N.
Definition notSlash (c : char) : bool := negb (c =? 47)%N.

Fixpoint dropWhile (p : char -> bool) (s : jsstring) : jsstring :=
  match s with
  | c :: s' => if p c then dropWhile p s' else s
  | [] => []
  end.

(** [String.prototype.trim] *)
Definition trim (s : jsstring) : jsstring :=
  rev (dropWhile isSpace (rev (dropWhile isSpace s))).

(** [s.substring(a, b)] for [0 <= a <= b]. *)
Definition substring (a b : nat) (s : jsstring) : jsstring :=
  firstn (b - a) (skipn a s).

(** [s.split('\n')] *)
Fixpoint split_lines (s : jsstring) : list jsstring :=
  match s with
  | [] => [[]]
  | c :: s' =>
      if (c =? 10)%N then [] :: split_lines s'
      else match split_lines s' with
           | l :: ls => (c :: l) :: ls
           | [] => [[c]]
           end
  end.

(** [a.join('\n')] *)
Fixpoint join_lines (ls : list jsstring) : jsstring :=
  match ls with
  | [] => []
  | [l] => l
  | l :: ls' => l ++ 10%N :: join_lines ls'
  end.

(** [parseInt] on a string of decimal digits, the only strings it is given
    in this program (slices of a [\d{8}] or [\d{12}] capture). *)
Definition parseInt (s : jsstring) : Z :=
  fold_left (fun acc c => 10 * acc + (Z.of_N c - 48))%Z s 0%Z.

(** [Number.prototype.toString] on an integer. *)
Definition Number_toString (n : Z) : jsstring :=
  lit (NilZero.string_of_int (Z.to_int n)).

(** [s.padStart(2, '0')] *)
Definition padStart2 (s : jsstring) : jsstring :=
  match s with
  | [] => [48; 48]%N
  | [c] => [48%N; c]
  | _ => s
  end.

End JS.
Import JS.

(* ================================================================= *)
(** ** Regular expressions *)

Module Regex.

(** The fragment of the regular expressions that the source uses: literal
    characters, greedy quantified character classes, sequence,
    alternation, capture groups (none nested) and the end anchor. *)
Inductive regex : Type :=
| RChar (c : char)
| RRep (p : char -> bool) (lo : nat) (hi : option nat)
| RSeq (r1 r2 : regex)
| RAlt (r1 r2 : regex)
| RGroup (r : regex)
| REnd.

(** What is left of the input, and the captures so far. *)
Definition mres : Type := jsstring * list jsstring.

Definition more (hi : option nat) : bool :=
  match hi with Some O => false | _ => true end.

(** Greedy repetition of a class with backtracking: take one more
    character while allowed, and fall back to stopping here when the
    rest of the pattern fails. *)
Fixpoint rep (p : char -> bool) (lo : nat) (hi : option nat)
    (s : jsstring) (k : jsstring -> option mres) {struct s} : option mres :=
  match s with
  | [] => match lo with O => k [] | S _ => None end
  | c :: s' =>
      if p c && more hi then
        match rep p (pred lo) (option_map pred hi) s' k with
        | Some r => Some r
        | None => match lo with O => k s | S _ => None end
        end
      else match lo with O => k s | S _ => None end
  end.

Fixpoint rmatch (r : regex) (s : jsstring) (caps : list jsstring)
    (k : jsstring -> list jsstring -> option mres) : option mres :=
  match r with
  | RChar c =>
      match s with
      | c' :: s' => if char_eqb c c' then k s' caps else None
      | [] => None
      end
  | RRep p lo hi => rep p lo hi s (fun s' => k s' caps)
  | RSeq r1 r2 => rmatch r1 s caps (fun s1 caps1 => rmatch r2 s1 caps1 k)
  | RAlt r1 r2 =>
      match rmatch r1 s caps k with
      | Some x => Some x
      | None => rmatch r2 s caps k
      end
  | RGroup r1 =>
      rmatch r1 s caps
        (fun s1 caps1 => k s1 (caps1 ++ [firstn (length s - length s1) s]))
  | REnd => match s with [] => k [] caps | _ :: _ => None end
  end.

Definition accept : jsstring -> list jsstring -> option mres :=
  fun rest caps => Some (rest, caps).

(** [s.match(/^r/)]: the match array, [m[0]] first. *)
Definition match_start (r : regex) (s : jsstring) : option (list jsstring) :=
  match rmatch r s [] accept with
  | Some (rest, caps) => Some (firstn (length s - length rest) s :: caps)
  | None => None
  end.

(** [s.match(/r/)]: the leftmost match. *)
Fixpoint match_anywhere (r : regex) (s : jsstring) : option (list jsstring) :=
  match match_start r s with
  | Some m => Some m
  | None => match s with
            | [] => None
            | _ :: s' => match_anywhere r s'
            end
  end.

Fixpoint RLit (s : jsstring) : regex :=
  match s with
  | [] => RRep (fun _ => false) 0 (Some 0)
  | [c] => RChar c
  | c :: s' => RSeq (RChar c) (RLit s')
  end.

Definition plus (p : char -> bool) : regex := RRep p 1 None.
Definition exactly (n : nat) (p : char -> bool) : regex := RRep p n (Some n).
Definition between (lo hi : nat) (p : char -> bool) : regex := RRep p lo (Some hi).

Fixpoint seqs (rs : list regex) : regex :=
  match rs with
  | [] => RRep (fun _ => false) 0 (Some 0)
  | [r] => r
  | r :: rs' => RSeq r (seqs rs')
  end.

End Regex.
Import Regex.

(* ================================================================= *)
(** ** Dates: the time values and abstract operations of ECMA-262 *)

Module Date.
Local Open Scope Z_scope.

Definition msPerDay : Z := 86400000.
Definition msPerHour : Z := 3600000.
Definition msPerMinute : Z := 60000.
Definition msPerSecond : Z := 1000.

Definition Day (t : Z) : Z := t / msPerDay.
Definition TimeWithinDay (t : Z) : Z := t mod msPerDay.

Definition DaysInYear (y : Z) : Z :=
  if negb (y mod 4 =? 0) then 365
  else if negb (y mod 100 =? 0) then 366
  else if negb (y mod 400 =? 0) then 365
  else 366.

Definition DayFromYear (y : Z) : Z :=
  365 * (y - 1970) + (y - 1969) / 4 - (y - 1901) / 100 + (y - 1601) / 400.

Definition TimeFromYear (y : Z) : Z := msPerDay * DayFromYear y.

(** The largest year that starts on or before day [d]: an estimate from
    the mean length of a year, then one step of adjustment. *)
Definition YearFromDay (d : Z) : Z :=
  let y := 1970 + (400 * d) / 146097 in
  if d <? DayFromYear y then y - 1
  else if DayFromYear (y + 1) <=? d then y + 1
  else y.

Definition YearFromTime (t : Z) : Z := YearFromDay (Day t).

Definition InLeapYear (t : Z) : Z :=
  if DaysInYear (YearFromTime t) =? 366 then 1 else 0.

Definition DayWithinYear (t : Z) : Z := Day t - DayFromYear (YearFromTime t).

Definition MonthFromTime (t : Z) : Z :=
  let d := DayWithinYear t in
  let leap := InLeapYear t in
  if d <? 31 then 0
  else if d <? 59 + leap then 1
  else if d <? 90 + leap then 2
  else if d <? 120 + leap then 3
  else if d <? 151 + leap then 4
  else if d <? 181 + leap then 5
  else if d <? 212 + leap then 6
  else if d <? 243 + leap then 7
  else if d <? 273 + leap then 8
  else if d <? 304 + leap then 9
  else if d <? 334 + leap then 10
  else 11.

Definition DateFromTime (t : Z) : Z :=
  let d := DayWithinYear t in
  let leap := InLeapYear t in
  match MonthFromTime t with
  | 0 => d + 1
  | 1 => d - 30
  | 2 => d - 58 - leap
  | 3 => d - 89 - leap
  | 4 => d - 119 - leap
  | 5 => d - 150 - leap
  | 6 => d - 180 - leap
  | 7 => d - 211 - leap
  | 8 => d - 242 - leap
  | 9 => d - 272 - leap
  | 10 => d - 303 - leap
  | _ => d - 333 - leap
  end.

Definition HourFromTime (t : Z) : Z := (t / msPerHour) mod 24.
Definition MinFromTime (t : Z) : Z := (t / msPerMinute) mod 60.

Definition MakeTime (hour min sec ms : Z) : Z :=
  hour * msPerHour + min * msPerMinute + sec * msPerSecond + ms.

(** Days from the start of a year to the start of month [mn] (0..11). *)
Definition monthStart (mn leap : Z) : Z :=
  match mn with
  | 0 => 0
  | 1 => 31
  | 2 => 59 + leap
  | 3 => 90 + leap
  | 4 => 120 + leap
  | 5 => 151 + leap
  | 6 => 181 + leap
  | 7 => 212 + leap
  | 8 => 243 + leap
  | 9 => 273 + leap
  | 10 => 304 + leap
  | _ => 334 + leap
  end.

Definition leapDays (y : Z) : Z := DaysInYear y - 365.

(** MakeDay: the day number of the first of month [mn] of year [ym],
    plus [date - 1]; months outside 0..11 carry into the year. *)
Definition MakeDay (year month date : Z) : Z :=
  let ym := year + month / 12 in
  let mn := month mod 12 in
  DayFromYear ym + monthStart mn (leapDays ym) + date - 1.

Definition MakeDate (day time : Z) : Z := day * msPerDay + time.

Definition DaysInMonth (year month : Z) : Z :=
  match month with
  | 2 => 28 + leapDays year
  | 4 | 6 | 9 | 11 => 30
  | _ => 31
  end.

(** TimeClip: a time value is kept when within 8.64e15 ms of the epoch,
    and is NaN beyond. *)
Definition TimeClip (t : Z) : option Z :=
  if Z.abs t <=? 8640000000000000 then Some t else None.

(** The host: its local time zone, as the offset LocalTZA(t, isUTC) of
    ECMA-262 (in ms, less than a day either way), and what its
    [Date.parse] does with strings outside the Date Time String Format,
    which the standard leaves to the implementation. *)
Record Host : Type := {
  LocalTZA : Z -> bool -> Z;
  LocalTZA_bound : forall t u, - msPerDay < LocalTZA t u < msPerDay;
  legacyParse : jsstring -> option Z
}.

Definition LocalTime (h : Host) (t : Z) : Z := t + LocalTZA h t true.
Definition UTC (h : Host) (t : Z) : Z := t - LocalTZA h t false.

(** [new Date(year, month, date, hours, minutes)]: the time value.  A year
    in 0..99 means 1900 + year.  TimeClip is the identity on every value
    that the strict parser builds (lemma [parseTimestamp_clip] below). *)
Definition Date_local (h : Host) (year month date hours minutes : Z) : Z :=
  let yr := if (0 <=? year) && (year <=? 99) then 1900 + year else year in
  UTC h (MakeDate (MakeDay yr month date) (MakeTime hours minutes 0 0)).

(** The local-time getters of a valid Date with time value [t]. *)
Definition getFullYear (h : Host) (t : Z) : Z := YearFromTime (LocalTime h t).
Definition getMonth (h : Host) (t : Z) : Z := MonthFromTime (LocalTime h t).
Definition getDate (h : Host) (t : Z) : Z := DateFromTime (LocalTime h t).
Definition getHours (h : Host) (t : Z) : Z := HourFromTime (LocalTime h t).
Definition getMinutes (h : Host) (t : Z) : Z := MinFromTime (LocalTime h t).

(** The Date Time String Format in its complete UTC form,
    [YYYY-MM-DDTHH:mm:ss(.sss)?Z]. *)
Definition iso_utc_re : regex :=
  seqs [RGroup (exactly 4 isDigit); RChar 45%N; RGroup (exactly 2 isDigit);
        RChar 45%N; RGroup (exactly 2 isDigit); RChar 84%N;
        RGroup (exactly 2 isDigit); RChar 58%N; RGroup (exactly 2 isDigit);
        RChar 58%N; RGroup (exactly 2 isDigit);
        RAlt (RSeq (RChar 46%N) (RGroup (exactly 3 isDigit)))
             (RGroup (exactly 0 isDigit));
        RChar 90%N; REnd].

Definition parse_iso_utc (s : jsstring) : option Z :=
  match match_start iso_utc_re s with
  | Some [_; y; mo; d; hh; mi; ss; ms] =>
      let y := parseInt y in let mo := parseInt mo in let d := parseInt d in
      let hh := parseInt hh in let mi := parseInt mi in
      let ss := parseInt ss in let ms := parseInt ms in
      if (1 <=? mo) && (mo <=? 12) && (1 <=? d) && (d <=? DaysInMonth y mo)
         && (hh <=? 23) && (mi <=? 59) && (ss <=? 59)
      then Some (MakeDate (MakeDay y (mo - 1) d) (MakeTime hh mi ss ms))
      else None
  | _ => None
  end.

(** [new Date(string)]: the time value, [None] for an Invalid Date. *)
Definition Date_parse (h : Host) (s : jsstring) : option Z :=
  match parse_iso_utc s with
  | Some t => Some t
  | None =>
      match legacyParse h s with
      | Some t => TimeClip t
      | None => None
      end
  end.

(** A host on a constant offset from UTC (in minutes, east positive)
    whose [Date.parse] accepts nothing beyond the standard format. *)
Lemma fixed_offset_bound (m : Z) :
  forall (t : Z) (u : bool),
    - msPerDay < Z.max (-1439) (Z.min 1439 m) * msPerMinute < msPerDay.
Proof. intros _ _. unfold msPerDay, msPerMinute. lia. Qed.

Definition fixedHost (m : Z) : Host :=
  {| LocalTZA := fun _ _ => Z.max (-1439) (Z.min 1439 m) * msPerMinute;
     LocalTZA_bound := fixed_offset_bound m;
     legacyParse := fun _ => None |}.

Definition utcHost : Host := fixedHost 0.
(** US Eastern daylight time, UTC-4. *)
Definition edtHost : Host := fixedHost (-240).

End Date.
Import Date.

(* ================================================================= *)
(** ** Arrays *)

Module JSArray.

(** [Array.prototype.sort(cmp)].  The sort is stable, and for a comparator
    that is a consistent ordering its result is determined: the elements
    in ascending order of [cmp], ties in their original order.  It is
    modelled by a stable insertion sort. *)
Section Sort.
Context {A : Type}.
Variable cmp : A -> A -> Z.

Fixpoint insert (x : A) (l : list A) : list A :=
  match l with
  | [] => [x]
  | y :: l' => if (cmp x y >? 0)%Z then y :: insert x l' else x :: l
  end.

Definition sort (l : list A) : list A := fold_right insert [] l.
End Sort.

(** [a[i] = x]: an index past the end extends the array; the holes that
    leaves read as [hole] (they join as the empty string). *)
Fixpoint set_nth {A : Type} (hole : A) (i : nat) (x : A) (l : list A) : list A :=
  match i, l with
  | O, [] => [x]
  | O, _ :: t => x :: t
  | S i', [] => hole :: set_nth hole i' x []
  | S i', y :: t => y :: set_nth hole i' x t
  end.

Definition set_at (a : list jsstring) (i : Z) (x : jsstring) : list jsstring :=
  set_nth [] (Z.to_nat i) x a.

(** [a[i]] at an index inside the array. *)
Definition get (a : list jsstring) (i : Z) : jsstring := nth (Z.to_nat i) a [].

(** [a[i]], [None] for [undefined]. *)
Definition get_opt (a : list jsstring) (i : Z) : option jsstring :=
  if (i <? 0)%Z then None else nth_error a (Z.to_nat i).

(** The indices [a, a+1, ..., a+n-1] of a counting loop. *)
Definition upto (a : Z) (n : nat) : list Z :=
  List.map (fun k => (a + Z.of_nat k)%Z) (seq 0 n).

(** The indices of [for (let i = a; i <= b; i++)]. *)
Definition range (a b : Z) : list Z := upto a (Z.to_nat (b - a + 1)).

End JSArray.
Import JSArray.

(* ================================================================= *)
(** ** Timestamp utilities *)

Module TimestampParser.
Local Open Scope Z_scope.

(** [interface TimestampedEntry]; [timestamp] is the time value of the
    Date, [None] for [null]. *)
Record TimestampedEntry : Type := {
  line : jsstring;
  timestamp : option Z;
  originalIndex : Z
}.

(** [/^-\s+(\d{8}|\d{12})\s+-\s+/] *)
Definition strict_re : regex :=
  seqs [RChar 45%N; plus isSpace;
        RGroup (RAlt (exactly 8 isDigit) (exactly 12 isDigit));
        plus isSpace; RChar 45%N; plus isSpace].

(** [/^-\s+\d{8,12}\s+-\s+/] *)
Definition loose_re : regex :=
  seqs [RChar 45%N; plus isSpace; between 8 12 isDigit;
        plus isSpace; RChar 45%N; plus isSpace].

(** What [parseTimestamp] does with the result of the match. *)
Definition parseMatched (h : Host) (timestampMatch : option (list jsstring))
  : option Z :=
  match timestampMatch with
  | None => None
  | Some timestampMatch =>
      let timestampStr := nth 1 timestampMatch [] in
      if (length timestampStr =? 8)%nat then
        let year := parseInt (substring 0 4 timestampStr) in
        let month := parseInt (substring 4 6 timestampStr) - 1 in
        let day := parseInt (substring 6 8 timestampStr) in
        Some (Date_local h year month day 0 0)
      else if (length timestampStr =? 12)%nat then
        let year := parseInt (substring 0 4 timestampStr) in
        let month := parseInt (substring 4 6 timestampStr) - 1 in
        let day := parseInt (substring 6 8 timestampStr) in
        let hour := parseInt (substring 8 10 timestampStr) in
        let minute := parseInt (substring 10 12 timestampStr) in
        Some (Date_local h year month day hour minute)
      else None
  end.

Definition parseTimestamp (h : Host) (line : jsstring) : option Z :=
  parseMatched h (match_start strict_re line).

(** The comparator of [sortTimestampedEntries]. *)
Definition compareEntries (a b : TimestampedEntry) : Z :=
  match timestamp a, timestamp b with
  | None, None => originalIndex a - originalIndex b
  | None, Some _ => -1
  | Some _, None => 1
  | Some ta, Some tb => tb - ta
  end.

Definition sortTimestampedEntries (entries : list TimestampedEntry)
  : list TimestampedEntry :=
  JSArray.sort compareEntries entries.

End TimestampParser.
Import TimestampParser.

(* ================================================================= *)
(** ** Sort Timestamped List *)

Module SortTimestampedListCommand.
Local Open Scope Z_scope.

(** [{heading: string, line: number}] *)
Record Section_ : Type := { heading : jsstring; sline : Z }.

(** What the command does to its surroundings, in order. *)
Inductive effect : Type :=
| Modify (newContent : jsstring)
| Notice (message : jsstring).

(** [/^(#{1,6})\s+/] *)
Definition level_re : regex :=
  seqs [RGroup (between 1 6 isHash); plus isSpace].

(** [/^(#{1,6})\s+(.+)$/] *)
Definition heading_re : regex :=
  seqs [RGroup (between 1 6 isHash); plus isSpace; RGroup (plus isDot); REnd].

Definition getHeadingLevel (line : jsstring) : Z :=
  match match_start level_re line with
  | Some m => Z.of_nat (length (nth 1 m []))
  | None => 0
  end.

Definition entireDocument : jsstring :=
  [240; 376; 8220; 8222]%N ++ lit " Entire Document".

(** The headings of [loadSectionsForFile], before the entry for the whole
    document is put in front. *)
Definition headingsOf (lines : list jsstring) : list Section_ :=
  fold_left
    (fun sections '(index, line) =>
       match match_start heading_re line with
       | Some headingMatch =>
           let level := length (nth 1 headingMatch []) in
           let title := nth 2 headingMatch [] in
           sections ++ [{| heading := concat (repeat (lit "  ") (level - 1)) ++ title;
                           sline := index |}]
       | None => sections
       end)
    (combine (upto 0 (length lines)) lines) [].

Definition loadSectionsForFile (content : jsstring) : list Section_ :=
  {| heading := entireDocument; sline := -1 |} :: headingsOf (split_lines content).

(** The section boundaries; [None] when [lines[section.line]] is
    [undefined] and [getHeadingLevel] throws. *)
Definition sectionBounds (lines : list jsstring) (section : Section_)
  : option (Z * Z) :=
  if sline section =? -1 then Some (0, Z.of_nat (length lines) - 1)
  else
    match get_opt lines (sline section) with
    | None => None
    | Some headingLine =>
        let startLine := sline section + 1 in
        let currentHeadingLevel := getHeadingLevel headingLine in
        let endLine :=
          match find (fun i =>
                        let headingLevel := getHeadingLevel (get lines i) in
                        (headingLevel >? 0) && (headingLevel <=? currentHeadingLevel))
                     (upto startLine (length lines - Z.to_nat startLine)) with
          | Some i => i - 1
          | None => Z.of_nat (length lines) - 1
          end in
        Some (startLine, endLine)
    end.

(** The dual check of the scan: a strict parse, or the loose pattern. *)
Definition isTimestampRow (h : Host) (line : jsstring) : bool :=
  match parseTimestamp h line with
  | Some _ => true
  | None => match match_start loose_re line with Some _ => true | None => false end
  end.

(** The scan of the section: the timestamped entries and the other lines. *)
Definition scanSection (h : Host) (lines : list jsstring) (startLine endLine : Z)
  : list TimestampedEntry * list jsstring :=
  fold_left
    (fun '(timestampedEntries, nonTimestampedLines) i =>
       let line := get lines i in
       let timestamp := parseTimestamp h line in
       if isTimestampRow h line then
         (timestampedEntries ++
            [{| line := line; timestamp := timestamp; originalIndex := i |}],
          nonTimestampedLines)
       else (timestampedEntries, nonTimestampedLines ++ [line]))
    (range startLine endLine) ([], []).

(** The reconstruction: clear the section, write the sorted entries, then
    the other lines that are not blank, then empty lines to the end. *)
Definition rebuild (lines : list jsstring) (startLine endLine : Z)
    (sortedEntries : list TimestampedEntry) (nonTimestampedLines : list jsstring)
  : list jsstring :=
  let newLines := lines in
  let newLines :=
    fold_left (fun nl i => set_at nl i []) (range startLine endLine) newLines in
  let insertIndex := startLine in
  let '(newLines, insertIndex) :=
    fold_left
      (fun '(nl, ii) entry =>
         if ii <=? endLine then (set_at nl ii (line entry), ii + 1) else (nl, ii))
      sortedEntries (newLines, insertIndex) in
  let '(newLines, insertIndex) :=
    fold_left
      (fun '(nl, ii) line =>
         if (ii <=? endLine) && negb (str_eqb (trim line) [])
         then (set_at nl ii line, ii + 1) else (nl, ii))
      nonTimestampedLines (newLines, insertIndex) in
  fold_left (fun nl i => set_at nl i []) (range insertIndex endLine) newLines.

Definition sortTimestampsInSection (h : Host) (content : jsstring)
    (section : Section_) : option (list effect) :=
  let lines := split_lines content in
  match sectionBounds lines section with
  | None => None
  | Some (startLine, endLine) =>
      let '(timestampedEntries, nonTimestampedLines) :=
        scanSection h lines startLine endLine in
      if (length timestampedEntries =? 0)%nat then
        Some [Notice (lit "No timestamped entries found in the selected section")]
      else
        let sortedEntries := sortTimestampedEntries timestampedEntries in
        let newLines :=
          rebuild lines startLine endLine sortedEntries nonTimestampedLines in
        let newContent := join_lines newLines in
        Some [Modify newContent;
              Notice (lit "Sorted "
                        ++ Number_toString (Z.of_nat (length sortedEntries))
                        ++ lit " timestamped entries in " ++ [34%N]
                        ++ heading section ++ [34%N])]
  end.

End SortTimestampedListCommand.
Import SortTimestampedListCommand.

(* ================================================================= *)
(** ** Reddit Post Parser *)

Module RedditPostParserCommand.
Local Open Scope Z_scope.

(** A [shreddit-post] element as the extractor sees it: its attributes.
    The input of the extractor is the sequence of these elements in
    document order, which is what the selector [$('shreddit-post')] of
    the HTML library yields. *)
Definition Element : Type := list (jsstring * jsstring).

(** [post.attr(name)], [None] for [undefined]. *)
Fixpoint attr (elem : Element) (name : jsstring) : option jsstring :=
  match elem with
  | [] => None
  | (n, v) :: elem' => if str_eqb n name then Some v else attr elem' name
  end.

(** [!s] for [s : string | undefined]. *)
Definition falsy (s : option jsstring) : bool :=
  match s with
  | None => true
  | Some [] => true
  | Some (_ :: _) => false
  end.

(** [/(\/r\/[^/]+\/comments\/[^/]+\/)/] *)
Definition permalink_re : regex :=
  RGroup (seqs [RLit (lit "/r/"); plus notSlash; RLit (lit "/comments/");
                plus notSlash; RChar 47%N]).

(** A number that may be NaN, and its [toString]. *)
Definition num_toString (n : option Z) : jsstring :=
  match n with
  | Some z => Number_toString z
  | None => lit "NaN"
  end.

Definition pad (n : option Z) : jsstring := padStart2 (num_toString n).

Definition edtOffsetMs : Z := 4 * 60 * 60 * 1000.

(** [new Date(utcTime.getTime() - edtOffsetMs)] *)
Definition edtTimeOf (utcTime : option Z) : option Z :=
  match utcTime with
  | Some t => TimeClip (t - edtOffsetMs)
  | None => None
  end.

(** The time as YYYYMMDDHHmm, read with the local-time getters. *)
Definition formattedTime (h : Host) (edtTime : option Z) : jsstring :=
  num_toString (option_map (getFullYear h) edtTime)
  ++ pad (option_map (fun t => getMonth h t + 1) edtTime)
  ++ pad (option_map (getDate h) edtTime)
  ++ pad (option_map (getHours h) edtTime)
  ++ pad (option_map (getMinutes h) edtTime).

(** The body of the [each] callback: the line pushed for the element, or
    [None] when the callback returns early. *)
Definition postLine (h : Host) (elem : Element) : option jsstring :=
  let title := attr elem (lit "post-title") in
  let slug := attr elem (lit "permalink") in
  let timestampStr := attr elem (lit "created-timestamp") in
  if falsy title || falsy slug || falsy timestampStr then None
  else
    match title, slug, timestampStr with
    | Some title, Some slug, Some timestampStr =>
        match match_anywhere permalink_re slug with
        | None => None
        | Some m =>
            let postUrl := lit "https://www.reddit.com" ++ nth 1 m [] in
            let utcTime := Date_parse h timestampStr in
            let edtTime := edtTimeOf utcTime in
            Some (lit "- " ++ formattedTime h edtTime ++ lit " - ["
                    ++ title ++ lit "](" ++ postUrl ++ lit ")")
        end
    | _, _, _ => None
    end.

Definition extractRedditPosts (h : Host) (posts : list Element) : list jsstring :=
  fold_left
    (fun results elem =>
       match postLine h elem with
       | Some l => results ++ [l]
       | None => results
       end)
    posts [].

End RedditPostParserCommand.
Import RedditPostParserCommand.

(* ================================================================= *)
(** ** The matcher: how a greedy repetition behaves *)

Module RegexFacts.

(** Length of the longest prefix of [s] inside the class [p]. *)
Fixpoint prefix_len (p : char -> bool) (s : jsstring) : nat :=
  match s with
  | c :: s' => if p c then S (prefix_len p s') else O
  | [] => O
  end.

Definition le_hi (n : nat) (hi : option nat) : bool :=
  match hi with
  | Some m => (n <=? m)%nat
  | None => true
  end.

Definition starts_in (p : char -> bool) (s : jsstring) : bool :=
  match s with
  | c :: _ => p c
  | [] => false
  end.

Lemma prefix_len_le p s : (prefix_len p s <= length s)%nat.
Proof. induction s as [|c s IH]; simpl; [lia | destruct (p c); simpl; lia]. Qed.

Lemma prefix_len_all p s : Forall (fun c => p c = true) (firstn (prefix_len p s) s).
Proof.
  induction s as [|c s IH]; simpl; [constructor |].
  destruct (p c) eqn:E; simpl; [constructor; assumption | constructor].
Qed.

Lemma prefix_len_stop p s : starts_in p (skipn (prefix_len p s) s) = false.
Proof.
  induction s as [|c s IH]; simpl; [reflexivity |].
  destruct (p c) eqn:E; simpl; [exact IH | exact E].
Qed.

Lemma prefix_len_app p pre rest :
  Forall (fun c => p c = true) pre -> starts_in p rest = false ->
  prefix_len p (pre ++ rest) = length pre.
Proof.
  intros Hpre Hrest. induction Hpre as [|c pre Hc _ IH]; simpl.
  - destruct rest as [|c rest]; simpl in *; [reflexivity | now rewrite Hrest].
  - now rewrite Hc, IH.
Qed.

Lemma skipn_length_app {A} (pre rest : list A) : skipn (length pre) (pre ++ rest) = rest.
Proof. induction pre; simpl; auto. Qed.

Lemma firstn_length_app {A} (pre rest : list A) : firstn (length pre) (pre ++ rest) = pre.
Proof. induction pre; simpl; congruence. Qed.

(** Whatever a repetition returns comes from the continuation, after some
    admissible number of characters of the class. *)
Lemma rep_sound p s : forall lo hi k r,
  rep p lo hi s k = Some r ->
  exists n, (lo <= n)%nat /\ le_hi n hi = true /\ (n <= prefix_len p s)%nat
            /\ k (skipn n s) = Some r.
Proof.
  induction s as [|c s IH]; intros lo hi k r H; simpl in H.
  - destruct lo; [|discriminate]. exists O. simpl.
    repeat split; auto. destruct hi; reflexivity.
  - assert (Hstop : match lo with O => k (c :: s) | S _ => None end = Some r ->
              exists n, (lo <= n)%nat /\ le_hi n hi = true
                        /\ (n <= prefix_len p (c :: s))%nat
                        /\ k (skipn n (c :: s)) = Some r).
    { destruct lo; [|discriminate]. intros Hk. exists O.
      repeat split; auto; [destruct hi; reflexivity | lia]. }
    destruct (p c && more hi) eqn:E; [|auto].
    apply andb_true_iff in E. destruct E as [Hc Hm].
    destruct (rep p (pred lo) (option_map pred hi) s k) as [r'|] eqn:Er; [|auto].
    inversion H; subst r'. apply IH in Er.
    destruct Er as (n & Hlo & Hhi & Hn & Hk).
    exists (S n). simpl. rewrite Hc. repeat split; auto; try lia.
    destruct hi as [[|m]|]; simpl in *; try discriminate; auto.
Qed.

(** When the rest of the pattern cannot start with a character of the
    class, the repetition takes the whole run or fails. *)
Lemma rep_commit p k :
  (forall c t, p c = true -> k (c :: t) = None) ->
  forall s lo hi,
    rep p lo hi s k =
    if (lo <=? prefix_len p s)%nat && le_hi (prefix_len p s) hi
    then k (skipn (prefix_len p s) s) else None.
Proof.
  intros Hk. induction s as [|c s IH]; intros lo hi; simpl.
  - destruct lo, hi; reflexivity.
  - destruct (p c) eqn:Hc; simpl.
    + destruct (more hi) eqn:Hm.
      * rewrite IH.
        assert (E1 : (pred lo <=? prefix_len p s)%nat = (lo <=? S (prefix_len p s))%nat).
        { destruct lo; simpl; reflexivity. }
        assert (E2 : le_hi (prefix_len p s) (option_map pred hi)
                     = le_hi (S (prefix_len p s)) hi).
        { destruct hi as [[|m]|]; simpl in *; try discriminate; reflexivity. }
        rewrite E1, E2.
        destruct ((lo <=? S (prefix_len p s))%nat && le_hi (S (prefix_len p s)) hi) eqn:E.
        -- destruct (k (skipn (prefix_len p s) s)); [reflexivity |].
           destruct lo; [apply Hk; assumption | reflexivity].
        -- destruct lo; [apply Hk; assumption | reflexivity].
      * destruct hi as [[|m]|]; simpl in Hm; try discriminate.
        rewrite andb_false_r. destruct lo; [apply Hk; assumption | reflexivity].
    + destruct lo, hi; reflexivity.
Qed.

(** An unbounded repetition whose continuation accepts after the whole
    run takes the whole run. *)
Lemma rep_greedy p k s : forall lo,
  (lo <= prefix_len p s)%nat ->
  k (skipn (prefix_len p s) s) <> None ->
  rep p lo None s k = k (skipn (prefix_len p s) s).
Proof.
  induction s as [|c s IH]; intros lo Hlo Hk; simpl in *.
  - destruct lo; [reflexivity | lia].
  - destruct (p c) eqn:Hc; simpl in *.
    + rewrite IH; [| lia | assumption].
      destruct (k (skipn (prefix_len p s) s)); [reflexivity | congruence].
    + destruct lo; [reflexivity | lia].
Qed.

(** A repetition fails when the run is too short. *)
Lemma rep_short p k s : forall lo hi,
  (prefix_len p s < lo)%nat -> rep p lo hi s k = None.
Proof.
  intros lo hi H. destruct (rep p lo hi s k) eqn:E; [|reflexivity].
  apply rep_sound in E. destruct E as (n & ? & _ & ? & _). lia.
Qed.

End RegexFacts.
Import RegexFacts.

(* ================================================================= *)
(** ** The timestamp patterns, read as shapes of a line *)

Module RowFacts.

Definition after (p : char -> bool) (s : jsstring) : jsstring :=
  skipn (prefix_len p s) s.

(** A dash and at least one whitespace character: what follows them. *)
Definition dash_ws (s : jsstring) : option jsstring :=
  match s with
  | c :: s' =>
      if char_eqb 45%N c && (1 <=? prefix_len isSpace s')%nat
      then Some (after isSpace s') else None
  | [] => None
  end.

(** The digit run of a line of the form dash, whitespace, digits,
    whitespace, dash, whitespace. *)
Definition row_code (line : jsstring) : option jsstring :=
  match dash_ws line with
  | Some r1 =>
      let r2 := after isDigit r1 in
      if (1 <=? prefix_len isSpace r2)%nat then
        match dash_ws (after isSpace r2) with
        | Some _ => Some (firstn (prefix_len isDigit r1) r1)
        | None => None
        end
      else None
  | None => None
  end.

Lemma space_not_digit c : isSpace c = true -> isDigit c = false.
Proof.
  intros H. destruct (isDigit c) eqn:E; [|reflexivity]. exfalso.
  unfold isSpace, isDigit, isLineTerminator in *.
  rewrite ?orb_true_iff, ?andb_true_iff, ?N.eqb_eq, ?N.leb_le in *. lia.
Qed.

Lemma digit_not_space c : isDigit c = true -> isSpace c = false.
Proof.
  intros H. destruct (isSpace c) eqn:E; [|reflexivity].
  apply space_not_digit in E. congruence.
Qed.

Lemma space_not_dash c : isSpace c = true -> char_eqb 45%N c = false.
Proof.
  intros H. destruct (char_eqb 45%N c) eqn:E; [|reflexivity]. exfalso.
  apply N.eqb_eq in E. subst c. discriminate.
Qed.

Lemma after_length p s : length (after p s) = (length s - prefix_len p s)%nat.
Proof. unfold after. apply length_skipn. Qed.

Lemma taken_length p s : (length s - length (after p s))%nat = prefix_len p s.
Proof. rewrite after_length. pose proof (prefix_len_le p s). lia. Qed.

(** The tail of both patterns, [-\s+], with an accepting continuation. *)
Lemma tail_dash_ws (caps : list jsstring) (s : jsstring) :
  match s with
  | [] => None
  | c :: s' =>
      if char_eqb 45%N c
      then rep isSpace 1 None s' (fun s4 => accept s4 caps) else None
  end = option_map (fun rest => (rest, caps)) (dash_ws s).
Proof.
  unfold dash_ws. destruct s as [|c s']; [reflexivity |].
  destruct (char_eqb 45%N c); [|reflexivity].
  destruct (Nat.leb_spec 1 (prefix_len isSpace s')) as [E|E]; simpl andb; cbv iota.
  - rewrite rep_greedy; [reflexivity | assumption | discriminate].
  - simpl. apply rep_short. assumption.
Qed.

(** [\s+] in front of a pattern that cannot start with whitespace. *)
Lemma ws_then (k : jsstring -> option mres) (s : jsstring) :
  (forall c t, isSpace c = true -> k (c :: t) = None) ->
  rep isSpace 1 None s k =
  if (1 <=? prefix_len isSpace s)%nat then k (after isSpace s) else None.
Proof.
  intros Hk. rewrite (rep_commit isSpace k Hk). simpl. now rewrite andb_true_r.
Qed.

(** [\d{lo,hi}\s+-\s+] after the leading dash and whitespace. *)
Lemma digits_then (lo hi : nat) (caps : jsstring -> list jsstring) (r1 : jsstring) :
  rep isDigit lo (Some hi) r1
    (fun s1 =>
       rep isSpace 1 None s1
         (fun s2 =>
            match s2 with
            | [] => None
            | c :: s3 =>
                if char_eqb 45%N c
                then rep isSpace 1 None s3 (fun s4 => accept s4 (caps s1))
                else None
            end))
  = if (lo <=? prefix_len isDigit r1)%nat && (prefix_len isDigit r1 <=? hi)%nat
    then
      if (1 <=? prefix_len isSpace (after isDigit r1))%nat then
        option_map (fun rest => (rest, caps (after isDigit r1)))
          (dash_ws (after isSpace (after isDigit r1)))
      else None
    else None.
Proof.
  rewrite rep_commit.
  - simpl. destruct ((lo <=? prefix_len isDigit r1)%nat
                     && (prefix_len isDigit r1 <=? hi)%nat); [|reflexivity].
    fold (after isDigit r1). rewrite ws_then.
    + rewrite tail_dash_ws. reflexivity.
    + intros c t Hc. now rewrite (space_not_dash c Hc).
  - intros c t Hc. apply rep_short. simpl. rewrite (digit_not_space c Hc). lia.
Qed.

(** Capture 1 of the strict pattern. *)
Definition strict_code (line : jsstring) : option jsstring :=
  option_map (fun m => nth 1 m []) (match_start strict_re line).

Definition matches (r : regex) (line : jsstring) : bool :=
  match match_start r line with Some _ => true | None => false end.

Lemma strict_code_eq line :
  strict_code line =
  match row_code line with
  | Some ds => if (length ds =? 8)%nat || (length ds =? 12)%nat then Some ds else None
  | None => None
  end.
Proof.
  unfold strict_code, match_start, strict_re, plus, exactly. cbn [seqs rmatch].
  unfold row_code.
  destruct line as [|c s]; [reflexivity |]. unfold dash_ws at 1.
  destruct (char_eqb 45%N c); rewrite ?andb_true_l, ?andb_false_l; [|reflexivity].
  rewrite ws_then.
  2:{ intros c' t Hc.
      assert (Hd : forall n, (prefix_len isDigit (c' :: t) < S n)%nat)
        by (intros n; simpl; rewrite (space_not_digit c' Hc); lia).
      cbv beta. rewrite !rep_short by apply Hd. reflexivity. }
  destruct (1 <=? prefix_len isSpace s)%nat; [|reflexivity].
  set (r1 := after isSpace s).
  rewrite !(digits_then _ _ (fun s1 => [] ++ [firstn (length r1 - length s1) r1])).
  rewrite taken_length.
  set (nd := prefix_len isDigit r1).
  assert (Hlen : length (firstn nd r1) = nd).
  { apply firstn_length_le. apply prefix_len_le. }
  destruct (1 <=? prefix_len isSpace (after isDigit r1))%nat.
  - destruct (dash_ws (after isSpace (after isDigit r1))) as [r|];
      cbn [option_map]; rewrite ?Hlen.
    + destruct (Nat.eqb_spec nd 8) as [E8|N8].
      { rewrite E8. reflexivity. }
      replace ((8 <=? nd)%nat && (nd <=? 8)%nat) with false
        by (symmetry; apply andb_false_iff;
            destruct (Nat.leb_spec 8 nd); [right; apply Nat.leb_gt; lia | now left]).
      destruct (Nat.eqb_spec nd 12) as [E12|N12].
      { rewrite E12. reflexivity. }
      replace ((12 <=? nd)%nat && (nd <=? 12)%nat) with false
        by (symmetry; apply andb_false_iff;
            destruct (Nat.leb_spec 12 nd); [right; apply Nat.leb_gt; lia | now left]).
      reflexivity.
    + destruct ((8 <=? nd)%nat && (nd <=? 8)%nat),
               ((12 <=? nd)%nat && (nd <=? 12)%nat); reflexivity.
  - destruct ((8 <=? nd)%nat && (nd <=? 8)%nat),
             ((12 <=? nd)%nat && (nd <=? 12)%nat); reflexivity.
Qed.

Lemma loose_matches_eq line :
  matches loose_re line =
  match row_code line with
  | Some ds => (8 <=? length ds)%nat && (length ds <=? 12)%nat
  | None => false
  end.
Proof.
  unfold matches, match_start, loose_re, plus, between. cbn [seqs rmatch].
  unfold row_code.
  destruct line as [|c s]; [reflexivity |]. unfold dash_ws at 1.
  destruct (char_eqb 45%N c); rewrite ?andb_true_l, ?andb_false_l; [|reflexivity].
  rewrite ws_then.
  2:{ intros c' t Hc. apply rep_short. simpl.
      rewrite (space_not_digit c' Hc). lia. }
  destruct (1 <=? prefix_len isSpace s)%nat; [|reflexivity].
  set (r1 := after isSpace s).
  rewrite (digits_then 8 12 (fun _ => [])).
  set (nd := prefix_len isDigit r1).
  assert (Hlen : length (firstn nd r1) = nd).
  { apply firstn_length_le. apply prefix_len_le. }
  destruct (1 <=? prefix_len isSpace (after isDigit r1))%nat.
  - destruct (dash_ws (after isSpace (after isDigit r1))) as [r|];
      cbn [option_map]; rewrite ?Hlen;
      destruct ((8 <=? nd)%nat && (nd <=? 12)%nat); reflexivity.
  - destruct ((8 <=? nd)%nat && (nd <=? 12)%nat); reflexivity.
Qed.

Definition all (p : char -> bool) (s : jsstring) : Prop :=
  Forall (fun c => p c = true) s.

(** A line that is a dash, whitespace, the digits [ds], whitespace, a
    dash, whitespace, and anything after. *)
Definition RowShape (line ds : jsstring) : Prop :=
  exists ws1 ws2 ws3 rest,
    line = 45%N :: ws1 ++ ds ++ ws2 ++ 45%N :: ws3 ++ rest
    /\ ws1 <> [] /\ ws2 <> [] /\ ws3 <> []
    /\ all isSpace ws1 /\ all isSpace ws2 /\ all isSpace ws3
    /\ all isDigit ds.

Lemma prefix_len_ge p pre rest :
  all p pre -> (length pre <= prefix_len p (pre ++ rest))%nat.
Proof.
  intros H. induction H as [|c pre Hc _ IH]; simpl; [lia | rewrite Hc; lia].
Qed.

Lemma starts_in_app p a b :
  a <> [] -> starts_in p (a ++ b) = starts_in p a.
Proof. destruct a; [congruence | reflexivity]. Qed.

Lemma starts_all p a : a <> [] -> all p a -> starts_in p a = true.
Proof. intros Hne H. destruct H; [congruence | assumption]. Qed.

Lemma nonempty_length {A} (l : list A) : l <> [] <-> (1 <= length l)%nat.
Proof. destruct l; simpl; split; intros; try congruence; lia. Qed.

Lemma after_split p s : s = firstn (prefix_len p s) s ++ after p s.
Proof. unfold after. symmetry. apply firstn_skipn. Qed.

Lemma dash_ws_shape s r :
  dash_ws s = Some r ->
  exists ws, s = 45%N :: ws ++ r /\ ws <> [] /\ all isSpace ws
             /\ starts_in isSpace r = false.
Proof.
  unfold dash_ws. destruct s as [|c s']; [discriminate |].
  destruct (char_eqb 45%N c) eqn:Ec; [|discriminate].
  destruct (Nat.leb_spec 1 (prefix_len isSpace s')) as [Hn|Hn]; [|discriminate].
  simpl. intros H; inversion H; subst r.
  exists (firstn (prefix_len isSpace s') s'). apply N.eqb_eq in Ec. subst c.
  split; [f_equal; apply after_split |].
  split.
  - apply nonempty_length. rewrite firstn_length_le; [assumption | apply prefix_len_le].
  - split; [apply prefix_len_all | apply prefix_len_stop].
Qed.

Lemma dash_ws_intro ws rest :
  ws <> [] -> all isSpace ws -> dash_ws (45%N :: ws ++ rest) <> None.
Proof.
  intros Hne Hall. unfold dash_ws.
  replace (char_eqb 45%N 45%N) with true by reflexivity.
  pose proof (prefix_len_ge _ _ rest Hall) as Hge.
  apply nonempty_length in Hne.
  destruct (Nat.leb_spec 1 (prefix_len isSpace (ws ++ rest))); [discriminate | lia].
Qed.

Lemma dash_ws_exact ws rest :
  ws <> [] -> all isSpace ws -> starts_in isSpace rest = false ->
  dash_ws (45%N :: ws ++ rest) = Some rest.
Proof.
  intros Hne Hall Hrest. unfold dash_ws, after.
  replace (char_eqb 45%N 45%N) with true by reflexivity.
  rewrite (prefix_len_app _ _ _ Hall Hrest), skipn_length_app.
  apply nonempty_length in Hne.
  destruct (Nat.leb_spec 1 (length ws)); [reflexivity | lia].
Qed.

Lemma row_code_shape line ds :
  row_code line = Some ds -> RowShape line ds.
Proof.
  unfold row_code. destruct (dash_ws line) as [r1|] eqn:E1; [|discriminate].
  destruct (Nat.leb_spec 1 (prefix_len isSpace (after isDigit r1))) as [H2|H2];
    [|discriminate].
  destruct (dash_ws (after isSpace (after isDigit r1))) as [r4|] eqn:E3; [|discriminate].
  intros H; inversion H; subst ds; clear H.
  apply dash_ws_shape in E1. destruct E1 as (ws1 & -> & Hne1 & Hall1 & _).
  apply dash_ws_shape in E3. destruct E3 as (ws3 & E3 & Hne3 & Hall3 & _).
  exists ws1, (firstn (prefix_len isSpace (after isDigit r1)) (after isDigit r1)), ws3, r4.
  split.
  - f_equal. f_equal. rewrite <- E3.
    rewrite <- (after_split isSpace (after isDigit r1)). apply after_split.
  - repeat split; auto; try apply prefix_len_all.
    apply nonempty_length. rewrite firstn_length_le; [assumption | apply prefix_len_le].
Qed.

Lemma shape_row_code line ds :
  ds <> [] -> RowShape line ds -> row_code line = Some ds.
Proof.
  intros Hds (ws1 & ws2 & ws3 & rest & -> & Hne1 & Hne2 & Hne3 & H1 & H2 & H3 & Hd).
  unfold row_code.
  assert (Sd : starts_in isSpace (ds ++ ws2 ++ 45%N :: ws3 ++ rest) = false).
  { rewrite starts_in_app by assumption. destruct Hd as [|c ds' Hc _]; [congruence |].
    simpl. apply digit_not_space; assumption. }
  rewrite (dash_ws_exact _ _ Hne1 H1 Sd).
  assert (Sw : starts_in isDigit (ws2 ++ 45%N :: ws3 ++ rest) = false).
  { rewrite starts_in_app by assumption. destruct H2 as [|c ws' Hc _]; [congruence |].
    simpl. apply space_not_digit; assumption. }
  unfold after at 1 2 3.
  rewrite (prefix_len_app _ _ _ Hd Sw), skipn_length_app, firstn_length_app.
  assert (S2 : starts_in isSpace (45%N :: ws3 ++ rest) = false) by reflexivity.
  unfold after.
  rewrite (prefix_len_app _ _ _ H2 S2), skipn_length_app.
  apply nonempty_length in Hne2.
  destruct (Nat.leb_spec 1 (length ws2)); [|lia].
  pose proof (dash_ws_intro ws3 rest Hne3 H3).
  destruct (dash_ws (45%N :: ws3 ++ rest)); [reflexivity | congruence].
Qed.

(** The strict pattern matches exactly the rows of 8 or 12 digits, and
    captures the digits. *)
Lemma strict_code_iff line ds :
  strict_code line = Some ds <->
  RowShape line ds /\ (length ds = 8%nat \/ length ds = 12%nat).
Proof.
  rewrite strict_code_eq. split.
  - destruct (row_code line) as [ds'|] eqn:E; [|discriminate].
    destruct (Nat.eqb_spec (length ds') 8) as [E8|N8]; simpl.
    + intros H; inversion H; subst ds'. split; [apply row_code_shape; assumption | auto].
    + destruct (Nat.eqb_spec (length ds') 12) as [E12|N12]; [|discriminate].
      intros H; inversion H; subst ds'. split; [apply row_code_shape; assumption | auto].
  - intros [Hs Hl]. rewrite (shape_row_code _ ds); auto.
    + destruct Hl as [-> | ->]; reflexivity.
    + intros ->. simpl in Hl. lia.
Qed.

Lemma loose_matches_iff line :
  matches loose_re line = true <->
  exists ds, RowShape line ds /\ (8 <= length ds <= 12)%nat.
Proof.
  rewrite loose_matches_eq. split.
  - destruct (row_code line) as [ds|] eqn:E; [|discriminate].
    rewrite andb_true_iff, !Nat.leb_le. intros Hl. exists ds.
    split; [apply row_code_shape; assumption | lia].
  - intros (ds & Hs & Hl). rewrite (shape_row_code _ ds); auto.
    + rewrite andb_true_iff, !Nat.leb_le. lia.
    + intros ->. simpl in Hl. lia.
Qed.

(** [parseTimestamp], through the capture of the strict pattern. *)
Definition decode8 (h : Host) (ds : jsstring) : Z :=
  Date_local h (parseInt (substring 0 4 ds)) (parseInt (substring 4 6 ds) - 1)
    (parseInt (substring 6 8 ds)) 0 0.

Definition decode12 (h : Host) (ds : jsstring) : Z :=
  Date_local h (parseInt (substring 0 4 ds)) (parseInt (substring 4 6 ds) - 1)
    (parseInt (substring 6 8 ds)) (parseInt (substring 8 10 ds))
    (parseInt (substring 10 12 ds)).

Lemma parseMatched_code h (o : option (list (list N))) :
  parseMatched h o =
  match option_map (fun m => nth 1 m []) o with
  | None => None
  | Some ds =>
      if (length ds =? 8)%nat then Some (decode8 h ds)
      else if (length ds =? 12)%nat then Some (decode12 h ds)
      else None
  end.
Proof.
  destruct o as [m|]; [|reflexivity].
  unfold parseMatched, decode8, decode12. cbn [option_map]. cbv zeta. reflexivity.
Qed.

Lemma parseTimestamp_code h line :
  parseTimestamp h line =
  match strict_code line with
  | None => None
  | Some ds =>
      if (length ds =? 8)%nat then Some (decode8 h ds)
      else if (length ds =? 12)%nat then Some (decode12 h ds)
      else None
  end.
Proof. unfold parseTimestamp, strict_code. apply parseMatched_code. Qed.

Lemma parseTimestamp_Some_iff h line :
  parseTimestamp h line <> None <->
  exists ds, RowShape line ds /\ (length ds = 8%nat \/ length ds = 12%nat).
Proof.
  rewrite parseTimestamp_code. split.
  - destruct (strict_code line) as [ds|] eqn:E; [|congruence].
    intros _. exists ds. apply strict_code_iff. assumption.
  - intros (ds & Hs). apply strict_code_iff in Hs. rewrite Hs.
    apply strict_code_iff in Hs. destruct Hs as [_ [-> | ->]]; discriminate.
Qed.

Lemma isTimestampRow_iff h line :
  isTimestampRow h line = true <->
  exists ds, RowShape line ds /\ (8 <= length ds <= 12)%nat.
Proof.
  unfold isTimestampRow. fold (matches loose_re line).
  destruct (parseTimestamp h line) as [t|] eqn:E.
  - split; [intros _ | reflexivity].
    assert (H : parseTimestamp h line <> None) by congruence.
    apply parseTimestamp_Some_iff in H. destruct H as (ds & Hs & Hl).
    exists ds. split; [assumption | lia].
  - apply loose_matches_iff.
Qed.

End RowFacts.
Import RowFacts.
(* ================================================================= *)
(** ** The stable sort *)

Module SortFacts.
Local Open Scope Z_scope.

Section Generic.
Context {A : Type}.
Variable cmp : A -> A -> Z.

Definition le (a b : A) : Prop := cmp a b <= 0.

Lemma insert_perm x l : Permutation (x :: l) (insert cmp x l).
Proof.
  induction l as [|y l IH]; simpl; [reflexivity |].
  destruct (cmp x y >? 0); [|reflexivity].
  rewrite perm_swap. constructor. exact IH.
Qed.

Lemma sort_perm l : Permutation l (JSArray.sort cmp l).
Proof.
  induction l as [|x l IH]; simpl; [constructor |].
  rewrite <- insert_perm. constructor. exact IH.
Qed.

(** Where the new element lands: after a prefix of strictly smaller
    elements, in front of the first element that is not smaller. *)
Lemma insert_split x l :
  exists l1 l2, l = l1 ++ l2 /\ insert cmp x l = l1 ++ x :: l2
                /\ Forall (fun y => cmp x y > 0) l1
                /\ match l2 with [] => True | y :: _ => cmp x y <= 0 end.
Proof.
  induction l as [|y l IH]; simpl.
  - exists [], []. repeat split; constructor.
  - destruct (Z.gtb_spec (cmp x y) 0) as [Hgt|Hle].
    + destruct IH as (l1 & l2 & -> & -> & H1 & H2).
      exists (y :: l1), l2. repeat split; auto. constructor; [lia | assumption].
    + exists [], (y :: l). repeat split; auto.
Qed.

(** The comparator is a consistent ordering. *)
Hypothesis cmp_trans : forall a b c, cmp a b <= 0 -> cmp b c <= 0 -> cmp a c <= 0.
Hypothesis cmp_total : forall a b, cmp a b > 0 -> cmp b a <= 0.
Hypothesis cmp_tie : forall z x y, cmp z x = 0 -> cmp z y = 0 -> cmp x y <= 0.

Lemma insert_sorted x l :
  StronglySorted le l -> StronglySorted le (insert cmp x l).
Proof.
  intros Hs. induction Hs as [|y l Hs IH Hy]; simpl.
  - repeat constructor.
  - destruct (Z.gtb_spec (cmp x y) 0) as [Hgt|Hle].
    + constructor; [exact IH |].
      apply (Permutation_Forall (insert_perm x l)).
      constructor; [apply cmp_total; lia | assumption].
    + constructor; [constructor; assumption |].
      constructor; [exact Hle |].
      apply Forall_impl with (P := le y); [|assumption].
      intros z Hz. unfold le in *. eapply cmp_trans; eassumption.
Qed.

Lemma sort_sorted l : StronglySorted le (JSArray.sort cmp l).
Proof.
  induction l as [|x l IH]; simpl; [constructor | apply insert_sorted; exact IH].
Qed.

(** Stability: the elements that compare equal to [z] come out in the
    order they came in. *)
Definition tied (z y : A) : bool := cmp z y =? 0.

Lemma insert_stable z x l :
  filter (tied z) (insert cmp x l) = filter (tied z) (x :: l).
Proof.
  destruct (insert_split x l) as (l1 & l2 & -> & -> & H1 & _).
  cbn [filter]. rewrite !filter_app. cbn [filter].
  destruct (tied z x) eqn:Hx; [|reflexivity].
  assert (E : filter (tied z) l1 = []).
  { clear -H1 Hx cmp_tie. induction H1 as [|y l1 Hy _ IH]; simpl; [reflexivity |].
    destruct (tied z y) eqn:Hzy; [|exact IH]. exfalso.
    unfold tied in *. apply Z.eqb_eq in Hx, Hzy.
    pose proof (cmp_tie z x y Hx Hzy). lia. }
  rewrite E. reflexivity.
Qed.

Lemma sort_stable z l :
  filter (tied z) (JSArray.sort cmp l) = filter (tied z) l.
Proof.
  induction l as [|x l IH]; simpl; [reflexivity |].
  rewrite insert_stable. simpl. rewrite IH. reflexivity.
Qed.

(** A sorted list splits at any downward-closed class of elements. *)
Lemma sorted_split (first : A -> bool) l :
  (forall a b, first a = false -> first b = true -> cmp a b > 0) ->
  StronglySorted le l ->
  l = filter first l ++ filter (fun a => negb (first a)) l.
Proof.
  intros Hcls Hs. induction Hs as [|x l Hs IH Hx]; simpl; [reflexivity |].
  destruct (first x) eqn:Ex; simpl.
  - f_equal. exact IH.
  - assert (E : filter first l = []).
    { clear -Hx Hcls Ex. induction Hx as [|y l Hy _ IH]; simpl; [reflexivity |].
      destruct (first y) eqn:Ey; [|exact IH]. exfalso.
      pose proof (Hcls x y Ex Ey). unfold le in Hy. lia. }
    rewrite E in *. simpl in *. f_equal. exact IH.
Qed.

(** The result of the sort is determined by these properties: a stable
    arrangement in order is unique. *)
Lemma sorted_stable_unique l1 : forall l2,
  StronglySorted le l1 -> StronglySorted le l2 ->
  Permutation l1 l2 ->
  (forall z, filter (tied z) l1 = filter (tied z) l2) ->
  (forall a b, cmp a b <= 0 -> cmp b a <= 0 -> cmp a b = 0) ->
  l1 = l2.
Proof.
  induction l1 as [|x l1 IH]; intros l2 S1 S2 P St Hanti.
  - apply Permutation_nil in P. congruence.
  - destruct l2 as [|y l2]; [apply Permutation_sym, Permutation_nil in P; discriminate |].
    inversion S1 as [|? ? S1' F1]; inversion S2 as [|? ? S2' F2]; subst.
    assert (Hrefl : forall a, cmp a a = 0).
    { intros a. assert (cmp a a <= 0).
      { destruct (Z.gtb_spec (cmp a a) 0) as [G|L]; [|exact L].
        apply cmp_total. lia. }
      apply Hanti; assumption. }
    assert (Hxy : cmp x y = 0 /\ cmp y x = 0).
    { assert (Ix : In x (y :: l2)) by (apply (Permutation_in _ P); left; reflexivity).
      assert (Iy : In y (x :: l1))
        by (apply (Permutation_in _ (Permutation_sym P)); left; reflexivity).
      assert (Lyx : cmp y x <= 0).
      { destruct Ix as [->|Ix]; [rewrite Hrefl; lia |].
        rewrite Forall_forall in F2. apply F2. assumption. }
      assert (Lxy : cmp x y <= 0).
      { destruct Iy as [->|Iy]; [rewrite Hrefl; lia |].
        rewrite Forall_forall in F1. apply F1. assumption. }
      split; apply Hanti; assumption. }
    destruct Hxy as [Hxy Hyx].
    pose proof (Hrefl x) as Hxx.
    assert (Txx : tied x x = true) by (unfold tied; rewrite Hxx; reflexivity).
    assert (Txy : tied x y = true) by (unfold tied; rewrite Hxy; reflexivity).
    pose proof (St x) as Sx. cbn [filter] in Sx. rewrite Txx, Txy in Sx.
    inversion Sx as [[Exy Et]]. subst y.
    f_equal. apply IH; auto.
    + apply Permutation_cons_inv with (a := x). exact P.
    + intros z. pose proof (St z) as Sz. cbn [filter] in Sz.
      destruct (tied z x); [inversion Sz; reflexivity | exact Sz].
Qed.

End Generic.

(** The comparator of the source is such an ordering. *)
Lemma compareEntries_trans a b c :
  compareEntries a b <= 0 -> compareEntries b c <= 0 -> compareEntries a c <= 0.
Proof.
  unfold compareEntries.
  destruct (timestamp a), (timestamp b), (timestamp c); lia.
Qed.

Lemma compareEntries_total a b : compareEntries a b > 0 -> compareEntries b a <= 0.
Proof. unfold compareEntries. destruct (timestamp a), (timestamp b); lia. Qed.

Lemma compareEntries_tie z x y :
  compareEntries z x = 0 -> compareEntries z y = 0 -> compareEntries x y <= 0.
Proof.
  unfold compareEntries.
  destruct (timestamp z), (timestamp x), (timestamp y); lia.
Qed.

Lemma compareEntries_anti a b :
  compareEntries a b <= 0 -> compareEntries b a <= 0 -> compareEntries a b = 0.
Proof. unfold compareEntries. destruct (timestamp a), (timestamp b); lia. Qed.

Definition isNull (e : TimestampedEntry) : bool :=
  match timestamp e with None => true | Some _ => false end.

Lemma compareEntries_null_first a b :
  isNull a = false -> isNull b = true -> compareEntries a b > 0.
Proof.
  unfold isNull, compareEntries.
  destruct (timestamp a), (timestamp b); intros; try discriminate; lia.
Qed.

(** Any stable arrangement of the entries in the order of the comparator
    is the one computed here: the outcome of the sort does not depend on
    the sorting algorithm. *)
Lemma sortTimestampedEntries_unique entries sorted :
  Permutation entries sorted ->
  StronglySorted (le compareEntries) sorted ->
  (forall z, filter (tied compareEntries z) sorted
             = filter (tied compareEntries z) entries) ->
  sorted = sortTimestampedEntries entries.
Proof.
  intros Hp Hs Hst.
  apply (sorted_stable_unique compareEntries compareEntries_total).
  - exact Hs.
  - exact (sort_sorted compareEntries compareEntries_trans compareEntries_total
             entries).
  - etransitivity; [apply Permutation_sym; exact Hp | apply sort_perm].
  - intros z. rewrite Hst. symmetry.
    apply (sort_stable compareEntries compareEntries_tie).
  - exact compareEntries_anti.
Qed.

End SortFacts.
Import SortFacts.
(* ================================================================= *)
(** ** Lines: splitting, joining, blank lines *)

Module LineFacts.

Definition noLF (l : list N) : Prop := ~ In 10%N l.

Lemma split_lines_nonempty s : split_lines s <> [].
Proof.
  destruct s as [|c s]; simpl; [discriminate |].
  destruct (c =? 10)%N; [discriminate |].
  destruct (split_lines s); discriminate.
Qed.

Lemma join_split s : join_lines (split_lines s) = s.
Proof.
  induction s as [|c s IH]; simpl; [reflexivity |].
  destruct (N.eqb_spec c 10) as [->|Hc].
  - pose proof (split_lines_nonempty s) as Hne.
    simpl. destruct (split_lines s) as [|l ls]; [congruence |].
    rewrite IH. reflexivity.
  - pose proof (split_lines_nonempty s) as Hne.
    destruct (split_lines s) as [|l ls]; [congruence |].
    destruct ls as [|l' ls]; simpl in *; rewrite <- IH; reflexivity.
Qed.

Lemma split_noLF s : Forall noLF (split_lines s).
Proof.
  induction s as [|c s IH]; simpl.
  - repeat constructor. intros [].
  - destruct (N.eqb_spec c 10) as [->|Hc].
    + constructor; [intros [] | exact IH].
    + destruct (split_lines s) as [|l ls]; [repeat constructor; intros [H|[]]; congruence |].
      inversion IH as [|? ? Hl Hls]; subst. constructor; [|exact Hls].
      intros [H|H]; [congruence | exact (Hl H)].
Qed.

Lemma split_line_noLF l : noLF l -> split_lines l = [l].
Proof.
  induction l as [|c l IH]; intros H; simpl; [reflexivity |].
  destruct (N.eqb_spec c 10) as [->|Hc]; [exfalso; apply H; left; reflexivity |].
  rewrite IH; [reflexivity |]. intros Hin. apply H. right. exact Hin.
Qed.

Lemma split_app_LF l s :
  noLF l -> split_lines (l ++ 10%N :: s) = l :: split_lines s.
Proof.
  induction l as [|c l IH]; intros H; simpl; [reflexivity |].
  destruct (N.eqb_spec c 10) as [->|Hc]; [exfalso; apply H; left; reflexivity |].
  rewrite IH; [reflexivity |]. intros Hin. apply H. right. exact Hin.
Qed.

Lemma split_join ls : ls <> [] -> Forall noLF ls -> split_lines (join_lines ls) = ls.
Proof.
  induction ls as [|l ls IH]; intros Hne Hall; [congruence |].
  inversion Hall as [|? ? Hl Hls]; subst.
  destruct ls as [|l' ls]; [apply split_line_noLF; assumption |].
  change (join_lines (l :: l' :: ls)) with (l ++ 10%N :: join_lines (l' :: ls)).
  rewrite split_app_LF by assumption. f_equal. apply IH; [discriminate | assumption].
Qed.

(** A line is blank when [trim] leaves nothing of it. *)
Definition blank (l : list N) : bool := str_eqb (trim l) [].

Lemma dropWhile_nil p s : dropWhile p s = [] <-> forallb p s = true.
Proof.
  induction s as [|c s IH]; simpl; [tauto |].
  destruct (p c); simpl; [exact IH | split; discriminate].
Qed.

Lemma dropWhile_all p s : forallb p (dropWhile p s) = true -> forallb p s = true.
Proof.
  induction s as [|c s IH]; simpl; [auto |].
  destruct (p c) eqn:E; simpl; [exact IH | rewrite E; discriminate].
Qed.

Lemma forallb_rev {A} (p : A -> bool) s : forallb p (rev s) = forallb p s.
Proof.
  induction s as [|c s IH]; simpl; [reflexivity |].
  rewrite forallb_app, IH. simpl. rewrite andb_true_r. apply andb_comm.
Qed.

Lemma blank_iff l : blank l = true <-> forallb isSpace l = true.
Proof.
  unfold blank, trim. rewrite str_eqb_eq. split.
  - intros H. apply (f_equal (@rev N)) in H. rewrite rev_involutive in H. simpl in H.
    apply dropWhile_nil in H. rewrite forallb_rev in H. apply dropWhile_all. exact H.
  - intros H. apply dropWhile_nil in H. rewrite H. reflexivity.
Qed.

Lemma blank_nil : blank [] = true.
Proof. reflexivity. Qed.

Lemma row_not_blank h l : isTimestampRow h l = true -> blank l = false.
Proof.
  intros H. apply isTimestampRow_iff in H. destruct H as (ds & Hs & _).
  destruct Hs as (ws1 & ws2 & ws3 & rest & -> & _).
  destruct (blank _) eqn:E; [|reflexivity].
  apply blank_iff in E. simpl in E. discriminate.
Qed.

End LineFacts.
Import LineFacts.
(* ================================================================= *)
(** ** The loops of the sorter *)

Module LoopFacts.
Local Open Scope Z_scope.

Lemma upto_S a n : upto a (S n) = a :: upto (a + 1) n.
Proof.
  unfold upto. simpl. f_equal; [lia |].
  rewrite <- seq_shift, map_map. apply map_ext. intros k. lia.
Qed.

Lemma upto_length a n : length (upto a n) = n.
Proof. unfold upto. rewrite length_map, length_seq. reflexivity. Qed.

Lemma upto_In a n i : In i (upto a n) <-> a <= i < a + Z.of_nat n.
Proof.
  unfold upto. rewrite in_map_iff. split.
  - intros (k & <- & Hk). apply in_seq in Hk. lia.
  - intros H. exists (Z.to_nat (i - a)). split; [lia | apply in_seq; lia].
Qed.

Lemma range_In a b i : In i (range a b) <-> a <= i <= b.
Proof. unfold range. rewrite upto_In. lia. Qed.

Lemma get_upto lines : forall n a,
  0 <= a -> (Z.to_nat a + n <= length lines)%nat ->
  List.map (get lines) (upto a n) = firstn n (skipn (Z.to_nat a) lines).
Proof.
  induction n as [|n IH]; intros a Ha Hn; [reflexivity |].
  rewrite upto_S. simpl List.map. rewrite IH by lia.
  replace (Z.to_nat (a + 1)) with (S (Z.to_nat a)) by lia.
  unfold get.
  assert (Hlt : (Z.to_nat a < length lines)%nat) by lia.
  revert Hlt. generalize (Z.to_nat a). clear. intros k.
  revert k. induction lines as [|l lines IHl]; intros k Hk; simpl in Hk; [lia |].
  destruct k as [|k]; [reflexivity |].
  simpl. apply IHl. lia.
Qed.

(** The section body: the lines [startLine .. endLine]. *)
Definition body (lines : list (list N)) (a b : Z) : list (list N) :=
  firstn (Z.to_nat (b - a + 1)) (skipn (Z.to_nat a) lines).

Definition before (lines : list (list N)) (a : Z) : list (list N) :=
  firstn (Z.to_nat a) lines.

Definition behind (lines : list (list N)) (b : Z) : list (list N) :=
  skipn (Z.to_nat (b + 1)) lines.

Lemma lines_split lines a b :
  0 <= a -> a <= b + 1 -> b < Z.of_nat (length lines) ->
  lines = before lines a ++ body lines a b ++ behind lines b.
Proof.
  intros Ha Hab Hb. unfold before, body, behind.
  rewrite <- (firstn_skipn (Z.to_nat a) lines) at 1. f_equal.
  rewrite <- (firstn_skipn (Z.to_nat (b - a + 1)) (skipn (Z.to_nat a) lines)) at 1.
  f_equal. rewrite skipn_skipn. f_equal. lia.
Qed.

Lemma body_length lines a b :
  0 <= a -> a <= b + 1 -> b < Z.of_nat (length lines) ->
  length (body lines a b) = Z.to_nat (b - a + 1).
Proof.
  intros Ha Hab Hb. unfold body. rewrite length_firstn, length_skipn. lia.
Qed.

Lemma before_length lines a :
  0 <= a -> a <= Z.of_nat (length lines) -> length (before lines a) = Z.to_nat a.
Proof. intros Ha Hb. unfold before. rewrite length_firstn. lia. Qed.

Lemma body_get lines a b :
  0 <= a -> a <= b + 1 -> b < Z.of_nat (length lines) ->
  List.map (get lines) (range a b) = body lines a b.
Proof. intros Ha Hab Hb. unfold range, body. apply get_upto; lia. Qed.

(** The scan, as two filters over the indices of the section. *)
Definition mkEntry (h : Host) (lines : list (list N)) (i : Z) : TimestampedEntry :=
  {| line := get lines i;
     timestamp := parseTimestamp h (get lines i);
     originalIndex := i |}.

Definition isRowAt (h : Host) (lines : list (list N)) (i : Z) : bool :=
  isTimestampRow h (get lines i).

Lemma scanSection_eq h lines a b :
  scanSection h lines a b =
  (List.map (mkEntry h lines) (filter (isRowAt h lines) (range a b)),
   List.map (get lines) (filter (fun i => negb (isRowAt h lines i)) (range a b))).
Proof.
  unfold scanSection.
  enough (G : forall idx es ns,
    fold_left
      (fun '(timestampedEntries, nonTimestampedLines) i =>
         let line := get lines i in
         let timestamp := parseTimestamp h line in
         if isTimestampRow h line then
           (timestampedEntries ++
              [{| line := line; timestamp := timestamp; originalIndex := i |}],
            nonTimestampedLines)
         else (timestampedEntries, nonTimestampedLines ++ [line]))
      idx (es, ns)
    = (es ++ List.map (mkEntry h lines) (filter (isRowAt h lines) idx),
       ns ++ List.map (get lines) (filter (fun i => negb (isRowAt h lines i)) idx)))
    by (rewrite G; reflexivity).
  induction idx as [|i idx IH]; intros es ns; simpl.
  - rewrite !app_nil_r. reflexivity.
  - change (isTimestampRow h (get lines i)) with (isRowAt h lines i).
    destruct (isRowAt h lines i); simpl; rewrite IH, <- app_assoc; reflexivity.
Qed.

(** Writing into the middle of an array. *)
Lemma set_at_middle (P old Q : list (list N)) (o x : list N) (i : Z) :
  i = Z.of_nat (length P) ->
  set_at (P ++ o :: old ++ Q) i x = (P ++ [x]) ++ old ++ Q.
Proof.
  intros ->. unfold set_at. rewrite Nat2Z.id.
  induction P as [|p P IH]; simpl; [reflexivity | f_equal; exact IH].
Qed.

(** The clearing loop and the final filling loop. *)
Lemma fill_loop : forall (n : nat) (P old Q : list (list N)) (a : Z),
  a = Z.of_nat (length P) -> length old = n ->
  fold_left (fun nl i => set_at nl i []) (upto a n) (P ++ old ++ Q)
  = P ++ repeat [] n ++ Q.
Proof.
  induction n as [|n IH]; intros P old Q a Ha Hn.
  - destruct old; [reflexivity | discriminate].
  - destruct old as [|o old]; [discriminate |].
    rewrite upto_S. cbn [fold_left]. rewrite <- app_comm_cons.
    rewrite (set_at_middle P old Q o [] a Ha).
    rewrite (IH (P ++ [[]]) old Q (a + 1)).
    + rewrite <- app_assoc. reflexivity.
    + rewrite length_app. simpl. lia.
    + simpl in Hn. lia.
Qed.

(** The two [forEach] loops: the kept values are written one after the
    other from [insertIndex] on. *)
Section WriteLoop.
Context {X : Type}.
Variable endLine : Z.
Variable keep : X -> bool.
Variable val : X -> list N.

Definition write_step : list (list N) * Z -> X -> list (list N) * Z :=
  fun '(nl, ii) x =>
    if (ii <=? endLine) && keep x then (set_at nl ii (val x), ii + 1) else (nl, ii).

Lemma write_loop : forall (xs : list X) (P old Q : list (list N)) (ii : Z),
  ii = Z.of_nat (length P) ->
  endLine = Z.of_nat (length P) + Z.of_nat (length old) - 1 ->
  (length (filter keep xs) <= length old)%nat ->
  fold_left write_step xs (P ++ old ++ Q, ii)
  = (P ++ List.map val (filter keep xs) ++ skipn (length (filter keep xs)) old ++ Q,
     ii + Z.of_nat (length (filter keep xs))).
Proof.
  induction xs as [|x xs IH]; intros P old Q ii Hi He Hlen.
  - simpl. f_equal. lia.
  - cbn [fold_left filter] in *. unfold write_step at 2.
    destruct (keep x) eqn:Hk.
    + destruct old as [|o old]; [simpl in Hlen; lia |].
      assert (Hle : (ii <=? endLine) = true).
      { apply Z.leb_le. simpl length in He. lia. }
      rewrite Hle. cbn [andb]. rewrite <- app_comm_cons.
      rewrite (set_at_middle P old Q o (val x) ii Hi).
      rewrite (IH (P ++ [val x]) old Q (ii + 1)).
      * simpl. rewrite <- app_assoc. simpl. f_equal. lia.
      * rewrite length_app. simpl. lia.
      * rewrite length_app. simpl length in *. lia.
      * simpl in Hlen. lia.
    + rewrite andb_false_r. apply IH; assumption.
Qed.
End WriteLoop.

Lemma fold_left_ext {S X} (f g : S -> X -> S) :
  (forall s x, f s x = g s x) ->
  forall xs s, fold_left f xs s = fold_left g xs s.
Proof.
  intros H. induction xs as [|x xs IH]; intros s; simpl; [reflexivity |].
  rewrite H. apply IH.
Qed.

Lemma filter_true {A} (l : list A) : filter (fun _ => true) l = l.
Proof. induction l; simpl; congruence. Qed.

Lemma skipn_repeat {A} (x : A) n k : skipn k (repeat x n) = repeat x (n - k).
Proof.
  revert k. induction n as [|n IH]; intros [|k]; simpl; auto.
Qed.

Definition keptLines (nonTimestampedLines : list (list N)) : list (list N) :=
  filter (fun l => negb (blank l)) nonTimestampedLines.

(** The rebuilt array: what precedes the section, the sorted entries, the
    other lines that are not blank, empty lines, what follows the section. *)
Lemma rebuild_eq lines a b sortedEntries nonTimestampedLines :
  0 <= a -> a <= b + 1 -> b < Z.of_nat (length lines) ->
  (length sortedEntries + length (keptLines nonTimestampedLines)
   <= Z.to_nat (b - a + 1))%nat ->
  rebuild lines a b sortedEntries nonTimestampedLines =
  before lines a
  ++ (List.map line sortedEntries ++ keptLines nonTimestampedLines
      ++ repeat [] (Z.to_nat (b - a + 1) - length sortedEntries
                    - length (keptLines nonTimestampedLines)))
  ++ behind lines b.
Proof.
  intros Ha Hab Hb Hfit. unfold rebuild.
  set (n := Z.to_nat (b - a + 1)) in *.
  set (P := before lines a). set (Q := behind lines b).
  assert (HP : a = Z.of_nat (length P)) by (unfold P; rewrite before_length; lia).
  rewrite (lines_split lines a b Ha Hab Hb) at 1. fold P Q.
  unfold range at 1. fold n.
  rewrite (fill_loop n P (body lines a b) Q a HP (body_length lines a b Ha Hab Hb)).
  (* the sorted entries *)
  rewrite (fold_left_ext
             (fun '(nl, ii) entry =>
                if ii <=? b then (set_at nl ii (line entry), ii + 1) else (nl, ii))
             (write_step b (fun _ => true) line)).
  2:{ intros [nl ii] x. unfold write_step. rewrite andb_true_r. reflexivity. }
  rewrite (write_loop b (fun _ => true) line sortedEntries P (repeat [] n) Q a HP).
  2:{ rewrite repeat_length. unfold n. lia. }
  2:{ rewrite filter_true, repeat_length. lia. }
  rewrite filter_true, skipn_repeat.
  (* the other lines *)
  rewrite (fold_left_ext
             (fun '(nl, ii) line =>
                if (ii <=? b) && negb (str_eqb (trim line) [])
                then (set_at nl ii line, ii + 1) else (nl, ii))
             (write_step b (fun l => negb (blank l)) (fun l => l))).
  2:{ intros [nl ii] x. reflexivity. }
  rewrite app_assoc.
  rewrite (write_loop b (fun l => negb (blank l)) (fun l => l) nonTimestampedLines
             (P ++ List.map line sortedEntries)
             (repeat [] (n - length sortedEntries)) Q).
  2:{ rewrite length_app, length_map. lia. }
  2:{ rewrite length_app, length_map, repeat_length. unfold n. lia. }
  2:{ rewrite repeat_length. fold (keptLines nonTimestampedLines). lia. }
  fold (keptLines nonTimestampedLines). rewrite map_id, skipn_repeat.
  (* the rest of the section *)
  unfold range.
  replace (Z.to_nat (b - (a + Z.of_nat (length sortedEntries)
                          + Z.of_nat (length (keptLines nonTimestampedLines))) + 1))
    with (n - length sortedEntries - length (keptLines nonTimestampedLines))%nat
    by (unfold n; lia).
  rewrite app_assoc.
  rewrite (fill_loop _ _ (repeat [] (n - length sortedEntries
                                     - length (keptLines nonTimestampedLines))) Q).
  - rewrite <- !app_assoc. reflexivity.
  - rewrite !length_app, length_map. lia.
  - apply repeat_length.
Qed.

End LoopFacts.
Import LoopFacts.
(* ================================================================= *)
(** ** Headings and section boundaries *)

Module HeadingFacts.
Local Open Scope Z_scope.

Lemma hash_not_space c : isHash c = true -> isSpace c = false.
Proof. unfold isHash. intros H. apply N.eqb_eq in H. subst c. reflexivity. Qed.

(** The number of leading [#] of a line. *)
Definition hashes (l : list N) : nat := prefix_len isHash l.

(** [getHeadingLevel]: the number of leading [#], when it is 1 to 6 and
    whitespace follows; otherwise 0. *)
Lemma getHeadingLevel_eq l :
  getHeadingLevel l =
  if (1 <=? hashes l)%nat && (hashes l <=? 6)%nat
     && (1 <=? prefix_len isSpace (after isHash l))%nat
  then Z.of_nat (hashes l) else 0.
Proof.
  unfold getHeadingLevel, match_start, level_re, plus, between. cbn [seqs rmatch].
  rewrite rep_commit.
  2:{ intros c t Hc. apply rep_short. simpl. rewrite (hash_not_space c Hc). lia. }
  fold (hashes l). cbn [le_hi]. fold (after isHash l).
  destruct ((1 <=? hashes l)%nat && (hashes l <=? 6)%nat); [|reflexivity].
  cbn [andb].
  destruct (Nat.leb_spec 1 (prefix_len isSpace (after isHash l))) as [Hs|Hs].
  - rewrite rep_greedy; [|assumption | discriminate].
    unfold accept. cbn [nth app].
    change (skipn (hashes l) l) with (after isHash l). rewrite taken_length.
    rewrite firstn_length_le; [reflexivity | apply prefix_len_le].
  - rewrite rep_short by assumption. reflexivity.
Qed.

Lemma getHeadingLevel_range l : 0 <= getHeadingLevel l <= 6.
Proof.
  rewrite getHeadingLevel_eq.
  destruct (_ && _ && _) eqn:E; [|lia].
  apply andb_true_iff in E. destruct E as [E _].
  apply andb_true_iff in E. destruct E as [E1 E2].
  apply Nat.leb_le in E1, E2. lia.
Qed.

(** A line accepted by the heading pattern of the discovery: 1 to 6
    [#], whitespace, and a text that is not empty up to the end of the
    line. *)
Definition HeadingShape (l : list N) (level : nat) (text : list N) : Prop :=
  exists ws,
    l = repeat 35%N level ++ ws ++ text
    /\ (1 <= level <= 6)%nat /\ hashes l = level
    /\ ws <> [] /\ all isSpace ws
    /\ text <> [] /\ all isDot text.

Lemma all_hash_repeat s : all isHash s -> s = repeat 35%N (length s).
Proof.
  intros H. induction H as [|c s Hc _ IH]; simpl; [reflexivity |].
  unfold isHash in Hc. apply N.eqb_eq in Hc. subst c. f_equal. exact IH.
Qed.

Lemma firstn_in_class p n s : (n <= prefix_len p s)%nat -> all p (firstn n s).
Proof.
  revert s. induction n as [|n IH]; intros s Hn; [constructor |].
  destruct s as [|c s]; simpl in *; [lia |].
  destruct (p c) eqn:E; [|lia]. constructor; [assumption | apply IH; lia].
Qed.

Lemma heading_re_shape l m :
  match_start heading_re l = Some m ->
  HeadingShape l (length (nth 1 m [])) (nth 2 m []).
Proof.
  unfold match_start, heading_re, plus, between. cbn [seqs rmatch].
  rewrite rep_commit.
  2:{ intros c t Hc. apply rep_short. simpl. rewrite (hash_not_space c Hc). lia. }
  fold (hashes l). cbn [le_hi].
  destruct ((1 <=? hashes l)%nat && (hashes l <=? 6)%nat) eqn:Hn; [|discriminate].
  apply andb_true_iff in Hn. destruct Hn as [Hn1 Hn6].
  apply Nat.leb_le in Hn1, Hn6.
  match goal with
  | |- context [rep isSpace 1 None ?s0 ?k0] =>
      destruct (rep isSpace 1 None s0 k0) as [[rest caps]|] eqn:E
  end; [|discriminate].
  intros H; inversion H; subst m; clear H.
  apply rep_sound in E. destruct E as (n & Hn & _ & Hnp & E).
  apply rep_sound in E. destruct E as (k & Hk & _ & Hkp & E).
  change (skipn (hashes l) l) with (after isHash l) in *.
  rewrite taken_length in E. fold (hashes l) in E.
  set (r1 := after isHash l) in *.
  set (r2 := skipn n r1) in *.
  destruct (skipn k r2) as [|c t] eqn:Eend; [|discriminate].
  unfold accept in E. inversion E; subst rest caps; clear E.
  cbn [nth app].
  assert (Hh : length (firstn (hashes l) l) = hashes l)
    by (apply firstn_length_le, prefix_len_le).
  rewrite Hh.
  assert (Hr2 : r2 = firstn k r2).
  { rewrite <- (firstn_skipn k r2) at 1. rewrite Eend. apply app_nil_r. }
  rewrite Nat.sub_0_r, firstn_all.
  exists (firstn n r1).
  split.
  { rewrite (after_split isHash l) at 1. fold r1. f_equal.
    - fold (hashes l). rewrite <- Hh at 2. apply all_hash_repeat.
      apply prefix_len_all.
    - unfold r2. symmetry. apply firstn_skipn. }
  split; [lia |]. split; [reflexivity |].
  assert (Hlen : (n <= length r1)%nat).
  { pose proof (prefix_len_le isSpace r1). lia. }
  split; [apply nonempty_length; rewrite firstn_length_le; lia |].
  split; [apply firstn_in_class; assumption |].
  split.
  - apply nonempty_length. rewrite Hr2, firstn_length_le; [lia |].
    pose proof (prefix_len_le isDot r2). lia.
  - rewrite Hr2. apply firstn_in_class. assumption.
Qed.

(** On a line of that shape both patterns see the same level. *)
Lemma heading_level l level text :
  HeadingShape l level text -> getHeadingLevel l = Z.of_nat level.
Proof.
  intros (ws & El & Hlv & Hh & Hne & Hws & _).
  rewrite getHeadingLevel_eq, Hh.
  assert (Ea : after isHash l = ws ++ text).
  { unfold after. fold (hashes l). rewrite Hh. rewrite El at 1.
    rewrite <- (repeat_length 35%N level) at 1. apply skipn_length_app. }
  rewrite Ea. pose proof (prefix_len_ge isSpace ws text Hws) as Hge.
  apply nonempty_length in Hne.
  destruct (Nat.leb_spec 1 level), (Nat.leb_spec level 6); try lia.
  destruct (Nat.leb_spec 1 (prefix_len isSpace (ws ++ text))); [reflexivity | lia].
Qed.

(** The headings offered for choice are lines of the document that the
    heading pattern accepts. *)
Lemma headingsOf_In lines s :
  In s (headingsOf lines) ->
  exists i l m,
    nth_error lines i = Some l /\ sline s = Z.of_nat i
    /\ match_start heading_re l = Some m
    /\ heading s = concat (repeat (lit "  ") (length (nth 1 m []) - 1)) ++ nth 2 m [].
Proof.
  unfold headingsOf.
  enough (G : forall ls (a : nat) acc,
    In s (fold_left
            (fun sections '(index, line) =>
               match match_start heading_re line with
               | Some headingMatch =>
                   let level := length (nth 1 headingMatch []) in
                   let title := nth 2 headingMatch [] in
                   sections ++ [{| heading := concat (repeat (lit "  ") (level - 1)) ++ title;
                                   sline := index |}]
               | None => sections
               end)
            (combine (upto (Z.of_nat a) (length ls)) ls) acc) ->
    In s acc \/
    exists i l m,
      nth_error ls i = Some l /\ sline s = Z.of_nat (a + i)
      /\ match_start heading_re l = Some m
      /\ heading s = concat (repeat (lit "  ") (length (nth 1 m []) - 1)) ++ nth 2 m []).
  { intros H. apply (G lines O []) in H. destruct H as [[]|H]. exact H. }
  induction ls as [|l ls IH]; intros a acc H.
  - left. exact H.
  - cbn [length] in H. rewrite upto_S in H. cbn [combine fold_left] in H.
    replace (Z.of_nat a + 1) with (Z.of_nat (S a)) in H by lia.
    apply IH in H. destruct H as [H|(i & l' & m & Hn & Hs & Hm & Hh)].
    + destruct (match_start heading_re l) as [m|] eqn:Em; [|left; exact H].
      apply in_app_or in H. destruct H as [H|[<-|[]]]; [left; exact H |].
      right. exists O, l, m. simpl. repeat split; auto; try lia; f_equal; lia.
    + right. exists (S i), l', m. simpl. repeat split; auto. rewrite Hs. lia.
Qed.

(** The first index of a counting loop that passes a test. *)
Lemma find_upto (f : Z -> bool) : forall n a i,
  find f (upto a n) = Some i ->
  a <= i < a + Z.of_nat n /\ f i = true /\ forall j, a <= j < i -> f j = false.
Proof.
  induction n as [|n IH]; intros a i H; [discriminate |].
  rewrite upto_S in H. simpl in H. destruct (f a) eqn:Ea.
  - inversion H; subst i. repeat split; try lia. assumption.
  - apply IH in H. destruct H as (Hr & Hf & Hj). repeat split; try lia; [assumption |].
    intros j Hjr. destruct (Z.eq_dec j a) as [->|Hne]; [assumption | apply Hj; lia].
Qed.

Lemma find_upto_none (f : Z -> bool) n a :
  find f (upto a n) = None -> forall j, a <= j < a + Z.of_nat n -> f j = false.
Proof.
  intros H j Hj. apply (find_none f _ H). apply upto_In. exact Hj.
Qed.

(** A line that closes a section of level [L]. *)
Definition closes (lines : list (list N)) (L : Z) (i : Z) : bool :=
  let headingLevel := getHeadingLevel (get lines i) in
  (headingLevel >? 0) && (headingLevel <=? L).

Lemma get_opt_Some lines i l :
  get_opt lines i = Some l ->
  0 <= i < Z.of_nat (length lines) /\ get lines i = l.
Proof.
  unfold get_opt, get. destruct (Z.ltb_spec i 0) as [|Hi]; [discriminate |].
  intros H. split.
  - split; [assumption |]. assert (Hn : nth_error lines (Z.to_nat i) <> None) by congruence.
    apply nth_error_Some in Hn. lia.
  - apply nth_error_nth. exact H.
Qed.

Lemma sectionBounds_range lines section a b :
  sectionBounds lines section = Some (a, b) ->
  0 <= a /\ a <= b + 1 /\ b < Z.of_nat (length lines).
Proof.
  unfold sectionBounds. destruct (sline section =? -1).
  - intros H; inversion H; subst. lia.
  - destruct (get_opt lines (sline section)) as [hl|] eqn:E; [|discriminate].
    apply get_opt_Some in E. destruct E as [Hr _].
    destruct (find _ _) as [i|] eqn:Ef; intros H; inversion H; subst; clear H.
    + apply find_upto in Ef. lia.
    + lia.
Qed.

End HeadingFacts.
Import HeadingFacts.
(* ================================================================= *)
(** ** What the sort command does *)

Module SorterFacts.
Local Open Scope Z_scope.

Lemma filter_split_length {A} (p : A -> bool) l :
  (length (filter p l) + length (filter (fun x => negb (p x)) l))%nat = length l.
Proof. induction l as [|x l IH]; simpl; [reflexivity |]. destruct (p x); simpl; lia. Qed.

Lemma filter_split_perm {A} (p : A -> bool) l :
  Permutation l (filter p l ++ filter (fun x => negb (p x)) l).
Proof.
  induction l as [|x l IH]; simpl; [constructor |].
  destruct (p x); simpl; [constructor; exact IH |].
  apply Permutation_cons_app. exact IH.
Qed.

Lemma perm_filter {A} (p : A -> bool) l l' :
  Permutation l l' -> Permutation (filter p l) (filter p l').
Proof.
  intros H. induction H as [|x l l' _ IH|x y l|l l' l'' _ IH1 _ IH2]; simpl.
  - constructor.
  - destruct (p x); [constructor |]; exact IH.
  - destruct (p x), (p y); try reflexivity. apply perm_swap.
  - etransitivity; eassumption.
Qed.

Lemma filter_le_length {A} (p : A -> bool) l : (length (filter p l) <= length l)%nat.
Proof. induction l as [|x l IH]; simpl; [lia |]. destruct (p x); simpl; lia. Qed.

(** The indices of the timestamp rows of the section, and of its other
    lines, in encounter order. *)
Definition rowsOf (h : Host) (lines : list (list N)) (a b : Z) : list Z :=
  filter (isRowAt h lines) (range a b).

Definition othersOf (h : Host) (lines : list (list N)) (a b : Z) : list Z :=
  filter (fun i => negb (isRowAt h lines i)) (range a b).

Definition entriesOf (h : Host) (lines : list (list N)) (a b : Z)
  : list TimestampedEntry :=
  List.map (mkEntry h lines) (rowsOf h lines a b).

Definition otherLines (h : Host) (lines : list (list N)) (a b : Z) : list (list N) :=
  List.map (get lines) (othersOf h lines a b).

(** The section after the sort. *)
Definition newBody (h : Host) (lines : list (list N)) (a b : Z) : list (list N) :=
  let sorted := sortTimestampedEntries (entriesOf h lines a b) in
  let kept := keptLines (otherLines h lines a b) in
  List.map line sorted ++ kept
  ++ repeat [] (Z.to_nat (b - a + 1) - length sorted - length kept).

Definition nothingNotice : list N :=
  lit "No timestamped entries found in the selected section".

Definition sortedNotice (n : nat) (heading : list N) : list N :=
  lit "Sorted " ++ Number_toString (Z.of_nat n)
  ++ lit " timestamped entries in " ++ [34%N] ++ heading ++ [34%N].

Lemma sorted_length es : length (sortTimestampedEntries es) = length es.
Proof. symmetry. apply Permutation_length, sort_perm. Qed.

Lemma section_fits h lines a b :
  (length (sortTimestampedEntries (entriesOf h lines a b))
   + length (keptLines (otherLines h lines a b)) <= Z.to_nat (b - a + 1))%nat.
Proof.
  rewrite sorted_length. unfold entriesOf, otherLines, keptLines, rowsOf, othersOf.
  pose proof (filter_le_length (fun l => negb (blank l))
                (List.map (get lines)
                   (filter (fun i => negb (isRowAt h lines i)) (range a b)))) as H1.
  pose proof (filter_split_length (isRowAt h lines) (range a b)) as H2.
  rewrite !length_map in *. unfold range in H2 at 3. rewrite upto_length in H2. lia.
Qed.

Lemma sortTimestampsInSection_eq h content section :
  sortTimestampsInSection h content section =
  match sectionBounds (split_lines content) section with
  | None => None
  | Some (a, b) =>
      let lines := split_lines content in
      if (length (entriesOf h lines a b) =? 0)%nat
      then Some [Notice nothingNotice]
      else
        Some [Modify (join_lines (before lines a ++ newBody h lines a b
                                  ++ behind lines b));
              Notice (sortedNotice (length (entriesOf h lines a b))
                        (heading section))]
  end.
Proof.
  unfold sortTimestampsInSection.
  destruct (sectionBounds (split_lines content) section) as [[a b]|] eqn:Eb;
    [|reflexivity].
  apply sectionBounds_range in Eb. destruct Eb as (Ha & Hab & Hb).
  rewrite scanSection_eq. fold (rowsOf h (split_lines content) a b).
  fold (othersOf h (split_lines content) a b).
  fold (entriesOf h (split_lines content) a b).
  fold (otherLines h (split_lines content) a b).
  cbv zeta.
  destruct (length (entriesOf h (split_lines content) a b) =? 0)%nat; [reflexivity |].
  rewrite rebuild_eq; auto using section_fits.
  unfold newBody, sortedNotice. rewrite !sorted_length. reflexivity.
Qed.

Lemma get_noLF lines i : Forall noLF lines -> noLF (get lines i).
Proof.
  intros H. unfold get. destruct (nth_in_or_default (Z.to_nat i) lines []) as [Hin| ->].
  - rewrite Forall_forall in H. apply H. exact Hin.
  - intros [].
Qed.

Lemma newBody_length h lines a b : length (newBody h lines a b) = Z.to_nat (b - a + 1).
Proof.
  unfold newBody. pose proof (section_fits h lines a b).
  rewrite !length_app, length_map, repeat_length. lia.
Qed.

Lemma entry_lines h lines a b :
  List.map line (entriesOf h lines a b) = List.map (get lines) (rowsOf h lines a b).
Proof. unfold entriesOf. rewrite map_map. reflexivity. Qed.

(** Every line of the new section is a line of the old one, or empty. *)
Lemma newBody_In h lines a b l :
  0 <= a -> a <= b + 1 -> b < Z.of_nat (length lines) ->
  In l (newBody h lines a b) -> In l (body lines a b) \/ l = [].
Proof.
  intros Ha Hab Hb. unfold newBody. rewrite !in_app_iff.
  rewrite <- (body_get lines a b Ha Hab Hb).
  intros [H|[H|H]].
  - left. apply (Permutation_in l (Permutation_map line
                   (Permutation_sym (sort_perm compareEntries _)))) in H.
    rewrite entry_lines in H. unfold rowsOf in H.
    apply in_map_iff in H. destruct H as (i & <- & Hi). apply filter_In in Hi.
    apply in_map. tauto.
  - left. unfold keptLines, otherLines, othersOf in H. apply filter_In in H.
    destruct H as [H _]. apply in_map_iff in H. destruct H as (i & <- & Hi).
    apply filter_In in Hi. apply in_map. tauto.
  - right. apply repeat_spec in H. exact H.
Qed.

Lemma newBody_noLF h lines a b : Forall noLF lines -> Forall noLF (newBody h lines a b).
Proof.
  intros H. unfold newBody. rewrite !Forall_app. repeat split.
  - apply (Permutation_Forall (Permutation_map line (sort_perm compareEntries _))).
    rewrite entry_lines. apply Forall_map. apply Forall_forall. intros i _.
    apply get_noLF. exact H.
  - unfold keptLines, otherLines. apply Forall_forall. intros l Hl.
    apply filter_In in Hl. destruct Hl as [Hl _]. apply in_map_iff in Hl.
    destruct Hl as (i & <- & _). apply get_noLF. exact H.
  - apply Forall_forall. intros l Hl. apply repeat_spec in Hl. subst l. intros [].
Qed.

Definition notBlank (l : list N) : bool := negb (blank l).

(** The lines of the section that are not blank are the same before and
    after, as a multiset. *)
Lemma newBody_perm h lines a b :
  0 <= a -> a <= b + 1 -> b < Z.of_nat (length lines) ->
  Permutation (filter notBlank (newBody h lines a b))
              (filter notBlank (body lines a b)).
Proof.
  intros Ha Hab Hb. unfold newBody. rewrite !filter_app.
  assert (E3 : forall n, filter notBlank (repeat (@nil N) n) = []).
  { induction n as [|n IH]; simpl; [reflexivity | exact IH]. }
  rewrite E3, app_nil_r.
  assert (E2 : filter notBlank (keptLines (otherLines h lines a b))
               = filter notBlank (otherLines h lines a b)).
  { unfold keptLines. fold notBlank.
    induction (otherLines h lines a b) as [|l ls IH]; simpl; [reflexivity |].
    destruct (notBlank l) eqn:E; simpl; rewrite ?E, IH; reflexivity. }
  rewrite E2.
  rewrite <- (body_get lines a b Ha Hab Hb).
  etransitivity;
    [| apply perm_filter, Permutation_map, Permutation_sym,
         (filter_split_perm (isRowAt h lines) (range a b))].
  rewrite map_app, filter_app.
  apply Permutation_app; [|reflexivity].
  fold (rowsOf h lines a b). rewrite <- entry_lines.
  apply perm_filter. apply Permutation_map. apply Permutation_sym, sort_perm.
Qed.

End SorterFacts.
Import SorterFacts.
(* ================================================================= *)
(** ** Calendar arithmetic *)

Module DateFacts.
Local Open Scope Z_scope.

Lemma DaysInYear_cases y : DaysInYear y = 365 \/ DaysInYear y = 366.
Proof.
  unfold DaysInYear.
  destruct (y mod 4 =? 0), (y mod 100 =? 0), (y mod 400 =? 0); simpl; auto.
Qed.

Lemma DayFromYear_step y : DayFromYear (y + 1) = DayFromYear y + DaysInYear y.
Proof.
  unfold DayFromYear, DaysInYear.
  destruct (Z.eqb_spec (y mod 4) 0), (Z.eqb_spec (y mod 100) 0),
    (Z.eqb_spec (y mod 400) 0); simpl negb; cbv iota;
    Z.div_mod_to_equations; lia.
Qed.

Lemma DayFromYear_mono y1 y2 : y1 <= y2 -> DayFromYear y1 <= DayFromYear y2.
Proof.
  intros H. unfold DayFromYear. Z.div_mod_to_equations. lia.
Qed.

Lemma YearFromDay_spec d :
  DayFromYear (YearFromDay d) <= d < DayFromYear (YearFromDay d + 1).
Proof.
  unfold YearFromDay. cbv zeta.
  destruct (Z.ltb_spec d (DayFromYear (1970 + 400 * d / 146097))) as [H1|H1].
  - split; [|replace (1970 + 400 * d / 146097 - 1 + 1) with (1970 + 400 * d / 146097) by lia;
             exact H1].
    clear H1. unfold DayFromYear. Z.div_mod_to_equations. lia.
  - destruct (Z.leb_spec (DayFromYear (1970 + 400 * d / 146097 + 1)) d) as [H2|H2].
    + split; [exact H2 |].
      clear H1 H2. unfold DayFromYear. Z.div_mod_to_equations. lia.
    + split; assumption.
Qed.

Lemma YearFromDay_unique d y :
  DayFromYear y <= d < DayFromYear (y + 1) -> YearFromDay d = y.
Proof.
  intros H. pose proof (YearFromDay_spec d) as S.
  destruct (Z.lt_trichotomy (YearFromDay d) y) as [Hlt|[E|Hgt]]; [|exact E|].
  - pose proof (DayFromYear_mono (YearFromDay d + 1) y ltac:(lia)). lia.
  - pose proof (DayFromYear_mono (y + 1) (YearFromDay d) ltac:(lia)). lia.
Qed.


Lemma Day_MakeDate day tm : 0 <= tm < msPerDay -> Day (MakeDate day tm) = day.
Proof.
  intros H. unfold Day, MakeDate, msPerDay in *. Z.div_mod_to_equations. lia.
Qed.

(** A calendar date that exists: month 1..12, day within the month. *)
Definition validDate (y mo d : Z) : Prop :=
  1 <= mo <= 12 /\ 1 <= d <= DaysInMonth y mo.

Definition validTime (hh mi : Z) : Prop := 0 <= hh <= 23 /\ 0 <= mi <= 59.

Lemma month_cases mo : 1 <= mo <= 12 ->
  mo = 1 \/ mo = 2 \/ mo = 3 \/ mo = 4 \/ mo = 5 \/ mo = 6 \/ mo = 7 \/ mo = 8
  \/ mo = 9 \/ mo = 10 \/ mo = 11 \/ mo = 12.
Proof. lia. Qed.

(** Reduce the month tables at a known month without unfolding the
    arithmetic on the other fields. *)
Ltac known_month :=
  repeat match goal with
         | |- context [Z.pos ?p - 1] =>
             let v := eval vm_compute in (Z.pos p - 1) in
             change (Z.pos p - 1) with v
         | H : context [Z.pos ?p - 1] |- _ =>
             let v := eval vm_compute in (Z.pos p - 1) in
             change (Z.pos p - 1) with v in H
         end;
  cbv [monthStart DaysInMonth] in *; cbv beta iota in *.

Ltac decide_ltb :=
  repeat match goal with
         | |- context [?a <? ?b] =>
             first [ replace (a <? b) with true by (symmetry; apply Z.ltb_lt; lia)
                   | replace (a <? b) with false by (symmetry; apply Z.ltb_ge; lia) ]
         end.

Lemma MakeDay_in_year y mo d :
  validDate y mo d ->
  MakeDay y (mo - 1) d = DayFromYear y + monthStart (mo - 1) (leapDays y) + d - 1
  /\ 0 <= monthStart (mo - 1) (leapDays y) + d - 1 < DaysInYear y.
Proof.
  intros [Hm Hd]. unfold MakeDay. cbv zeta.
  replace ((mo - 1) / 12) with 0 by (Z.div_mod_to_equations; lia).
  replace ((mo - 1) mod 12) with (mo - 1) by (Z.div_mod_to_equations; lia).
  replace (y + 0) with y by lia.
  split; [reflexivity |].
  unfold leapDays in *.
  destruct (DaysInYear_cases y) as [E|E]; rewrite E in *;
    destruct (month_cases mo Hm) as [->|[->|[->|[->|[->|[->|[->|[->|[->|[->|[->| ->]]]]]]]]]]];
    known_month; unfold leapDays in *; rewrite ?E in *; lia.
Qed.

(** The date getters give back the fields a time value was made of. *)
Lemma decode_date y mo d tm :
  validDate y mo d -> 0 <= tm < msPerDay ->
  let t := MakeDate (MakeDay y (mo - 1) d) tm in
  YearFromTime t = y /\ MonthFromTime t = mo - 1 /\ DateFromTime t = d.
Proof.
  intros Hv Htm t.
  destruct (MakeDay_in_year y mo d Hv) as [Emd Hr].
  assert (Ed : Day t = MakeDay y (mo - 1) d) by (apply Day_MakeDate; exact Htm).
  assert (Ey : YearFromTime t = y).
  { unfold YearFromTime. rewrite Ed, Emd. apply YearFromDay_unique.
    rewrite DayFromYear_step. lia. }
  assert (Ew : DayWithinYear t = monthStart (mo - 1) (leapDays y) + d - 1).
  { unfold DayWithinYear. rewrite Ey, Ed, Emd. lia. }
  assert (El : InLeapYear t = leapDays y).
  { unfold InLeapYear, leapDays. rewrite Ey.
    destruct (DaysInYear_cases y) as [E|E]; rewrite E; reflexivity. }
  split; [exact Ey |].
  assert (Em : MonthFromTime t = mo - 1).
  { unfold MonthFromTime. cbv zeta. rewrite Ew, El.
    destruct Hv as [Hm Hd]. unfold leapDays in *.
    destruct (DaysInYear_cases y) as [E|E]; rewrite E in *;
      destruct (month_cases mo Hm) as [->|[->|[->|[->|[->|[->|[->|[->|[->|[->|[->| ->]]]]]]]]]]];
      known_month; unfold leapDays in *; rewrite ?E in *; decide_ltb; reflexivity. }
  split; [exact Em |].
  unfold DateFromTime. cbv zeta. rewrite Em, Ew, El.
  destruct Hv as [Hm Hd].
  destruct (month_cases mo Hm) as [->|[->|[->|[->|[->|[->|[->|[->|[->|[->|[->| ->]]]]]]]]]]];
    known_month; lia.
Qed.

Lemma decode_time day hh mi :
  validTime hh mi ->
  let t := MakeDate day (MakeTime hh mi 0 0) in
  0 <= MakeTime hh mi 0 0 < msPerDay
  /\ HourFromTime t = hh /\ MinFromTime t = mi.
Proof.
  intros [Hh Hm] t. unfold t, HourFromTime, MinFromTime, MakeDate, MakeTime,
    msPerDay, msPerHour, msPerMinute, msPerSecond.
  repeat split; try lia; Z.div_mod_to_equations; lia.
Qed.

(** [new Date(y, mo - 1, d, hh, mi)] read back with the local getters,
    when that local time exists on the host (no change of offset hides
    it). *)
Definition localTimeExists (h : Host) (tl : Z) : Prop :=
  LocalTZA h (UTC h tl) true = LocalTZA h tl false.

Lemma Date_local_getters h y mo d hh mi :
  100 <= y -> validDate y mo d -> validTime hh mi ->
  localTimeExists h (MakeDate (MakeDay y (mo - 1) d) (MakeTime hh mi 0 0)) ->
  let t := Date_local h y (mo - 1) d hh mi in
  getFullYear h t = y /\ getMonth h t + 1 = mo /\ getDate h t = d
  /\ getHours h t = hh /\ getMinutes h t = mi.
Proof.
  intros Hy Hd Ht Hex t.
  set (tl := MakeDate (MakeDay y (mo - 1) d) (MakeTime hh mi 0 0)) in *.
  assert (El : LocalTime h t = tl).
  { unfold t, Date_local.
    replace ((0 <=? y) && (y <=? 99)) with false
      by (symmetry; apply andb_false_iff; right; apply Z.leb_gt; lia).
    fold tl. unfold LocalTime. rewrite Hex. unfold UTC. lia. }
  unfold getFullYear, getMonth, getDate, getHours, getMinutes. rewrite El.
  destruct (decode_time (MakeDay y (mo - 1) d) hh mi Ht) as (Hr & Eh & Em).
  destruct (decode_date y mo d (MakeTime hh mi 0 0) Hd Hr) as (E1 & E2 & E3).
  subst tl. rewrite Eh, Em, E1, E2, E3. repeat split; lia.
Qed.

Lemma fixedHost_exists m tl : localTimeExists (fixedHost m) tl.
Proof. reflexivity. Qed.

(** The time values of the strict parser are far inside the range of
    TimeClip, which therefore leaves them as they are. *)
Lemma Date_local_clip h y mo d hh mi :
  0 <= y <= 9999 -> -1 <= mo <= 98 -> 0 <= d <= 99 -> 0 <= hh <= 99 -> 0 <= mi <= 99 ->
  TimeClip (Date_local h y mo d hh mi) = Some (Date_local h y mo d hh mi).
Proof.
  intros Hy Hm Hd Hh Hi. unfold TimeClip.
  enough (H : Z.abs (Date_local h y mo d hh mi) <= 8640000000000000)
    by (apply Z.leb_le in H; rewrite H; reflexivity).
  unfold Date_local, UTC.
  set (yr := if (0 <=? y) && (y <=? 99) then 1900 + y else y).
  assert (Hyr : 100 <= yr <= 9999).
  { unfold yr. destruct (Z.leb_spec 0 y), (Z.leb_spec y 99); cbn [andb]; lia. }
  pose proof (LocalTZA_bound h (MakeDate (MakeDay yr mo d) (MakeTime hh mi 0 0)) false) as Hb.
  assert (Hbound : - 5000000 <= MakeDay yr mo d <= 5000000).
  { unfold MakeDay. cbv zeta.
    assert (Hq : -1 <= mo / 12 <= 8) by (Z.div_mod_to_equations; lia).
    assert (Hms : 0 <= monthStart (mo mod 12) (leapDays (yr + mo / 12)) <= 335).
    { unfold leapDays.
      destruct (DaysInYear_cases (yr + mo / 12)) as [E|E]; rewrite E;
        assert (Hc : 1 <= mo mod 12 + 1 <= 12) by (Z.div_mod_to_equations; lia);
        destruct (month_cases _ Hc) as [E'|[E'|[E'|[E'|[E'|[E'|[E'|[E'|[E'|[E'|[E'|E']]]]]]]]]]];
        replace (mo mod 12) with (mo mod 12 + 1 - 1) by lia; rewrite E';
        known_month; lia. }
    assert (Hdy : -1000000 <= DayFromYear (yr + mo / 12) <= 4000000).
    { unfold DayFromYear. Z.div_mod_to_equations. lia. }
    lia. }
  unfold MakeDate, MakeTime, msPerDay, msPerHour, msPerMinute, msPerSecond in *. lia.
Qed.

End DateFacts.
Import DateFacts.
(* ================================================================= *)
(** ** Digits and numbers *)

Module NumberFacts.
Local Open Scope Z_scope.

Definition digits : list N := [48; 49; 50; 51; 52; 53; 54; 55; 56; 57]%N.

(** All strings of [n] digits. *)
Fixpoint digit_strings (n : nat) : list (list N) :=
  match n with
  | O => [[]]
  | S n' => flat_map (fun c => List.map (cons c) (digit_strings n')) digits
  end.

Lemma digit_In c : isDigit c = true -> In c digits.
Proof.
  unfold isDigit. rewrite andb_true_iff, !N.leb_le. intros [H1 H2].
  assert (H : (c = 48 \/ c = 49 \/ c = 50 \/ c = 51 \/ c = 52 \/ c = 53 \/ c = 54
               \/ c = 55 \/ c = 56 \/ c = 57)%N) by lia.
  simpl. intuition.
Qed.

Lemma digit_strings_In s :
  all isDigit s -> In s (digit_strings (length s)).
Proof.
  intros H. induction H as [|c s Hc _ IH]; [left; reflexivity |].
  cbn [length digit_strings]. apply in_flat_map. exists c. split; [apply digit_In; exact Hc |].
  apply in_map. exact IH.
Qed.

(** A number of four digits without leading zero prints as its digits. *)
Lemma toString_four s :
  all isDigit s -> length s = 4%nat -> 1000 <= parseInt s ->
  Number_toString (parseInt s) = s.
Proof.
  intros Hd Hl Hv.
  assert (Hall : forallb (fun s => implb (1000 <=? parseInt s)
                                     (str_eqb (Number_toString (parseInt s)) s))
                   (digit_strings 4) = true) by (vm_compute; reflexivity).
  rewrite forallb_forall in Hall. specialize (Hall s).
  rewrite <- Hl in Hall. specialize (Hall (digit_strings_In s Hd)).
  apply Z.leb_le in Hv. rewrite Hv in Hall. simpl in Hall.
  apply str_eqb_eq. exact Hall.
Qed.

(** A number of two digits prints, padded, as its digits. *)
Lemma pad_two s :
  all isDigit s -> length s = 2%nat ->
  padStart2 (Number_toString (parseInt s)) = s.
Proof.
  intros Hd Hl.
  assert (Hall : forallb (fun s => str_eqb (padStart2 (Number_toString (parseInt s))) s)
                   (digit_strings 2) = true) by (vm_compute; reflexivity).
  rewrite forallb_forall in Hall. specialize (Hall s).
  rewrite <- Hl in Hall. specialize (Hall (digit_strings_In s Hd)).
  apply str_eqb_eq. exact Hall.
Qed.

Lemma parseInt_two s :
  all isDigit s -> length s = 2%nat -> 0 <= parseInt s <= 99.
Proof.
  intros Hd Hl.
  assert (Hall : forallb (fun s => (0 <=? parseInt s) && (parseInt s <=? 99))
                   (digit_strings 2) = true) by (vm_compute; reflexivity).
  rewrite forallb_forall in Hall. specialize (Hall s).
  rewrite <- Hl in Hall. specialize (Hall (digit_strings_In s Hd)).
  apply andb_true_iff in Hall. rewrite !Z.leb_le in Hall. exact Hall.
Qed.

(** The five fields of a code of twelve digits. *)
Lemma twelve_fields ds :
  all isDigit ds -> length ds = 12%nat ->
  ds = substring 0 4 ds ++ substring 4 6 ds ++ substring 6 8 ds
       ++ substring 8 10 ds ++ substring 10 12 ds
  /\ (all isDigit (substring 0 4 ds) /\ length (substring 0 4 ds) = 4%nat)
  /\ (all isDigit (substring 4 6 ds) /\ length (substring 4 6 ds) = 2%nat)
  /\ (all isDigit (substring 6 8 ds) /\ length (substring 6 8 ds) = 2%nat)
  /\ (all isDigit (substring 8 10 ds) /\ length (substring 8 10 ds) = 2%nat)
  /\ (all isDigit (substring 10 12 ds) /\ length (substring 10 12 ds) = 2%nat).
Proof.
  intros Hd Hl.
  do 12 (destruct ds as [|? ds]; [discriminate |]).
  destruct ds; [|discriminate].
  unfold all in *.
  repeat match goal with
         | H : Forall _ (_ :: _) |- _ => inversion H; subst; clear H
         end.
  cbv [substring firstn skipn Nat.sub app].
  repeat split; repeat constructor; assumption.
Qed.

Lemma parseInt_four s :
  all isDigit s -> length s = 4%nat -> 0 <= parseInt s <= 9999.
Proof.
  intros Hd Hl.
  assert (Hall : forallb (fun s => (0 <=? parseInt s) && (parseInt s <=? 9999))
                   (digit_strings 4) = true) by (vm_compute; reflexivity).
  rewrite forallb_forall in Hall. specialize (Hall s).
  rewrite <- Hl in Hall. specialize (Hall (digit_strings_In s Hd)).
  apply andb_true_iff in Hall. rewrite !Z.leb_le in Hall. exact Hall.
Qed.

(** The three fields of a code of eight digits. *)
Lemma eight_fields ds :
  all isDigit ds -> length ds = 8%nat ->
  ds = substring 0 4 ds ++ substring 4 6 ds ++ substring 6 8 ds
  /\ (all isDigit (substring 0 4 ds) /\ length (substring 0 4 ds) = 4%nat)
  /\ (all isDigit (substring 4 6 ds) /\ length (substring 4 6 ds) = 2%nat)
  /\ (all isDigit (substring 6 8 ds) /\ length (substring 6 8 ds) = 2%nat).
Proof.
  intros Hd Hl.
  do 8 (destruct ds as [|? ds]; [discriminate |]).
  destruct ds; [|discriminate].
  unfold all in *.
  repeat match goal with
         | H : Forall _ (_ :: _) |- _ => inversion H; subst; clear H
         end.
  cbv [substring firstn skipn Nat.sub app].
  repeat split; repeat constructor; assumption.
Qed.

(** Every Date that the strict parser builds is a valid one: its time
    value is inside the range of TimeClip. *)
Lemma parseTimestamp_clip h line t :
  parseTimestamp h line = Some t -> TimeClip t = Some t.
Proof.
  rewrite parseTimestamp_code.
  destruct (strict_code line) as [ds|] eqn:Ec; [|discriminate].
  apply strict_code_iff in Ec. destruct Ec as [Hs Hl].
  destruct Hs as (ws1 & ws2 & ws3 & rest & _ & _ & _ & _ & _ & _ & _ & Hdig).
  destruct Hl as [Hl|Hl]; rewrite Hl; cbn [Nat.eqb]; intros H; inversion H; subst t.
  - destruct (eight_fields ds Hdig Hl) as (_ & [D1 L1] & [D2 L2] & [D3 L3]).
    pose proof (parseInt_four _ D1 L1). pose proof (parseInt_two _ D2 L2).
    pose proof (parseInt_two _ D3 L3).
    unfold decode8. apply Date_local_clip; lia.
  - destruct (twelve_fields ds Hdig Hl)
      as (_ & [D1 L1] & [D2 L2] & [D3 L3] & [D4 L4] & [D5 L5]).
    pose proof (parseInt_four _ D1 L1). pose proof (parseInt_two _ D2 L2).
    pose proof (parseInt_two _ D3 L3). pose proof (parseInt_two _ D4 L4).
    pose proof (parseInt_two _ D5 L5).
    unfold decode12. apply Date_local_clip; lia.
Qed.

End NumberFacts.
Import NumberFacts.

(* ================================================================= *)
(** ** The permalink pattern *)

Module PermalinkFacts.

Fixpoint strip_prefix (p s : list N) : option (list N) :=
  match p, s with
  | [], _ => Some s
  | c :: p', c' :: s' => if char_eqb c c' then strip_prefix p' s' else None
  | _ :: _, [] => None
  end.

Lemma strip_prefix_Some p s r : strip_prefix p s = Some r <-> s = p ++ r.
Proof.
  revert s. induction p as [|c p IH]; intros s; simpl.
  - split; [intros H; inversion H; reflexivity | intros ->; reflexivity].
  - destruct s as [|c' s]; [split; discriminate |].
    unfold char_eqb. destruct (N.eqb_spec c c') as [->|Hne].
    + rewrite IH. split; [intros ->; reflexivity | intros H; inversion H; reflexivity].
    + split; [discriminate | intros H; inversion H; congruence].
Qed.

Lemma rmatch_RLit p : p <> [] -> forall s caps k,
  rmatch (RLit p) s caps k =
  match strip_prefix p s with
  | Some r => k r caps
  | None => None
  end.
Proof.
  induction p as [|c p IH]; intros Hne s caps k; [congruence |].
  destruct p as [|c2 p].
  - simpl. destruct s as [|c' s]; [reflexivity |]. destruct (char_eqb c c'); reflexivity.
  - change (RLit (c :: c2 :: p)) with (RSeq (RChar c) (RLit (c2 :: p))).
    cbn [rmatch]. destruct s as [|c' s]; [reflexivity |]. cbn [strip_prefix].
    destruct (char_eqb c c'); [|reflexivity]. apply IH. discriminate.
Qed.

(** A permalink path: [/r/<sub>/comments/<id>/], with [sub] and [id] not
    empty and without slash. *)
Definition PermalinkPath (path : list N) (rest : list N) (s : list N) : Prop :=
  exists sub id,
    path = lit "/r/" ++ sub ++ lit "/comments/" ++ id ++ [47%N]
    /\ s = path ++ rest
    /\ sub <> [] /\ id <> [] /\ all notSlash sub /\ all notSlash id.

(** The pattern at the start of [s], as a function. *)
Definition permalink_at (s : list N) : option (list N) :=
  match strip_prefix (lit "/r/") s with
  | None => None
  | Some s1 =>
      if (1 <=? prefix_len notSlash s1)%nat then
        match strip_prefix (lit "/comments/") (after notSlash s1) with
        | None => None
        | Some s2 =>
            if (1 <=? prefix_len notSlash s2)%nat then
              match after notSlash s2 with
              | c :: s3 => if char_eqb 47%N c then Some s3 else None
              | [] => None
              end
            else None
        end
      else None
  end.

Lemma notSlash_slash c : notSlash c = true -> char_eqb 47%N c = false.
Proof.
  unfold notSlash, char_eqb. rewrite negb_true_iff, N.eqb_sym. auto.
Qed.

Lemma match_start_permalink s :
  match_start permalink_re s =
  match permalink_at s with
  | Some rest =>
      Some [firstn (length s - length rest) s; firstn (length s - length rest) s]
  | None => None
  end.
Proof.
  unfold match_start, permalink_re, plus. cbn [seqs rmatch].
  rewrite rmatch_RLit by discriminate. unfold permalink_at.
  destruct (strip_prefix (lit "/r/") s) as [s1|]; [|reflexivity].
  rewrite rep_commit.
  2:{ intros c t Hc. rewrite rmatch_RLit by discriminate.
      change (lit "/comments/") with (47%N :: lit "comments/"). cbn [strip_prefix].
      rewrite (notSlash_slash c Hc). reflexivity. }
  cbn [le_hi]. rewrite andb_true_r. fold (after notSlash s1).
  destruct (1 <=? prefix_len notSlash s1)%nat; [|reflexivity].
  rewrite rmatch_RLit by discriminate.
  destruct (strip_prefix (lit "/comments/") (after notSlash s1)) as [s2|]; [|reflexivity].
  rewrite rep_commit.
  2:{ intros c t Hc. rewrite (notSlash_slash c Hc). reflexivity. }
  cbn [le_hi]. rewrite andb_true_r. fold (after notSlash s2).
  destruct (1 <=? prefix_len notSlash s2)%nat; [|reflexivity].
  destruct (after notSlash s2) as [|c s3]; [reflexivity |].
  destruct (char_eqb 47%N c); reflexivity.
Qed.

Lemma permalink_at_shape s rest :
  permalink_at s = Some rest <->
  exists path, PermalinkPath path rest s.
Proof.
  unfold permalink_at. split.
  - destruct (strip_prefix (lit "/r/") s) as [s1|] eqn:E1; [|discriminate].
    apply strip_prefix_Some in E1.
    destruct (Nat.leb_spec 1 (prefix_len notSlash s1)) as [H1|H1]; [|discriminate].
    destruct (strip_prefix (lit "/comments/") (after notSlash s1)) as [s2|] eqn:E2;
      [|discriminate].
    apply strip_prefix_Some in E2.
    destruct (Nat.leb_spec 1 (prefix_len notSlash s2)) as [H2|H2]; [|discriminate].
    destruct (after notSlash s2) as [|c s3] eqn:E3; [discriminate |].
    unfold char_eqb. destruct (N.eqb_spec 47 c) as [<-|]; [|discriminate].
    intros H; inversion H; subst s3; clear H.
    set (sub := firstn (prefix_len notSlash s1) s1).
    set (id := firstn (prefix_len notSlash s2) s2).
    exists (lit "/r/" ++ sub ++ lit "/comments/" ++ id ++ [47%N]), sub, id.
    split; [reflexivity |]. split.
    + rewrite E1. rewrite (after_split notSlash s1) at 1. fold sub. rewrite E2.
      rewrite (after_split notSlash s2) at 1. fold id. rewrite E3.
      rewrite <- !app_assoc. reflexivity.
    + repeat split.
      * apply nonempty_length. unfold sub.
        rewrite firstn_length_le; [assumption | apply prefix_len_le].
      * apply nonempty_length. unfold id.
        rewrite firstn_length_le; [assumption | apply prefix_len_le].
      * apply prefix_len_all.
      * apply prefix_len_all.
  - intros (path & sub & id & -> & -> & Hs & Hi & Has & Hai).
    rewrite <- !app_assoc.
    assert (E1 : strip_prefix (lit "/r/")
                   (lit "/r/" ++ sub ++ lit "/comments/" ++ id ++ [47%N] ++ rest)
                 = Some (sub ++ lit "/comments/" ++ id ++ [47%N] ++ rest))
      by (apply strip_prefix_Some; reflexivity).
    rewrite E1.
    assert (P1 : prefix_len notSlash (sub ++ lit "/comments/" ++ id ++ [47%N] ++ rest)
                 = length sub) by (apply prefix_len_app; [exact Has | reflexivity]).
    unfold after. rewrite P1, skipn_length_app.
    apply nonempty_length in Hs. destruct (Nat.leb_spec 1 (length sub)); [|lia].
    assert (E2 : strip_prefix (lit "/comments/")
                   (lit "/comments/" ++ id ++ [47%N] ++ rest)
                 = Some (id ++ [47%N] ++ rest))
      by (apply strip_prefix_Some; reflexivity).
    rewrite E2.
    assert (P2 : prefix_len notSlash (id ++ [47%N] ++ rest) = length id)
      by (apply prefix_len_app; [exact Hai | reflexivity]).
    rewrite P2, skipn_length_app.
    apply nonempty_length in Hi. destruct (Nat.leb_spec 1 (length id)); [|lia].
    reflexivity.
Qed.

Lemma match_anywhere_None r s :
  match_anywhere r s = None <->
  forall pre s', s = pre ++ s' -> match_start r s' = None.
Proof.
  induction s as [|c s IH]; simpl.
  - destruct (match_start r []) eqn:E.
    + split; [discriminate | intros H; rewrite <- (H [] []) ; auto].
    + split; [|reflexivity]. intros _ pre s' H.
      symmetry in H. apply app_eq_nil in H. destruct H as [_ ->]. exact E.
  - destruct (match_start r (c :: s)) eqn:E.
    + split; [discriminate | intros H; rewrite <- (H [] (c :: s)); auto].
    + rewrite IH. split.
      * intros H pre s' Hs. destruct pre as [|c' pre].
        -- simpl in Hs. subst s'. exact E.
        -- inversion Hs; subst. apply (H pre). reflexivity.
      * intros H pre s' Hs. apply (H (c :: pre)). rewrite Hs. reflexivity.
Qed.

(** The permalink matches exactly when a permalink path occurs in it. *)
Definition HasPermalinkPath (slug : list N) : Prop :=
  exists pre path rest s, slug = pre ++ s /\ PermalinkPath path rest s.

Lemma match_anywhere_permalink slug :
  match_anywhere permalink_re slug <> None <-> HasPermalinkPath slug.
Proof.
  split.
  - intros H. destruct (match_anywhere permalink_re slug) eqn:E; [clear H | congruence].
    assert (Hex : ~ forall pre s', slug = pre ++ s' -> match_start permalink_re s' = None).
    { intros Hall. apply match_anywhere_None in Hall. congruence. }
    clear E.
    assert (G : forall s, (forall pre, slug = pre ++ s ->
                  (forall pre' s', s = pre' ++ s' -> match_start permalink_re s' = None)
                  \/ HasPermalinkPath slug)).
    { induction s as [|c s IHs]; intros pre Hs.
      - destruct (permalink_at []) as [rest|] eqn:Ep.
        + right. apply permalink_at_shape in Ep. destruct Ep as (path & Hp).
          exists pre, path, rest, []. split; assumption.
        + left. intros pre' s' H'. symmetry in H'. apply app_eq_nil in H'.
          destruct H' as [_ ->]. rewrite match_start_permalink, Ep. reflexivity.
      - destruct (permalink_at (c :: s)) as [rest|] eqn:Ep.
        + right. apply permalink_at_shape in Ep. destruct Ep as (path & Hp).
          exists pre, path, rest, (c :: s). split; assumption.
        + destruct (IHs (pre ++ [c])) as [Hn|Hy].
          * rewrite <- app_assoc. exact Hs.
          * left. intros pre' s' H'. destruct pre' as [|c' pre'].
            -- simpl in H'. subst s'. rewrite match_start_permalink, Ep. reflexivity.
            -- inversion H'; subst. apply (Hn pre'). reflexivity.
          * right. exact Hy. }
    destruct (G slug [] eq_refl) as [Hn|Hy]; [contradiction | exact Hy].
  - intros (pre & path & rest & s & -> & Hp) H.
    apply match_anywhere_None with (pre := pre) (s' := s) in H; [|reflexivity].
    rewrite match_start_permalink in H.
    assert (Ep : permalink_at s = Some rest)
      by (apply permalink_at_shape; exists path; exact Hp).
    rewrite Ep in H. discriminate.
Qed.

End PermalinkFacts.
Import PermalinkFacts.

(* ================================================================= *)
(** ** The claims about the section sorter *)

Module SorterClaims.
Local Open Scope Z_scope.

(** Entries decoded to the instant [t]. *)
Definition hasTime (t : Z) (e : TimestampedEntry) : bool :=
  match timestamp e with
  | Some t' => t' =? t
  | None => false
  end.

Definition probe (t : Z) : TimestampedEntry :=
  {| line := []; timestamp := Some t; originalIndex := 0 |}.

Lemma hasTime_tied t e : hasTime t e = tied compareEntries (probe t) e.
Proof.
  unfold hasTime, tied, compareEntries, probe. simpl.
  destruct (timestamp e) as [t'|]; [|reflexivity].
  destruct (Z.eqb_spec t' t), (Z.eqb_spec (t' - t) 0); try reflexivity; lia.
Qed.

(** C1 — The comparator orders two entries without timestamp by
    [originalIndex] ascending, an entry without timestamp before any entry
    with one, and two entries with timestamps by descending instant.  The
    sorted output is a rearrangement of the entries in that order, entries
    that compare equal (in particular equal instants) keep their encounter
    order, and all entries without timestamp come before all entries with
    one. *)
Theorem C1_comparator_and_sorted_order :
  (forall a b : TimestampedEntry,
     match timestamp a, timestamp b with
     | None, None => compareEntries a b = originalIndex a - originalIndex b
     | None, Some _ => compareEntries a b < 0
     | Some _, None => compareEntries a b > 0
     | Some ta, Some tb => compareEntries a b = tb - ta
     end)
  /\ (forall entries : list TimestampedEntry,
        let sorted := sortTimestampedEntries entries in
        Permutation entries sorted
        /\ StronglySorted (fun a b => compareEntries a b <= 0) sorted
        /\ (forall z, filter (tied compareEntries z) sorted
                      = filter (tied compareEntries z) entries)
        /\ (forall t, filter (hasTime t) sorted = filter (hasTime t) entries)
        /\ sorted = filter isNull sorted ++ filter (fun e => negb (isNull e)) sorted).
Proof.
  split.
  - intros a b. unfold compareEntries.
    destruct (timestamp a), (timestamp b); lia.
  - intros entries sorted. unfold sorted, sortTimestampedEntries.
    assert (Hs : StronglySorted (SortFacts.le compareEntries)
                   (JSArray.sort compareEntries entries)).
    { exact (sort_sorted compareEntries compareEntries_trans
               compareEntries_total entries). }
    assert (Hst : forall z, filter (tied compareEntries z)
                              (JSArray.sort compareEntries entries)
                            = filter (tied compareEntries z) entries).
    { intros z. exact (sort_stable compareEntries compareEntries_tie z entries). }
    repeat split.
    + apply sort_perm.
    + exact Hs.
    + exact Hst.
    + intros t.
      rewrite (filter_ext _ _ (hasTime_tied t)).
      rewrite (filter_ext _ _ (hasTime_tied t) entries). apply Hst.
    + exact (sorted_split compareEntries isNull _ compareEntries_null_first Hs).
Qed.

(** The grammar of timestamp rows as the specification words it: the
    two characters dash and space, exactly 8 or exactly 12 digits, then
    space, dash, space. *)
Definition SpecStrictGrammar (line : list N) : Prop :=
  exists ds rest,
    line = lit "- " ++ ds ++ lit " - " ++ rest
    /\ all isDigit ds /\ (length ds = 8%nat \/ length ds = 12%nat).

(** C2, as stated, fails: a row whose dash is followed by two spaces
    is parsed by the strict parser, but does not start with a dash, one
    space and a digit. *)
Lemma C2_counterexample_two_spaces :
  parseTimestamp utcHost (lit "-  20240101 - A") <> None
  /\ ~ SpecStrictGrammar (lit "-  20240101 - A").
Proof.
  split.
  - vm_compute. discriminate.
  - intros (ds & rest & E & Hd & Hl).
    destruct ds as [|d ds]; [simpl in Hl; lia |].
    vm_compute in E. inversion E; subst d. inversion Hd as [|? ? Hc _]; subst.
    discriminate Hc.
Qed.

(** C2 (amended) — The strict parser yields a timestamp exactly for the
    lines made of a dash, one or more whitespace characters, exactly 8 or
    exactly 12 digits, one or more whitespace characters, a dash and one
    or more whitespace characters; 8 digits decode as year, month, day at
    local midnight and 12 digits as year, month, day, hour, minute.  The
    scan treats as timestamp rows exactly the lines of that form with 8
    to 12 digits, keeping the strict parse (none for 9, 10 or 11 digits)
    as their timestamp, and every other line goes to the other lines. *)
Theorem C2_row_classification (h : Host) :
  (forall line,
     parseTimestamp h line <> None <->
     exists ds, RowShape line ds /\ (length ds = 8%nat \/ length ds = 12%nat))
  /\ (forall line ds,
        RowShape line ds ->
        (length ds = 8%nat ->
         parseTimestamp h line
         = Some (Date_local h (parseInt (substring 0 4 ds))
                   (parseInt (substring 4 6 ds) - 1)
                   (parseInt (substring 6 8 ds)) 0 0))
        /\ (length ds = 12%nat ->
            parseTimestamp h line
            = Some (Date_local h (parseInt (substring 0 4 ds))
                      (parseInt (substring 4 6 ds) - 1)
                      (parseInt (substring 6 8 ds))
                      (parseInt (substring 8 10 ds))
                      (parseInt (substring 10 12 ds))))
        /\ ((9 <= length ds <= 11)%nat ->
            parseTimestamp h line = None /\ isTimestampRow h line = true))
  /\ (forall line,
        isTimestampRow h line = true <->
        exists ds, RowShape line ds /\ (8 <= length ds <= 12)%nat)
  /\ (forall lines a b,
        scanSection h lines a b =
        (List.map (fun i => {| line := get lines i;
                               timestamp := parseTimestamp h (get lines i);
                               originalIndex := i |})
           (filter (fun i => isTimestampRow h (get lines i)) (range a b)),
         List.map (get lines)
           (filter (fun i => negb (isTimestampRow h (get lines i))) (range a b)))).
Proof.
  split; [intros line; apply parseTimestamp_Some_iff |].
  split.
  { intros line ds Hs.
    assert (Hc : forall n, (8 <= n <= 12)%nat -> length ds = n ->
                           row_code line = Some ds).
    { intros n Hn Hl. apply shape_row_code; [|assumption].
      intros ->. simpl in Hl. lia. }
    rewrite parseTimestamp_code, strict_code_eq.
    repeat split.
    - intros Hl. rewrite (Hc 8%nat) by (auto; lia). rewrite Hl.
      cbn [Nat.eqb orb]. rewrite Hl. cbn [Nat.eqb]. unfold decode8. reflexivity.
    - intros Hl. rewrite (Hc 12%nat) by (auto; lia). rewrite Hl.
      cbn [Nat.eqb orb]. rewrite Hl. cbn [Nat.eqb]. unfold decode12. reflexivity.
    - rewrite (Hc (length ds)) by (auto; lia).
      destruct (Nat.eqb_spec (length ds) 8); [lia |].
      destruct (Nat.eqb_spec (length ds) 12); [lia |]. reflexivity.
    - apply isTimestampRow_iff. exists ds. split; [assumption | lia]. }
  split; [intros line; apply isTimestampRow_iff |].
  intros lines a b. apply scanSection_eq.
Qed.


(** The document after a rewrite, line by line. *)
Lemma rewritten_lines h lines a b :
  Forall noLF lines -> entriesOf h lines a b <> [] ->
  split_lines (join_lines (before lines a ++ newBody h lines a b ++ behind lines b))
  = before lines a ++ newBody h lines a b ++ behind lines b.
Proof.
  intros Hn He. apply split_join.
  - intros E. apply app_eq_nil in E. destruct E as [_ E].
    apply app_eq_nil in E. destruct E as [E _]. unfold newBody in E.
    apply app_eq_nil in E. destruct E as [E _].
    apply (f_equal (@length _)) in E. rewrite length_map, sorted_length in E.
    destruct (entriesOf h lines a b); [congruence | discriminate].
  - rewrite !Forall_app. repeat split.
    + unfold before. rewrite <- (firstn_skipn (Z.to_nat a) lines) in Hn.
      apply Forall_app in Hn. tauto.
    + apply newBody_noLF. exact Hn.
    + unfold behind. rewrite <- (firstn_skipn (Z.to_nat (b + 1)) lines) in Hn.
      apply Forall_app in Hn. tauto.
Qed.

Lemma some_row_entries h lines a b i :
  a <= i <= b -> isTimestampRow h (get lines i) = true ->
  entriesOf h lines a b <> [].
Proof.
  intros Hi Hr E. unfold entriesOf, rowsOf in E. apply map_eq_nil in E.
  assert (Hin : In i (filter (isRowAt h lines) (range a b))).
  { apply filter_In. split; [apply range_In; assumption | exact Hr]. }
  rewrite E in Hin. destruct Hin.
Qed.

Lemma no_row_entries h lines a b :
  (forall i, a <= i <= b -> isTimestampRow h (get lines i) = false) ->
  entriesOf h lines a b = [].
Proof.
  intros H. unfold entriesOf, rowsOf.
  destruct (filter (isRowAt h lines) (range a b)) as [|i idx] eqn:E; [reflexivity |].
  assert (Hin : In i (filter (isRowAt h lines) (range a b))) by (rewrite E; left; reflexivity).
  apply filter_In in Hin. destruct Hin as [Hin Hr]. apply range_In in Hin.
  unfold isRowAt in Hr. rewrite (H i Hin) in Hr. discriminate.
Qed.

Lemma length_eqb_nonempty {A} (l : list A) : l <> [] -> (length l =? 0)%nat = false.
Proof. destruct l; [congruence | reflexivity]. Qed.

(** A rewrite happens only when the section holds a timestamp row, and
    then writes the rebuilt document. *)
Lemma rewrite_inv h content section newContent rest :
  sortTimestampsInSection h content section = Some (Modify newContent :: rest) ->
  exists a b,
    sectionBounds (split_lines content) section = Some (a, b)
    /\ entriesOf h (split_lines content) a b <> []
    /\ newContent = join_lines (before (split_lines content) a
                                ++ newBody h (split_lines content) a b
                                ++ behind (split_lines content) b).
Proof.
  rewrite sortTimestampsInSection_eq.
  destruct (sectionBounds (split_lines content) section) as [[a b]|] eqn:Eb;
    [|discriminate].
  cbv zeta.
  destruct (entriesOf h (split_lines content) a b) as [|e es] eqn:Ee; [discriminate |].
  cbn [length Nat.eqb]. intros H. inversion H. exists a, b.
  split; [reflexivity |]. split; [rewrite Ee; discriminate | reflexivity].
Qed.

Definition lineA : list N := lit "- 20240101 - A".
Definition lineB : list N := lit "- 20240601 - B".
Definition lineNote : list N := lit "note".

Definition wholeDocument : Section_ := {| heading := entireDocument; sline := -1 |}.

(** The row test does not depend on the host. *)
Definition isRowLine (l : list N) : bool :=
  match row_code l with
  | Some ds => (8 <=? length ds)%nat && (length ds <=? 12)%nat
  | None => false
  end.

Lemma isTimestampRow_closed h l : isTimestampRow h l = isRowLine l.
Proof.
  unfold isTimestampRow. fold (matches loose_re l).
  rewrite parseTimestamp_code, strict_code_eq, loose_matches_eq. unfold isRowLine.
  destruct (row_code l) as [ds|]; [|reflexivity].
  destruct (Nat.eqb_spec (length ds) 8) as [E8|N8].
  { cbn [orb]. cbv iota beta. rewrite E8. reflexivity. }
  destruct (Nat.eqb_spec (length ds) 12) as [E12|N12].
  { cbn [orb]. cbv iota beta. rewrite E12. reflexivity. }
  reflexivity.
Qed.

Lemma parse_eight h l ds :
  strict_code l = Some ds -> length ds = 8%nat ->
  parseTimestamp h l = Some (decode8 h ds).
Proof. intros Hc Hl. rewrite parseTimestamp_code, Hc, Hl. reflexivity. Qed.

Definition dateA (h : Host) : Z := decode8 h (lit "20240101").
Definition dateB (h : Host) : Z := decode8 h (lit "20240601").

Lemma dateA_before_dateB h : dateB h - dateA h > 0.
Proof.
  unfold dateA, dateB, decode8, Date_local, UTC.
  repeat match goal with
         | |- context [LocalTZA h ?t false] =>
             lazymatch t with
             | Z.pos _ => fail
             | _ => let v := eval vm_compute in t in
                    replace t with v by (vm_compute; reflexivity)
             end
         end.
  pose proof (LocalTZA_bound h 1717200000000 false).
  pose proof (LocalTZA_bound h 1704067200000 false).
  unfold msPerDay in *. lia.
Qed.

Lemma example_entries h :
  entriesOf h [lineA; lineNote; lineB] 0 2
  = [ {| line := lineA; timestamp := Some (dateA h); originalIndex := 0 |};
      {| line := lineB; timestamp := Some (dateB h); originalIndex := 2 |} ].
Proof.
  unfold entriesOf, rowsOf.
  rewrite (filter_ext _ _
             (fun i => isTimestampRow_closed h (get [lineA; lineNote; lineB] i))).
  replace (filter (fun i => isRowLine (get [lineA; lineNote; lineB] i)) (range 0 2))
    with [0; 2] by (vm_compute; reflexivity).
  cbn [List.map]. unfold mkEntry.
  change (get [lineA; lineNote; lineB] 0) with lineA.
  change (get [lineA; lineNote; lineB] 2) with lineB.
  rewrite (parse_eight h lineA (lit "20240101")) by (vm_compute; reflexivity).
  rewrite (parse_eight h lineB (lit "20240601")) by (vm_compute; reflexivity).
  reflexivity.
Qed.

Lemma example_others h :
  otherLines h [lineA; lineNote; lineB] 0 2 = [lineNote].
Proof.
  unfold otherLines, othersOf.
  rewrite (filter_ext _ _
             (fun i => f_equal negb
                         (isTimestampRow_closed h (get [lineA; lineNote; lineB] i)))).
  vm_compute. reflexivity.
Qed.

Lemma example_sorted h :
  sortTimestampsInSection h (join_lines [lineA; lineNote; lineB]) wholeDocument
  = Some [Modify (join_lines [lineB; lineA; lineNote]);
          Notice (sortedNotice 2 entireDocument)].
Proof.
  rewrite sortTimestampsInSection_eq.
  replace (split_lines (join_lines [lineA; lineNote; lineB]))
    with [lineA; lineNote; lineB] by (vm_compute; reflexivity).
  replace (sectionBounds [lineA; lineNote; lineB] wholeDocument)
    with (Some (0, 2)) by (vm_compute; reflexivity).
  cbv zeta. unfold newBody. rewrite example_entries, example_others.
  unfold sortTimestampedEntries, JSArray.sort. cbn [fold_right insert].
  unfold compareEntries. cbn [timestamp].
  pose proof (dateA_before_dateB h) as Hlt.
  destruct (Z.gtb_spec (dateB h - dateA h) 0); [|lia].
  cbn [List.map line length Nat.eqb]. unfold wholeDocument. cbn [heading].
  vm_compute. reflexivity.
Qed.

(** C4 — When the section holds at least one timestamp row, the command
    rewrites the document so that the section reads: the timestamp rows in
    the order of the comparator, from [startLine] on; then the other lines
    in encounter order without the blank ones; then empty lines to the end
    of the section.  The section of the three lines A (January), note, B
    (June) becomes B, A, note. *)
Theorem C4_section_rewritten (h : Host) (content : list N) (section : Section_)
    (a b i : Z) :
  sectionBounds (split_lines content) section = Some (a, b) ->
  a <= i <= b -> isTimestampRow h (get (split_lines content) i) = true ->
  let lines := split_lines content in
  let rows := filter (fun i => isTimestampRow h (get lines i)) (range a b) in
  let others := filter (fun i => negb (isTimestampRow h (get lines i))) (range a b) in
  let sorted :=
    sortTimestampedEntries
      (List.map (fun i => {| line := get lines i;
                             timestamp := parseTimestamp h (get lines i);
                             originalIndex := i |}) rows) in
  let kept := filter (fun l => negb (str_eqb (trim l) [])) (List.map (get lines) others) in
  let newLines :=
    firstn (Z.to_nat a) lines
    ++ (List.map line sorted ++ kept
        ++ repeat [] (Z.to_nat (b - a + 1) - length sorted - length kept))
    ++ skipn (Z.to_nat (b + 1)) lines in
  sortTimestampsInSection h content section
  = Some [Modify (join_lines newLines);
          Notice (lit "Sorted " ++ Number_toString (Z.of_nat (length rows))
                    ++ lit " timestamped entries in " ++ [34%N]
                    ++ heading section ++ [34%N])]
  /\ split_lines (join_lines newLines) = newLines
  /\ (length sorted + length kept <= Z.to_nat (b - a + 1))%nat
  /\ (forall l, str_eqb (trim l) [] = true <-> forallb isSpace l = true)
  /\ sortTimestampsInSection h (join_lines [lineA; lineNote; lineB]) wholeDocument
     = Some [Modify (join_lines [lineB; lineA; lineNote]);
             Notice (sortedNotice 2 entireDocument)].
Proof.
  intros Hb Hi Hr lines rows others sorted kept newLines.
  pose proof (some_row_entries h lines a b i Hi Hr) as Hne.
  assert (En : newLines = before lines a ++ newBody h lines a b ++ behind lines b)
    by reflexivity.
  split; [|split; [|split; [|split]]].
  - rewrite sortTimestampsInSection_eq, Hb. cbv zeta. fold lines.
    rewrite (length_eqb_nonempty _ Hne). rewrite En.
    unfold sortedNotice, entriesOf. rewrite length_map. reflexivity.
  - rewrite En. apply rewritten_lines; [apply split_noLF | exact Hne].
  - apply (section_fits h lines a b).
  - apply blank_iff.
  - apply example_sorted.
Qed.

Lemma C4_section_rewritten_witness :
  sortTimestampsInSection utcHost (join_lines [lineA; lineNote; lineB]) wholeDocument
  = Some [Modify (join_lines [lineB; lineA; lineNote]);
          Notice (lit "Sorted 2 timestamped entries in " ++ [34%N]
                    ++ entireDocument ++ [34%N])].
Proof.
  destruct (C4_section_rewritten utcHost (join_lines [lineA; lineNote; lineB])
              wholeDocument 0 2 0) as [H _].
  - vm_compute. reflexivity.
  - lia.
  - vm_compute. reflexivity.
  - rewrite H. vm_compute. reflexivity.
Defined.

(** C6 — A rewrite leaves the number of lines of the document unchanged,
    fills exactly the [endLine - startLine + 1] slots of the section, and
    leaves every line outside the section as it was. *)
Theorem C6_rewrite_frame (h : Host) (content : list N) (section : Section_)
    (newContent : list N) (rest : list effect) :
  sortTimestampsInSection h content section = Some (Modify newContent :: rest) ->
  exists a b,
    sectionBounds (split_lines content) section = Some (a, b)
    /\ length (split_lines newContent) = length (split_lines content)
    /\ length (body (split_lines newContent) a b) = Z.to_nat (b - a + 1)
    /\ before (split_lines newContent) a = before (split_lines content) a
    /\ behind (split_lines newContent) b = behind (split_lines content) b
    /\ (forall i, i < a \/ b < i ->
                  get_opt (split_lines newContent) i = get_opt (split_lines content) i).
Proof.
  intros H. apply rewrite_inv in H. destruct H as (a & b & Hb & Hne & ->).
  exists a, b. split; [exact Hb |].
  set (lines := split_lines content) in *.
  rewrite rewritten_lines; [|apply split_noLF | exact Hne].
  pose proof (sectionBounds_range lines section a b Hb) as (Ha & Hab & Hlb).
  pose proof (newBody_length h lines a b) as Hnl.
  pose proof (before_length lines a Ha ltac:(lia)) as Hbl.
  pose proof (body_length lines a b Ha Hab Hlb) as Hol.
  pose proof (lines_split lines a b Ha Hab Hlb) as Hsp.
  assert (Hlen : length (before lines a ++ newBody h lines a b ++ behind lines b)
                 = length lines).
  { rewrite Hsp at 4. rewrite !length_app. lia. }
  assert (Hbef : before (before lines a ++ newBody h lines a b ++ behind lines b) a
                 = before lines a).
  { unfold before at 1. rewrite <- Hbl. apply firstn_length_app. }
  assert (Hbeh : behind (before lines a ++ newBody h lines a b ++ behind lines b) b
                 = behind lines b).
  { unfold behind at 1. rewrite app_assoc.
    replace (Z.to_nat (b + 1)) with (length (before lines a ++ newBody h lines a b))
      by (rewrite length_app; lia).
    apply skipn_length_app. }
  repeat split; auto.
  - unfold body. rewrite length_firstn, length_skipn, Hlen. lia.
  - intros i Hi. unfold get_opt. destruct (Z.ltb_spec i 0); [reflexivity |].
    clearbody lines.
    set (P := before lines a) in *. set (NB := newBody h lines a b) in *.
    set (B := body lines a b) in *. set (Q := behind lines b) in *.
    rewrite Hsp. destruct Hi as [Hi|Hi].
    + rewrite !nth_error_app1 by lia. reflexivity.
    + rewrite !app_assoc.
      rewrite !nth_error_app2 by (rewrite length_app; lia).
      rewrite !length_app. f_equal. lia.
Qed.

Lemma C6_rewrite_frame_witness :
  exists a b,
    sectionBounds (split_lines (join_lines [lineA; lineNote; lineB])) wholeDocument
    = Some (a, b)
    /\ length (split_lines (join_lines [lineB; lineA; lineNote])) = 3%nat.
Proof.
  destruct (C6_rewrite_frame utcHost (join_lines [lineA; lineNote; lineB]) wholeDocument
              (join_lines [lineB; lineA; lineNote])
              [Notice (sortedNotice 2 entireDocument)])
    as (a & b & Hb & Hl & _).
  - vm_compute. reflexivity.
  - exists a, b. split; [exact Hb | rewrite Hl; reflexivity].
Defined.

(** C7 — When no line of the section is a timestamp row (neither by the
    strict parse nor by the loose pattern), the command writes nothing:
    its only effect is the notice that no timestamped entries were
    found. *)
Theorem C7_nothing_to_sort (h : Host) (content : list N) (section : Section_)
    (a b : Z) :
  sectionBounds (split_lines content) section = Some (a, b) ->
  (forall i, a <= i <= b ->
     parseTimestamp h (get (split_lines content) i) = None
     /\ match_start loose_re (get (split_lines content) i) = None) ->
  sortTimestampsInSection h content section
  = Some [Notice (lit "No timestamped entries found in the selected section")]
  /\ forall effects,
       sortTimestampsInSection h content section = Some effects ->
       forall newContent, ~ In (Modify newContent) effects.
Proof.
  intros Hb Hno.
  assert (E : sortTimestampsInSection h content section
              = Some [Notice (lit "No timestamped entries found in the selected section")]).
  { rewrite sortTimestampsInSection_eq, Hb. cbv zeta.
    rewrite no_row_entries; [reflexivity |].
    intros i Hi. destruct (Hno i Hi) as [H1 H2]. unfold isTimestampRow.
    rewrite H1, H2. reflexivity. }
  split; [exact E |].
  intros effects He newContent. rewrite E in He. inversion He; subst effects.
  intros [Hin|[]]. discriminate.
Qed.

Lemma C7_nothing_to_sort_witness :
  sortTimestampsInSection utcHost (join_lines [lineNote; lit "- 2024 - x"]) wholeDocument
  = Some [Notice (lit "No timestamped entries found in the selected section")].
Proof.
  apply (C7_nothing_to_sort utcHost (join_lines [lineNote; lit "- 2024 - x"])
           wholeDocument 0 1).
  - vm_compute. reflexivity.
  - intros i Hi.
    assert (Hc : i = 0 \/ i = 1) by lia.
    destruct Hc as [-> | ->]; split; vm_compute; reflexivity.
Defined.

(** C10 — After a rewrite the lines of the section that are not blank
    are, as a multiset, the lines of the old section that are not blank;
    every line of the new section is a line of the old section, unchanged,
    or the empty line. *)
Theorem C10_nonblank_lines_kept (h : Host) (content : list N) (section : Section_)
    (newContent : list N) (rest : list effect) :
  sortTimestampsInSection h content section = Some (Modify newContent :: rest) ->
  exists a b,
    sectionBounds (split_lines content) section = Some (a, b)
    /\ Permutation
         (filter (fun l => negb (str_eqb (trim l) [])) (body (split_lines newContent) a b))
         (filter (fun l => negb (str_eqb (trim l) [])) (body (split_lines content) a b))
    /\ (forall l, In l (body (split_lines newContent) a b) ->
                  In l (body (split_lines content) a b) \/ l = []).
Proof.
  intros H. apply rewrite_inv in H. destruct H as (a & b & Hb & Hne & ->).
  exists a, b. split; [exact Hb |].
  set (lines := split_lines content) in *.
  rewrite rewritten_lines; [|apply split_noLF | exact Hne].
  pose proof (sectionBounds_range lines section a b Hb) as (Ha & Hab & Hlb).
  assert (Hbody : body (before lines a ++ newBody h lines a b ++ behind lines b) a b
                  = newBody h lines a b).
  { unfold body.
    rewrite <- (before_length lines a Ha ltac:(lia)), skipn_length_app.
    rewrite <- (newBody_length h lines a b). apply firstn_length_app. }
  rewrite Hbody. split.
  - apply (newBody_perm h lines a b Ha Hab Hlb).
  - intros l. apply newBody_In; assumption.
Qed.

Lemma C10_nonblank_lines_kept_witness :
  exists a b,
    Permutation
      (filter (fun l => negb (str_eqb (trim l) []))
         (body (split_lines (join_lines [lineB; lineA; lineNote])) a b))
      (filter (fun l => negb (str_eqb (trim l) []))
         (body (split_lines (join_lines [lineA; lineNote; lineB])) a b)).
Proof.
  destruct (C10_nonblank_lines_kept utcHost (join_lines [lineA; lineNote; lineB])
              wholeDocument (join_lines [lineB; lineA; lineNote])
              [Notice (sortedNotice 2 entireDocument)])
    as (a & b & _ & Hp & _).
  - vm_compute. reflexivity.
  - exists a, b. exact Hp.
Defined.


(** The heading level as the specification words it: the count of
    leading [#], 1 to 6, followed by whitespace and then a text that is not
    empty (the grammar of the heading discovery); 0 for any other line. *)
Definition specHeadingLevel (l : list N) : Z :=
  match match_start heading_re l with
  | Some m => Z.of_nat (length (nth 1 m []))
  | None => 0
  end.

(** The end of the section of a heading at line [h] of level [L], with
    that heading level: the line before the next line of level 1 to [L],
    or the last line. *)
Definition specEndLine (lines : list (list N)) (h L endLine : Z) : Prop :=
  let last := Z.of_nat (length lines) - 1 in
  (exists j,
     h + 1 <= j <= last /\ endLine = j - 1
     /\ 0 < specHeadingLevel (get lines j) <= L
     /\ forall i, h + 1 <= i < j -> ~ 0 < specHeadingLevel (get lines i) <= L)
  \/ (endLine = last
      /\ forall i, h + 1 <= i <= last -> ~ 0 < specHeadingLevel (get lines i) <= L).

Definition docEmptyHeading : list (list N) :=
  [lit "## A"; lit "x"; lit "# "; lit "y"].

(** C5, as stated, fails: in the document [## A], [x], [# ], [y] the
    section of the heading [## A] (level 2) ends at line 1 in the code,
    because the line [# ] (a [#] and a space, no text) has heading level 1
    for [getHeadingLevel]; by the grammar of the claim that line is not a
    heading, no later line has a level from 1 to 2, and the section would
    end at the last line, 3. *)
Lemma C5_counterexample_heading_without_text :
  In {| heading := lit "  A"; sline := 0 |} (headingsOf docEmptyHeading)
  /\ specHeadingLevel (get docEmptyHeading 0) = 2
  /\ sectionBounds docEmptyHeading {| heading := lit "  A"; sline := 0 |}
     = Some (1, 1)
  /\ ~ specEndLine docEmptyHeading 0 2 1
  /\ specEndLine docEmptyHeading 0 2 3.
Proof.
  assert (Hlev : forall i, 1 <= i <= 3 -> specHeadingLevel (get docEmptyHeading i) = 0).
  { intros i Hi. assert (Hc : i = 1 \/ i = 2 \/ i = 3) by lia.
    destruct Hc as [->|[->| ->]]; vm_compute; reflexivity. }
  split; [vm_compute; left; reflexivity |].
  split; [vm_compute; reflexivity |].
  split; [vm_compute; reflexivity |].
  split.
  - intros [(j & Hj & He & Hl & _)|(He & _)].
    + change (Z.of_nat (length docEmptyHeading) - 1) with 3 in Hj.
      rewrite (Hlev j) in Hl by lia. lia.
    + vm_compute in He. discriminate.
  - right. split; [reflexivity |].
    intros i Hi. change (Z.of_nat (length docEmptyHeading) - 1) with 3 in Hi.
    rewrite (Hlev i) by lia. lia.
Qed.

(** C5 (amended) — The heading chosen at line [h] is a line of 1 to 6
    [#] (their number is its level [L]), whitespace and a text that is not
    empty; for it the section starts at [h + 1] and ends just before the
    first line from [h + 1] on that [getHeadingLevel] gives a level from 1
    to [L], that is a line of 1 to [L] leading [#] followed by whitespace,
    with or without a text; it ends at the last line of the document when
    there is none.  For the entry of the whole document the section is the
    whole document. *)
Theorem C5_section_boundaries (content : list N) (section : Section_) :
  In section (headingsOf (split_lines content)) ->
  let lines := split_lines content in
  let h := sline section in
  let last := Z.of_nat (length lines) - 1 in
  exists (L : nat) (text : list N) (endLine : Z),
    0 <= h <= last
    /\ HeadingShape (get lines h) L text
    /\ (1 <= L <= 6)%nat /\ prefix_len isHash (get lines h) = L
    /\ getHeadingLevel (get lines h) = Z.of_nat L
    /\ (forall l,
          getHeadingLevel l =
          if (1 <=? prefix_len isHash l)%nat && (prefix_len isHash l <=? 6)%nat
             && (1 <=? prefix_len isSpace (skipn (prefix_len isHash l) l))%nat
          then Z.of_nat (prefix_len isHash l) else 0)
    /\ sectionBounds lines section = Some (h + 1, endLine)
    /\ ((exists j,
           h + 1 <= j <= last /\ endLine = j - 1
           /\ 0 < getHeadingLevel (get lines j) <= Z.of_nat L
           /\ forall i, h + 1 <= i < j ->
                        ~ 0 < getHeadingLevel (get lines i) <= Z.of_nat L)
        \/ (endLine = last
            /\ forall i, h + 1 <= i <= last ->
                         ~ 0 < getHeadingLevel (get lines i) <= Z.of_nat L))
    /\ forall label,
         sectionBounds lines {| heading := label; sline := -1 |} = Some (0, last).
Proof.
  intros Hin lines h last.
  apply headingsOf_In in Hin. fold lines in Hin.
  destruct Hin as (i & l & m & Hnth & Hs & Hm & _).
  apply heading_re_shape in Hm.
  set (L := length (nth 1 m [])) in *. set (text := nth 2 m []) in *.
  assert (Hi : (i < length lines)%nat) by (apply nth_error_Some; congruence).
  assert (Hget : get lines h = l).
  { unfold get, h. rewrite Hs, Nat2Z.id. apply nth_error_nth. exact Hnth. }
  assert (Hopt : get_opt lines h = Some l).
  { unfold get_opt, h. rewrite Hs.
    destruct (Z.ltb_spec (Z.of_nat i) 0); [lia |]. rewrite Nat2Z.id. exact Hnth. }
  pose proof (heading_level l L text Hm) as Hlev.
  assert (Hcl : forall j, closes lines (Z.of_nat L) j = true
                          <-> 0 < getHeadingLevel (get lines j) <= Z.of_nat L).
  { intros j. unfold closes. cbv zeta.
    rewrite andb_true_iff, Z.gtb_ltb, Z.ltb_lt, Z.leb_le. tauto. }
  assert (Hb : exists endLine,
             sectionBounds lines section = Some (h + 1, endLine)
             /\ ((exists j, h + 1 <= j <= last /\ endLine = j - 1
                            /\ closes lines (Z.of_nat L) j = true
                            /\ forall i, h + 1 <= i < j ->
                                         closes lines (Z.of_nat L) i = false)
                 \/ (endLine = last
                     /\ forall i, h + 1 <= i <= last ->
                                  closes lines (Z.of_nat L) i = false))).
  { unfold sectionBounds. fold h.
    destruct (Z.eqb_spec h (-1)) as [E|_]; [unfold h in E; lia |].
    rewrite Hopt, Hlev.
    match goal with
    | |- context [find ?f ?idx] => destruct (find f idx) as [j|] eqn:Ef
    end.
    - eexists. split; [reflexivity |]. left. exists j.
      apply find_upto in Ef. destruct Ef as (Hr & Hf & Hj).
      split; [unfold last, h in *; lia |]. split; [reflexivity |].
      split; [exact Hf | exact Hj].
    - eexists. split; [reflexivity |]. right. split; [reflexivity |].
      intros k Hk. apply (find_upto_none _ _ _ Ef). unfold last, h in *. lia. }
  destruct Hb as (endLine & Hb & Hend).
  destruct Hm as (ws & Hshape) eqn:Hm'. clear Hm'.
  exists L, text, endLine.
  split; [unfold last, h; lia |].
  split; [rewrite Hget; exists ws; exact Hshape |].
  split; [tauto |].
  split; [rewrite Hget; tauto |].
  split; [rewrite Hget; exact Hlev |].
  split; [exact getHeadingLevel_eq |].
  split; [exact Hb |].
  split.
  - destruct Hend as [(j & Hj & He & Hc & Hbefore)|[He Hnone]].
    + left. exists j. repeat split; try tauto; try apply Hcl; auto.
      intros k Hk Hc'. apply Hcl in Hc'. rewrite (Hbefore k Hk) in Hc'. discriminate.
    + right. split; [exact He |]. intros k Hk Hc'. apply Hcl in Hc'.
      rewrite (Hnone k Hk) in Hc'. discriminate.
  - intros label. reflexivity.
Qed.

Definition docWithSections : list N :=
  join_lines [lit "# H"; lineA; lit "## sub"; lineB; lit "# G"; lineNote].

Lemma C5_section_boundaries_witness :
  exists endLine,
    sectionBounds (split_lines docWithSections) {| heading := lit "H"; sline := 0 |}
    = Some (1, endLine).
Proof.
  destruct (C5_section_boundaries docWithSections {| heading := lit "H"; sline := 0 |})
    as (L & text & endLine & _ & _ & _ & _ & _ & _ & Hb & _).
  - vm_compute. left. reflexivity.
  - exists endLine. exact Hb.
Defined.

End SorterClaims.

(* ================================================================= *)
(** ** The claims about the timestamp code and the post extractor *)

Module ExtractorClaims.
Local Open Scope Z_scope.

(** C9, as stated, fails: the code 202413011200 has month 13, which the
    Date constructor carries into the next year, so that the formatted
    code is 202501011200. *)
Lemma C9_counterexample_month_13 :
  strict_code (lit "- 202413011200 - x") = Some (lit "202413011200")
  /\ option_map (fun t => formattedTime utcHost (Some t))
       (parseTimestamp utcHost (lit "- 202413011200 - x"))
     = Some (lit "202501011200")
  /\ lit "202501011200" <> lit "202413011200".
Proof.
  split; [vm_compute; reflexivity |].
  split; [vm_compute; reflexivity |].
  vm_compute. discriminate.
Qed.

(** A year below 100 is read as 1900 + year, and does not come back
    either. *)
Lemma year_0050_becomes_1950 :
  option_map (fun t => formattedTime utcHost (Some t))
    (parseTimestamp utcHost (lit "- 005006181245 - x"))
  = Some (lit "195006181245").
Proof. vm_compute. reflexivity. Qed.

(** A host on US Eastern time in 2024: UTC-5, and UTC-4 from 10 March
    07:00 UTC to 3 November 06:00 UTC.  A local time that the change of
    offset skips or repeats is read with the offset in force before the
    change. *)
Definition easternOffset (t : Z) (isUTC : bool) : Z :=
  if isUTC then
    if (1710054000000 <=? t) && (t <? 1730613600000) then -14400000 else -18000000
  else
    if t <? 1710039600000 then -18000000
    else if t <? 1730599200000 then -14400000
    else -18000000.

Lemma easternOffset_bound t u : - msPerDay < easternOffset t u < msPerDay.
Proof.
  unfold easternOffset, msPerDay.
  destruct u;
    repeat match goal with
           | |- context [if ?b then _ else _] => destruct b
           end; lia.
Qed.

Definition easternHost : Host :=
  {| LocalTZA := easternOffset;
     LocalTZA_bound := easternOffset_bound;
     legacyParse := fun _ => None |}.

(** On that host the local time 02:30 of 10 March 2024 does not exist,
    and the code 202403100230 comes back as 202403100330. *)
Lemma skipped_local_time_changes_code :
  option_map (fun t => formattedTime easternHost (Some t))
    (parseTimestamp easternHost (lit "- 202403100230 - x"))
  = Some (lit "202403100330")
  /\ ~ localTimeExists easternHost
        (MakeDate (MakeDay 2024 (3 - 1) 10) (MakeTime 2 30 0 0)).
Proof.
  split; [vm_compute; reflexivity |].
  unfold localTimeExists. vm_compute. discriminate.
Qed.

(** C9 (amended) — For a line of the strict 12-digit form whose digits
    are a date and time that exist (year 1000 to 9999, month 01 to 12, day
    01 to the length of that month, hour 00 to 23, minute 00 to 59, and a
    local time that no change of the host's offset hides), formatting the
    parsed timestamp as YYYYMMDDHHmm gives back the 12 digits of the
    line. *)
Theorem C9_format_parse_roundtrip (h : Host) (line ds : list N) :
  RowShape line ds -> length ds = 12%nat ->
  let y := parseInt (substring 0 4 ds) in
  let mo := parseInt (substring 4 6 ds) in
  let d := parseInt (substring 6 8 ds) in
  let hh := parseInt (substring 8 10 ds) in
  let mi := parseInt (substring 10 12 ds) in
  1000 <= y -> validDate y mo d -> validTime hh mi ->
  localTimeExists h (MakeDate (MakeDay y (mo - 1) d) (MakeTime hh mi 0 0)) ->
  exists t, parseTimestamp h line = Some t /\ formattedTime h (Some t) = ds.
Proof.
  intros Hs Hl y mo d hh mi Hy Hd Ht Hex.
  exists (decode12 h ds). split.
  - rewrite parseTimestamp_code.
    assert (Hc : strict_code line = Some ds) by (apply strict_code_iff; auto).
    rewrite Hc, Hl. reflexivity.
  - destruct Hs as (ws1 & ws2 & ws3 & rest & _ & _ & _ & _ & _ & _ & _ & Hdig).
    destruct (twelve_fields ds Hdig Hl)
      as (Eds & [D1 L1] & [D2 L2] & [D3 L3] & [D4 L4] & [D5 L5]).
    unfold decode12. fold y mo d hh mi.
    destruct (Date_local_getters h y mo d hh mi ltac:(lia) Hd Ht Hex)
      as (G1 & G2 & G3 & G4 & G5).
    unfold formattedTime, pad, num_toString. cbn [option_map].
    rewrite G1, G2, G3, G4, G5. unfold y, mo, d, hh, mi.
    rewrite (toString_four _ D1 L1 Hy).
    rewrite (pad_two _ D2 L2), (pad_two _ D3 L3), (pad_two _ D4 L4), (pad_two _ D5 L5).
    symmetry. exact Eds.
Qed.

Lemma C9_format_parse_roundtrip_witness :
  exists t,
    parseTimestamp utcHost (lit "- 202406181245 - x") = Some t
    /\ formattedTime utcHost (Some t) = lit "202406181245".
Proof.
  apply (C9_format_parse_roundtrip utcHost (lit "- 202406181245 - x")
           (lit "202406181245")).
  - exists [32%N], [32%N], [32%N], [120%N].
    repeat split; try discriminate; repeat constructor.
  - reflexivity.
  - vm_compute. discriminate.
  - vm_compute. repeat split; discriminate.
  - vm_compute. repeat split; discriminate.
  - apply fixedHost_exists.
Defined.

(** The element of the end-to-end example. *)
Definition helloPost : Element :=
  [ (lit "post-title", lit "Hello");
    (lit "permalink", lit "/r/test/comments/abc123/hello/");
    (lit "created-timestamp", lit "2024-06-18T16:45:00Z") ].

Definition helloLine : list N :=
  lit "- 202406181245 - [Hello](https://www.reddit.com/r/test/comments/abc123/)".

(** On a host whose local time is UTC the example comes out as stated. *)
Lemma hello_on_utc_host : extractRedditPosts utcHost [helloPost] = [helloLine].
Proof. vm_compute. reflexivity. Qed.

(** C3 — The code reads the fields of the shifted instant with the
    local-time getters.  On a host on UTC-4 (US Eastern in summer) the
    example element gives 0845, eight hours behind UTC, and not the 1245
    of the claim. *)
Theorem C3_hello_on_utc_minus_4_host :
  extractRedditPosts edtHost [helloPost]
  = [lit "- 202406180845 - [Hello](https://www.reddit.com/r/test/comments/abc123/)"]
  /\ extractRedditPosts edtHost [helloPost] <> [helloLine].
Proof.
  split; [vm_compute; reflexivity | vm_compute; discriminate].
Qed.

(** What the extractor emits for a candidate whose timestamp parses: the
    fields are those of the instant minus four hours plus the host's own
    offset from UTC. *)
Lemma formattedTime_fields h t :
  formattedTime h (Some t)
  = Number_toString (YearFromTime (LocalTime h t))
    ++ padStart2 (Number_toString (MonthFromTime (LocalTime h t) + 1))
    ++ padStart2 (Number_toString (DateFromTime (LocalTime h t)))
    ++ padStart2 (Number_toString (HourFromTime (LocalTime h t)))
    ++ padStart2 (Number_toString (MinFromTime (LocalTime h t))).
Proof. reflexivity. Qed.

(** The local-time getters add the offset of the host to the instant
    they are given: the code printed on a host is the code that a host on
    UTC prints for the instant moved by the offset. *)
Lemma formattedTime_host_offset h t :
  formattedTime h (Some t) = formattedTime utcHost (Some (LocalTime h t)).
Proof.
  rewrite !formattedTime_fields.
  assert (E : forall x, LocalTime utcHost x = x).
  { intros x. unfold LocalTime. cbn [LocalTZA utcHost fixedHost].
    change (Z.max (-1439) (Z.min 1439 0) * msPerMinute) with 0. lia. }
  rewrite !E. reflexivity.
Qed.

(** The line of a candidate that passes the checks. *)
Lemma postLine_kept h elem title slug timestampStr m :
  attr elem (lit "post-title") = Some title -> title <> [] ->
  attr elem (lit "permalink") = Some slug -> slug <> [] ->
  attr elem (lit "created-timestamp") = Some timestampStr -> timestampStr <> [] ->
  match_anywhere permalink_re slug = Some m ->
  postLine h elem
  = Some (lit "- " ++ formattedTime h (edtTimeOf (Date_parse h timestampStr))
            ++ lit " - [" ++ title ++ lit "](" ++ lit "https://www.reddit.com"
            ++ nth 1 m [] ++ lit ")").
Proof.
  intros E1 N1 E2 N2 E3 N3 Em. unfold postLine. cbv zeta. rewrite E1, E2, E3.
  destruct title as [|c1 title]; [congruence |].
  destruct slug as [|c2 slug]; [congruence |].
  destruct timestampStr as [|c3 ts]; [congruence |].
  cbn [falsy orb]. rewrite Em. rewrite <- !app_assoc. reflexivity.
Qed.

(** A candidate that the extractor keeps. *)
Definition validCandidate (elem : Element) : Prop :=
  exists title slug timestampStr,
    attr elem (lit "post-title") = Some title /\ title <> []
    /\ attr elem (lit "permalink") = Some slug /\ slug <> []
    /\ attr elem (lit "created-timestamp") = Some timestampStr /\ timestampStr <> []
    /\ HasPermalinkPath slug.

Lemma falsy_false s : falsy s = false <-> exists v, s = Some v /\ v <> [].
Proof.
  destruct s as [[|c v]|]; simpl; split; try discriminate.
  - intros (v & H & Hv). inversion H; subst. congruence.
  - intros _. exists (c :: v). split; [reflexivity | discriminate].
  - intros _. reflexivity.
  - intros (v & H & _). discriminate.
Qed.

Lemma postLine_Some_iff h elem :
  postLine h elem <> None <-> validCandidate elem.
Proof.
  unfold postLine, validCandidate. cbv zeta.
  destruct (falsy (attr elem (lit "post-title"))) eqn:F1.
  { split; [intros H; contradiction H; reflexivity |].
    intros (title & slug & ts & H1 & N1 & _).
    assert (falsy (attr elem (lit "post-title")) = false)
      by (apply falsy_false; eauto).
    congruence. }
  destruct (falsy (attr elem (lit "permalink"))) eqn:F2.
  { split; [intros H; contradiction H; reflexivity |].
    intros (title & slug & ts & _ & _ & H2 & N2 & _).
    assert (falsy (attr elem (lit "permalink")) = false)
      by (apply falsy_false; eauto).
    congruence. }
  destruct (falsy (attr elem (lit "created-timestamp"))) eqn:F3.
  { split; [intros H; contradiction H; reflexivity |].
    intros (title & slug & ts & _ & _ & _ & _ & H3 & N3 & _).
    assert (falsy (attr elem (lit "created-timestamp")) = false)
      by (apply falsy_false; eauto).
    congruence. }
  cbn [orb].
  apply falsy_false in F1, F2, F3.
  destruct F1 as (title & E1 & N1), F2 as (slug & E2 & N2), F3 as (ts & E3 & N3).
  rewrite E1, E2, E3.
  destruct (match_anywhere permalink_re slug) as [m|] eqn:Em.
  - split; [|discriminate]. intros _. exists title, slug, ts.
    repeat split; auto. apply match_anywhere_permalink. congruence.
  - split; [intros H; contradiction H; reflexivity |].
    intros (title' & slug' & ts' & _ & _ & H2 & _ & _ & _ & Hp).
    inversion H2; subst slug'. apply match_anywhere_permalink in Hp. congruence.
Qed.

Definition linesOf (h : Host) (elem : Element) : list (list N) :=
  match postLine h elem with
  | Some l => [l]
  | None => []
  end.

Lemma extractRedditPosts_flat_map h posts :
  extractRedditPosts h posts = flat_map (linesOf h) posts.
Proof.
  unfold extractRedditPosts.
  enough (G : forall acc,
             fold_left (fun results elem =>
                          match postLine h elem with
                          | Some l => results ++ [l]
                          | None => results
                          end) posts acc
             = acc ++ flat_map (linesOf h) posts) by apply (G []).
  induction posts as [|e posts IH]; intros acc; simpl.
  - rewrite app_nil_r. reflexivity.
  - rewrite IH. unfold linesOf at 2.
    destruct (postLine h e); [rewrite <- app_assoc |]; reflexivity.
Qed.

(** C8 — A candidate gives an output line exactly when its title,
    permalink and created-timestamp attributes are present and not empty
    and a path [/r/<subreddit>/comments/<id>/] occurs in the permalink;
    any other candidate gives no line, and nothing is raised (the
    extractor is a total function).  The lines of the kept candidates come
    out in the order of the elements.  An element with a permalink but no
    title gives no line. *)
Theorem C8_invalid_candidates_dropped (h : Host) :
  (forall elem, postLine h elem <> None <-> validCandidate elem)
  /\ (forall elem, ~ validCandidate elem -> linesOf h elem = [])
  /\ (forall posts, extractRedditPosts h posts = flat_map (linesOf h) posts)
  /\ (forall earlier elem later,
        extractRedditPosts h (earlier ++ elem :: later)
        = extractRedditPosts h earlier ++ linesOf h elem
          ++ extractRedditPosts h later)
  /\ (forall slug, extractRedditPosts h [[(lit "permalink", slug)]] = []).
Proof.
  split; [intros elem; apply postLine_Some_iff |].
  split.
  { intros elem Hn. unfold linesOf. destruct (postLine h elem) eqn:E; [|reflexivity].
    exfalso. apply Hn. apply (postLine_Some_iff h). congruence. }
  split; [apply extractRedditPosts_flat_map |].
  split.
  { intros earlier elem later. rewrite !extractRedditPosts_flat_map.
    rewrite flat_map_app. reflexivity. }
  intros slug. reflexivity.
Qed.

End ExtractorClaims.

(* ================================================================= *)
(** ** More about the section sorter *)

Module SorterExtras.
Import SorterClaims.
Local Open Scope Z_scope.

Lemma get_opt_None lines i :
  get_opt lines i = None <-> ~ 0 <= i < Z.of_nat (length lines).
Proof.
  unfold get_opt. destruct (Z.ltb_spec i 0) as [Hi|Hi].
  - split; [intros _; lia | reflexivity].
  - rewrite nth_error_None. lia.
Qed.

Lemma sectionBounds_None lines section :
  sectionBounds lines section = None <->
  sline section <> -1 /\ ~ 0 <= sline section < Z.of_nat (length lines).
Proof.
  unfold sectionBounds. destruct (Z.eqb_spec (sline section) (-1)) as [E|E].
  - split; [discriminate | intros [H _]; contradiction].
  - destruct (get_opt lines (sline section)) as [l|] eqn:Eg.
    + split; [discriminate |]. intros [_ H]. apply get_opt_None in H. congruence.
    + apply get_opt_None in Eg. split; [intros _; auto | reflexivity].
Qed.

Lemma sort_None_iff h content section :
  sortTimestampsInSection h content section = None <->
  sectionBounds (split_lines content) section = None.
Proof.
  rewrite sortTimestampsInSection_eq.
  destruct (sectionBounds (split_lines content) section) as [[a b]|].
  - cbv zeta. destruct (length _ =? 0)%nat; split; discriminate.
  - split; reflexivity.
Qed.

Lemma offered_section_sorts h content section :
  In section (loadSectionsForFile content) ->
  sortTimestampsInSection h content section <> None.
Proof.
  intros Hin Hn. apply sort_None_iff, sectionBounds_None in Hn.
  destruct Hn as [Hne Hout]. destruct Hin as [<-|Hin]; [apply Hne; reflexivity |].
  apply headingsOf_In in Hin. destruct Hin as (i & l & m & Hnth & Hs & _).
  apply Hout. rewrite Hs.
  assert ((i < length (split_lines content))%nat) by (apply nth_error_Some; congruence).
  lia.
Qed.

(** X1 — The sort fails with an exception exactly when the section is
    not the whole document and its line index is outside the document;
    for every section that [loadSectionsForFile] offers for the same
    content it runs to its end. *)
Theorem sort_throws_only_out_of_range (h : Host) (content : list N) :
  (forall section,
     sortTimestampsInSection h content section = None <->
     sline section <> -1
     /\ ~ 0 <= sline section < Z.of_nat (length (split_lines content)))
  /\ (forall section,
        In section (loadSectionsForFile content) ->
        sortTimestampsInSection h content section <> None).
Proof.
  split.
  - intros section. rewrite sort_None_iff. apply sectionBounds_None.
  - intros section. apply offered_section_sorts.
Qed.

(** Lines of the section that [trim] leaves empty. *)
Definition blankCount (ls : list (list N)) : nat := length (filter blank ls).

Lemma rows_not_blank h lines idx :
  Forall (fun l => blank l = false)
    (List.map (get lines) (filter (isRowAt h lines) idx)).
Proof.
  apply Forall_forall. intros l Hl. apply in_map_iff in Hl.
  destruct Hl as (i & <- & Hi). apply filter_In in Hi. destruct Hi as [_ Hr].
  apply (row_not_blank h). exact Hr.
Qed.

Lemma filter_none {A} (p : A -> bool) l :
  Forall (fun x => p x = false) l -> filter p l = [].
Proof.
  intros H. induction H as [|x l Hx _ IH]; simpl; [reflexivity |].
  rewrite Hx. exact IH.
Qed.

Lemma filter_all {A} (p : A -> bool) l :
  Forall (fun x => p x = true) l -> filter p l = l.
Proof.
  intros H. induction H as [|x l Hx _ IH]; simpl; [reflexivity |].
  rewrite Hx, IH. reflexivity.
Qed.

Lemma sorted_lines_not_blank h lines a b :
  Forall (fun l => blank l = false)
    (List.map line (sortTimestampedEntries (entriesOf h lines a b))).
Proof.
  apply (Permutation_Forall (Permutation_map line (sort_perm compareEntries _))).
  rewrite entry_lines. apply rows_not_blank.
Qed.

Lemma kept_not_blank ls : Forall (fun l => blank l = false) (keptLines ls).
Proof.
  apply Forall_forall. intros l Hl. apply filter_In in Hl.
  destruct Hl as [_ Hl]. apply negb_true_iff in Hl. exact Hl.
Qed.

Lemma blankCount_section h lines a b :
  0 <= a -> a <= b + 1 -> b < Z.of_nat (length lines) ->
  (Z.to_nat (b - a + 1)
   - length (sortTimestampedEntries (entriesOf h lines a b))
   - length (keptLines (otherLines h lines a b)))%nat
  = blankCount (body lines a b).
Proof.
  intros Ha Hab Hb. rewrite sorted_length. unfold blankCount.
  rewrite <- (body_get lines a b Ha Hab Hb).
  pose proof (filter_split_length (isRowAt h lines) (range a b)) as Hn.
  unfold range in Hn at 3. rewrite upto_length in Hn.
  assert (Hperm : Permutation (List.map (get lines) (range a b))
                    (List.map (get lines) (rowsOf h lines a b)
                     ++ otherLines h lines a b)).
  { unfold otherLines, rowsOf, othersOf. rewrite <- map_app.
    apply Permutation_map, filter_split_perm. }
  rewrite (Permutation_length (perm_filter blank _ _ Hperm)).
  rewrite filter_app, length_app.
  pose proof (filter_none blank _ (rows_not_blank h lines (range a b))) as Hr.
  fold (rowsOf h lines a b) in Hr. rewrite Hr.
  cbn [length].
  pose proof (filter_split_length blank (otherLines h lines a b)) as Ho.
  fold (keptLines (otherLines h lines a b)) in Ho.
  assert (Hl : length (otherLines h lines a b) = length (othersOf h lines a b))
    by (unfold otherLines; apply length_map).
  unfold entriesOf. rewrite length_map. unfold rowsOf, othersOf in *. lia.
Qed.

(** X2 — After a rewrite the section consists of its lines that are not
    blank followed by empty lines, exactly as many as the old section had
    blank lines (empty or of white space only): the blank lines of a
    section all move to its end and lose their white space. *)
Theorem blank_lines_move_to_end (h : Host) (content : list N) (section : Section_)
    (newContent : list N) (rest : list effect) :
  sortTimestampsInSection h content section = Some (Modify newContent :: rest) ->
  exists a b,
    sectionBounds (split_lines content) section = Some (a, b)
    /\ body (split_lines newContent) a b
       = filter (fun l => negb (str_eqb (trim l) [])) (body (split_lines newContent) a b)
         ++ repeat []
              (length (filter (fun l => str_eqb (trim l) [])
                         (body (split_lines content) a b))).
Proof.
  intros H. apply rewrite_inv in H. destruct H as (a & b & Hb & Hne & ->).
  exists a, b. split; [exact Hb |].
  set (lines := split_lines content) in *.
  rewrite rewritten_lines; [|apply split_noLF | exact Hne].
  pose proof (sectionBounds_range lines section a b Hb) as (Ha & Hab & Hlb).
  assert (Hbody : body (before lines a ++ newBody h lines a b ++ behind lines b) a b
                  = newBody h lines a b).
  { unfold body.
    rewrite <- (before_length lines a Ha ltac:(lia)), skipn_length_app.
    rewrite <- (newBody_length h lines a b). apply firstn_length_app. }
  rewrite Hbody.
  change (fun l : list N => negb (str_eqb (trim l) [])) with notBlank.
  change (length (filter (fun l : list N => str_eqb (trim l) []) (body lines a b)))
    with (blankCount (body lines a b)).
  rewrite <- (blankCount_section h lines a b Ha Hab Hlb).
  unfold newBody. cbv zeta. rewrite !filter_app.
  assert (E1 : forall ls, Forall (fun l => blank l = false) ls -> filter notBlank ls = ls).
  { intros ls Hls. apply filter_all. apply Forall_impl with (2 := Hls).
    intros l Hl. unfold notBlank. rewrite Hl. reflexivity. }
  rewrite (E1 _ (sorted_lines_not_blank h lines a b)).
  rewrite (E1 _ (kept_not_blank _)).
  assert (E3 : forall n, filter notBlank (repeat (@nil N) n) = []).
  { induction n as [|n IH]; simpl; [reflexivity | exact IH]. }
  rewrite E3, app_nil_r, <- app_assoc. reflexivity.
Qed.

Lemma blank_lines_move_to_end_witness :
  exists a b,
    body (split_lines (join_lines [lineB; lineA; lineNote; []; []])) a b
    = filter (fun l => negb (str_eqb (trim l) []))
        (body (split_lines (join_lines [lineB; lineA; lineNote; []; []])) a b)
      ++ repeat []
           (length (filter (fun l => str_eqb (trim l) [])
                      (body (split_lines
                               (join_lines [lineA; lit "  "; lineNote; []; lineB]))
                         a b))).
Proof.
  destruct (blank_lines_move_to_end utcHost
              (join_lines [lineA; lit "  "; lineNote; []; lineB]) wholeDocument
              (join_lines [lineB; lineA; lineNote; []; []])
              [Notice (sortedNotice 2 entireDocument)])
    as (a & b & _ & H).
  - vm_compute. reflexivity.
  - exists a, b. exact H.
Defined.

(** *** Sorting what is already sorted *)

(** The scan, on the lines of the section themselves. *)
Fixpoint scanBody (h : Host) (a : Z) (ls : list (list N)) : list TimestampedEntry :=
  match ls with
  | [] => []
  | l :: ls' =>
      if isTimestampRow h l
      then {| line := l; timestamp := parseTimestamp h l; originalIndex := a |}
           :: scanBody h (a + 1) ls'
      else scanBody h (a + 1) ls'
  end.

Definition isRow (h : Host) (l : list N) : bool := isTimestampRow h l.
Definition nonRow (h : Host) (l : list N) : bool := negb (isTimestampRow h l).

Lemma entries_upto h lines : forall n a,
  List.map (mkEntry h lines) (filter (isRowAt h lines) (upto a n))
  = scanBody h a (List.map (get lines) (upto a n)).
Proof.
  induction n as [|n IH]; intros a; [reflexivity |].
  rewrite upto_S. cbn [filter List.map scanBody]. unfold isRowAt at 1.
  destruct (isTimestampRow h (get lines a)); cbn [List.map]; rewrite IH; reflexivity.
Qed.

Lemma others_upto h lines : forall n a,
  List.map (get lines) (filter (fun i => negb (isRowAt h lines i)) (upto a n))
  = filter (nonRow h) (List.map (get lines) (upto a n)).
Proof.
  induction n as [|n IH]; intros a; [reflexivity |].
  rewrite upto_S. cbn [filter List.map]. unfold isRowAt at 1, nonRow at 1.
  destruct (isTimestampRow h (get lines a)); cbn [negb List.map]; rewrite IH; reflexivity.
Qed.

Lemma entriesOf_body h lines a b :
  0 <= a -> a <= b + 1 -> b < Z.of_nat (length lines) ->
  entriesOf h lines a b = scanBody h a (body lines a b).
Proof.
  intros Ha Hab Hb. rewrite <- (body_get lines a b Ha Hab Hb).
  unfold entriesOf, rowsOf, range. apply entries_upto.
Qed.

Lemma otherLines_body h lines a b :
  0 <= a -> a <= b + 1 -> b < Z.of_nat (length lines) ->
  otherLines h lines a b = filter (nonRow h) (body lines a b).
Proof.
  intros Ha Hab Hb. rewrite <- (body_get lines a b Ha Hab Hb).
  unfold otherLines, othersOf, range. apply others_upto.
Qed.

Lemma scanBody_app h xs : forall a ys,
  scanBody h a (xs ++ ys)
  = scanBody h a xs ++ scanBody h (a + Z.of_nat (length xs)) ys.
Proof.
  induction xs as [|x xs IH]; intros a ys.
  - cbn [app scanBody length]. rewrite Z.add_0_r. reflexivity.
  - cbn [app scanBody length]. rewrite IH.
    replace (a + 1 + Z.of_nat (length xs)) with (a + Z.of_nat (S (length xs))) by lia.
    destruct (isTimestampRow h x); reflexivity.
Qed.

Lemma scanBody_none h xs : forall a,
  Forall (fun l => isTimestampRow h l = false) xs -> scanBody h a xs = [].
Proof.
  induction xs as [|x xs IH]; intros a H; [reflexivity |].
  inversion H as [|? ? Hx Hxs]; subst. cbn [scanBody]. rewrite Hx. apply IH. exact Hxs.
Qed.

(** The entries at new positions, one after the other from [a] on. *)
Fixpoint reindex (a : Z) (es : list TimestampedEntry) : list TimestampedEntry :=
  match es with
  | [] => []
  | e :: es' =>
      {| line := line e; timestamp := timestamp e; originalIndex := a |}
      :: reindex (a + 1) es'
  end.

(** An entry as the scan makes it. *)
Definition scanned (h : Host) (e : TimestampedEntry) : Prop :=
  isTimestampRow h (line e) = true /\ timestamp e = parseTimestamp h (line e).

Lemma scanBody_lines h es : forall a,
  Forall (scanned h) es -> scanBody h a (List.map line es) = reindex a es.
Proof.
  induction es as [|e es IH]; intros a H; [reflexivity |].
  inversion H as [|? ? [Hr Ht] Hes]; subst.
  cbn [List.map scanBody reindex]. rewrite Hr, <- Ht, IH by exact Hes. reflexivity.
Qed.

Lemma scanBody_scanned h ls : forall a, Forall (scanned h) (scanBody h a ls).
Proof.
  induction ls as [|l ls IH]; intros a; [constructor |].
  cbn [scanBody]. destruct (isTimestampRow h l) eqn:E; [|apply IH].
  constructor; [split; [exact E | reflexivity] | apply IH].
Qed.

Lemma reindex_length es : forall a, length (reindex a es) = length es.
Proof. induction es as [|e es IH]; intros a; simpl; [reflexivity | rewrite IH; reflexivity]. Qed.

Lemma reindex_lines es : forall a, List.map line (reindex a es) = List.map line es.
Proof. induction es as [|e es IH]; intros a; simpl; [reflexivity | rewrite IH; reflexivity]. Qed.

Lemma reindex_In es : forall a x,
  In x (reindex a es) ->
  a <= originalIndex x /\ exists e, In e es /\ timestamp x = timestamp e.
Proof.
  induction es as [|e es IH]; intros a x H; [destruct H |].
  destruct H as [<-|H].
  - cbn [originalIndex timestamp]. split; [lia |]. exists e. split; [left |]; reflexivity.
  - apply IH in H. destruct H as [Hi (e' & He & Ht)]. split; [lia |].
    exists e'. split; [right; exact He | exact Ht].
Qed.

Lemma reindex_sorted es : forall a,
  StronglySorted (le compareEntries) es ->
  StronglySorted (le compareEntries) (reindex a es).
Proof.
  induction es as [|e es IH]; intros a H; [constructor |].
  inversion H as [|? ? Hs Hf]; subst. cbn [reindex]. constructor; [apply IH; exact Hs |].
  apply Forall_forall. intros x Hx. apply reindex_In in Hx.
  destruct Hx as [Hi (e' & He & Ht)].
  rewrite Forall_forall in Hf. specialize (Hf e' He).
  unfold le, compareEntries in *. cbn [timestamp originalIndex]. rewrite Ht.
  destruct (timestamp e), (timestamp e'); lia.
Qed.

(** The sort leaves a list in order as it is. *)
Lemma sort_in_order {A} (cmp : A -> A -> Z) l :
  StronglySorted (le cmp) l -> JSArray.sort cmp l = l.
Proof.
  intros H. induction H as [|x l Hs IH Hx]; [reflexivity |].
  cbn [JSArray.sort fold_right]. fold (JSArray.sort cmp l). rewrite IH.
  destruct l as [|y l]; [reflexivity |].
  inversion Hx as [|? ? Hy _]; subst. unfold le in Hy. cbn [JSArray.insert].
  destruct (Z.gtb_spec (cmp x y) 0); [lia | reflexivity].
Qed.

Lemma find_agree {A} (f g : A -> bool) l :
  (forall x, In x l -> f x = g x) -> find f l = find g l.
Proof.
  induction l as [|x l IH]; intros H; [reflexivity |].
  cbn [find]. rewrite <- (H x (or_introl eq_refl)).
  destruct (f x); [reflexivity |]. apply IH. intros y Hy. apply H. right. exact Hy.
Qed.

(** The lines of a document whose section has been replaced. *)
Lemma get_replaced lines a b nb i :
  0 <= a -> a <= b + 1 -> b < Z.of_nat (length lines) ->
  length nb = Z.to_nat (b - a + 1) -> 0 <= i ->
  get (before lines a ++ nb ++ behind lines b) i
  = if (a <=? i) && (i <=? b) then nth (Z.to_nat (i - a)) nb [] else get lines i.
Proof.
  intros Ha Hab Hb Hn Hi. unfold get.
  pose proof (before_length lines a Ha ltac:(lia)) as HP.
  pose proof (body_length lines a b Ha Hab Hb) as HB.
  pose proof (lines_split lines a b Ha Hab Hb) as Hsp.
  set (P := before lines a) in *. set (Q := behind lines b) in *.
  set (B := body lines a b) in *. clearbody P Q B. subst lines.
  destruct (Z.leb_spec a i) as [H1|H1]; cbn [andb].
  - destruct (Z.leb_spec i b) as [H2|H2].
    + rewrite app_nth2 by lia. rewrite app_nth1 by lia. f_equal. lia.
    + rewrite !app_nth2 by lia. f_equal. lia.
  - rewrite !app_nth1 by lia. reflexivity.
Qed.

Lemma get_opt_nth lines i : 0 <= i < Z.of_nat (length lines) ->
  get_opt lines i = Some (get lines i).
Proof.
  intros H. unfold get_opt, get. destruct (Z.ltb_spec i 0); [lia |].
  apply nth_error_nth'. lia.
Qed.

Lemma replaced_length lines a b nb :
  0 <= a -> a <= b + 1 -> b < Z.of_nat (length lines) ->
  length nb = Z.to_nat (b - a + 1) ->
  length (before lines a ++ nb ++ behind lines b) = length lines.
Proof.
  intros Ha Hab Hb Hn.
  pose proof (f_equal (@length _) (lines_split lines a b Ha Hab Hb)) as Hsp.
  pose proof (body_length lines a b Ha Hab Hb) as HB.
  rewrite !length_app in *. lia.
Qed.

Lemma body_In_get lines a b l :
  0 <= a -> a <= b + 1 -> b < Z.of_nat (length lines) ->
  In l (body lines a b) -> exists i, a <= i <= b /\ get lines i = l.
Proof.
  intros Ha Hab Hb H. rewrite <- (body_get lines a b Ha Hab Hb) in H.
  apply in_map_iff in H. destruct H as (i & E & Hi). apply range_In in Hi.
  exists i. split; assumption.
Qed.

Lemma level_nil : getHeadingLevel [] = 0.
Proof. reflexivity. Qed.

(** Replacing the section by lines of the section and empty lines leaves
    the boundaries where they are. *)
Lemma sectionBounds_replaced lines section a b nb :
  sectionBounds lines section = Some (a, b) ->
  length nb = Z.to_nat (b - a + 1) ->
  (forall l, In l nb -> In l (body lines a b) \/ l = []) ->
  sectionBounds (before lines a ++ nb ++ behind lines b) section = Some (a, b).
Proof.
  intros Hb Hn Hin.
  pose proof (sectionBounds_range lines section a b Hb) as (Ha & Hab & Hlb).
  pose proof (replaced_length lines a b nb Ha Hab Hlb Hn) as Hlen.
  revert Hb. unfold sectionBounds. rewrite Hlen.
  destruct (sline section =? -1); [auto |].
  destruct (get_opt lines (sline section)) as [hl|] eqn:Eg; [|discriminate].
  apply get_opt_Some in Eg. destruct Eg as [Hr Eg].
  cbv zeta.
  set (f := fun i : Z =>
              (getHeadingLevel (get lines i) >? 0)
              && (getHeadingLevel (get lines i) <=? getHeadingLevel hl)).
  intros Hb.
  assert (Ea : a = sline section + 1) by (destruct (find f _); inversion Hb; reflexivity).
  assert (Hlow : forall j, a <= j <= b -> f j = false).
  { intros j Hj. rewrite <- Ea in Hb.
    destruct (find f (upto a (length lines - Z.to_nat a))) as [i0|] eqn:Ef.
    - apply find_upto in Ef. destruct Ef as (_ & _ & Hall).
      inversion Hb; subst b. apply Hall. lia.
    - apply (find_upto_none f _ _ Ef). inversion Hb; subst b. lia. }
  rewrite get_opt_nth by lia.
  rewrite (get_replaced lines a b nb (sline section) Ha Hab Hlb Hn) by lia.
  destruct (Z.leb_spec a (sline section)); [lia |]. cbn [andb]. rewrite Eg.
  rewrite <- Hb. f_equal. f_equal.
  replace (find _ (upto (sline section + 1) (length lines - Z.to_nat (sline section + 1))))
    with (find f (upto (sline section + 1) (length lines - Z.to_nat (sline section + 1)))).
  { reflexivity. }
  apply find_agree. intros i Hi. apply upto_In in Hi. rewrite <- Ea in Hi.
  rewrite (get_replaced lines a b nb i Ha Hab Hlb Hn) by lia.
  destruct (Z.leb_spec a i); [|lia]. cbn [andb].
  destruct (Z.leb_spec i b) as [Hib|Hib]; [|reflexivity].
  rewrite (Hlow i ltac:(lia)).
  assert (Hnth : In (nth (Z.to_nat (i - a)) nb []) nb) by (apply nth_In; lia).
  apply Hin in Hnth. destruct Hnth as [Hbody| ->].
  - apply (body_In_get lines a b _ Ha Hab Hlb) in Hbody.
    destruct Hbody as (j & Hj & <-). exact (eq_sym (Hlow j Hj)).
  - rewrite level_nil. reflexivity.
Qed.

Lemma replaced_frame lines a b nb :
  0 <= a -> a <= b + 1 -> b < Z.of_nat (length lines) ->
  length nb = Z.to_nat (b - a + 1) ->
  before (before lines a ++ nb ++ behind lines b) a = before lines a
  /\ body (before lines a ++ nb ++ behind lines b) a b = nb
  /\ behind (before lines a ++ nb ++ behind lines b) b = behind lines b.
Proof.
  intros Ha Hab Hb Hn.
  pose proof (before_length lines a Ha ltac:(lia)) as HP.
  repeat split.
  - unfold before at 1. rewrite <- HP at 1. apply firstn_length_app.
  - unfold body. rewrite <- HP at 1. rewrite skipn_length_app, <- Hn.
    apply firstn_length_app.
  - unfold behind at 1. rewrite app_assoc.
    replace (Z.to_nat (b + 1)) with (length (before lines a ++ nb))
      by (rewrite length_app; lia).
    apply skipn_length_app.
Qed.

Lemma sorted_scanned h lines a b :
  0 <= a -> a <= b + 1 -> b < Z.of_nat (length lines) ->
  Forall (scanned h) (sortTimestampedEntries (entriesOf h lines a b)).
Proof.
  intros Ha Hab Hb.
  apply (Permutation_Forall (sort_perm compareEntries _)).
  rewrite entriesOf_body by assumption. apply scanBody_scanned.
Qed.

Lemma not_row_blank h l : blank l = true -> isTimestampRow h l = false.
Proof.
  intros H. destruct (isTimestampRow h l) eqn:E; [|reflexivity].
  apply row_not_blank in E. congruence.
Qed.

Lemma kept_not_rows h lines a b :
  0 <= a -> a <= b + 1 -> b < Z.of_nat (length lines) ->
  Forall (fun l => isTimestampRow h l = false) (keptLines (otherLines h lines a b)).
Proof.
  intros Ha Hab Hb. rewrite otherLines_body by assumption.
  apply Forall_forall. intros l Hl. apply filter_In in Hl. destruct Hl as [Hl _].
  apply filter_In in Hl. destruct Hl as [_ Hl]. unfold nonRow in Hl.
  apply negb_true_iff in Hl. exact Hl.
Qed.

Lemma repeat_not_rows h n :
  Forall (fun l => isTimestampRow h l = false) (repeat (@nil N) n).
Proof.
  apply Forall_forall. intros l Hl. apply repeat_spec in Hl. subst l.
  apply not_row_blank. reflexivity.
Qed.

(** The scan of the section that the sort has written: the sorted
    entries at their new places, then the other lines. *)
Lemma scan_newBody h lines a b :
  0 <= a -> a <= b + 1 -> b < Z.of_nat (length lines) ->
  scanBody h a (newBody h lines a b)
  = reindex a (sortTimestampedEntries (entriesOf h lines a b))
  /\ filter (nonRow h) (newBody h lines a b)
     = keptLines (otherLines h lines a b)
       ++ repeat [] (Z.to_nat (b - a + 1)
                     - length (sortTimestampedEntries (entriesOf h lines a b))
                     - length (keptLines (otherLines h lines a b))).
Proof.
  intros Ha Hab Hb. unfold newBody. cbv zeta.
  pose proof (sorted_scanned h lines a b Ha Hab Hb) as Hsc.
  pose proof (kept_not_rows h lines a b Ha Hab Hb) as Hk.
  split.
  - rewrite scanBody_app, (scanBody_lines h _ a Hsc).
    rewrite scanBody_none; [apply app_nil_r |].
    apply Forall_app. split; [exact Hk | apply repeat_not_rows].
  - rewrite !filter_app.
    rewrite (filter_none (nonRow h) (List.map line _)).
    2:{ apply Forall_forall. intros l Hl. apply in_map_iff in Hl.
        destruct Hl as (e & <- & He). rewrite Forall_forall in Hsc.
        destruct (Hsc e He) as [Hr _]. unfold nonRow. rewrite Hr. reflexivity. }
    cbn [app]. f_equal; apply filter_all.
    + apply Forall_impl with (2 := Hk). intros l Hl. unfold nonRow. rewrite Hl. reflexivity.
    + apply Forall_impl with (2 := repeat_not_rows h _).
      intros l Hl. unfold nonRow. rewrite Hl. reflexivity.
Qed.

Lemma sorted_in_order es :
  StronglySorted (le compareEntries) (sortTimestampedEntries es).
Proof. apply sort_sorted; [exact compareEntries_trans | exact compareEntries_total]. Qed.

(** The section that the sort writes is a fixed point of the sort. *)
Lemma newBody_again h lines a b :
  0 <= a -> a <= b + 1 -> b < Z.of_nat (length lines) ->
  let lines' := before lines a ++ newBody h lines a b ++ behind lines b in
  length (entriesOf h lines' a b) = length (entriesOf h lines a b)
  /\ newBody h lines' a b = newBody h lines a b.
Proof.
  intros Ha Hab Hb lines'.
  pose proof (newBody_length h lines a b) as Hn.
  pose proof (replaced_length lines a b _ Ha Hab Hb Hn) as Hlen.
  destruct (replaced_frame lines a b _ Ha Hab Hb Hn) as (_ & Hbody & _).
  fold lines' in Hlen, Hbody.
  assert (Hb' : b < Z.of_nat (length lines')) by lia.
  destruct (scan_newBody h lines a b Ha Hab Hb) as [Es Eo].
  assert (Ee : entriesOf h lines' a b
               = reindex a (sortTimestampedEntries (entriesOf h lines a b))).
  { rewrite entriesOf_body by assumption. rewrite Hbody. exact Es. }
  split; [rewrite Ee, reindex_length; apply sorted_length |].
  unfold newBody at 1. cbv zeta.
  rewrite (otherLines_body h lines' a b Ha Hab Hb'), Hbody, Eo, Ee.
  assert (Eso : sortTimestampedEntries
                  (reindex a (sortTimestampedEntries (entriesOf h lines a b)))
                = reindex a (sortTimestampedEntries (entriesOf h lines a b))).
  { unfold sortTimestampedEntries at 1.
    apply sort_in_order, reindex_sorted, sorted_in_order. }
  rewrite !Eso, reindex_lines, reindex_length.
  assert (Ek : keptLines
                 (keptLines (otherLines h lines a b)
                  ++ repeat [] (Z.to_nat (b - a + 1)
                                - length (sortTimestampedEntries (entriesOf h lines a b))
                                - length (keptLines (otherLines h lines a b))))
               = keptLines (otherLines h lines a b)).
  { unfold keptLines at 1. rewrite filter_app.
    rewrite (filter_none _ (repeat [] _)).
    2:{ apply Forall_forall. intros l Hl. apply repeat_spec in Hl. subst l. reflexivity. }
    rewrite app_nil_r. apply filter_all.
    apply Forall_impl with (2 := kept_not_blank (otherLines h lines a b)).
    intros l Hl. rewrite Hl. reflexivity. }
  rewrite Ek. unfold newBody. reflexivity.
Qed.

(** X7 — Sorting is idempotent: when the sort has rewritten a section,
    sorting the same section of the written document writes the same
    document again, with the same notice. *)
Theorem sort_twice_same (h : Host) (content : list N) (section : Section_)
    (newContent : list N) (rest : list effect) :
  sortTimestampsInSection h content section = Some (Modify newContent :: rest) ->
  sortTimestampsInSection h newContent section = Some (Modify newContent :: rest).
Proof.
  rewrite (sortTimestampsInSection_eq h content).
  destruct (sectionBounds (split_lines content) section) as [[a b]|] eqn:Eb;
    [|discriminate].
  cbv zeta. set (lines := split_lines content) in *.
  destruct (length (entriesOf h lines a b) =? 0)%nat eqn:E0; [discriminate |].
  intros H. inversion H as [[Hc Hr]]. clear H.
  pose proof (sectionBounds_range lines section a b Eb) as (Ha & Hab & Hb).
  assert (Hne : entriesOf h lines a b <> []).
  { intros E. rewrite E in E0. discriminate. }
  set (lines' := before lines a ++ newBody h lines a b ++ behind lines b) in *.
  assert (Hs : split_lines (join_lines lines') = lines').
  { apply rewritten_lines; [apply split_noLF | exact Hne]. }
  rewrite sortTimestampsInSection_eq, Hs.
  assert (Eb' : sectionBounds lines' section = Some (a, b)).
  { apply sectionBounds_replaced; [exact Eb | apply newBody_length |].
    intros l. apply newBody_In; assumption. }
  rewrite Eb'. cbv zeta.
  destruct (newBody_again h lines a b Ha Hab Hb) as [El En].
  fold lines' in El, En. rewrite El, E0, En.
  destruct (replaced_frame lines a b (newBody h lines a b) Ha Hab Hb
              (newBody_length h lines a b)) as (Ef & _ & Eh).
  fold lines' in Ef, Eh. rewrite Ef, Eh. reflexivity.
Qed.

Lemma sort_twice_same_witness :
  sortTimestampsInSection edtHost
    (join_lines [lineB; lineA; lineNote; []; []]) wholeDocument
  = Some [Modify (join_lines [lineB; lineA; lineNote; []; []]);
          Notice (sortedNotice 2 entireDocument)].
Proof.
  apply (sort_twice_same edtHost
           (join_lines [lineA; lit "  "; lineNote; []; lineB])).
  vm_compute. reflexivity.
Defined.



(** *** A section without lines *)

Lemma range_empty a : range (a + 1) a = [].
Proof. unfold range. replace (Z.to_nat (a - (a + 1) + 1)) with O by lia. reflexivity. Qed.

(** X15 — A heading that is the last line of the document, or that is
    directly followed by a heading of its own level or above, has a
    section without lines: the sort reports that there is nothing to
    sort and writes nothing. *)
Theorem empty_section_nothing_to_sort (h : Host) (content : list N)
    (section : Section_) (headingLine : list N) :
  sline section <> -1 ->
  get_opt (split_lines content) (sline section) = Some headingLine ->
  sline section = Z.of_nat (length (split_lines content)) - 1
  \/ 0 < getHeadingLevel (get (split_lines content) (sline section + 1))
         <= getHeadingLevel headingLine ->
  sortTimestampsInSection h content section = Some [Notice nothingNotice].
Proof.
  intros Hne Hg Hcase. set (lines := split_lines content) in *.
  assert (Eb : sectionBounds lines section = Some (sline section + 1, sline section)).
  { unfold sectionBounds. destruct (Z.eqb_spec (sline section) (-1)); [contradiction |].
    rewrite Hg. cbv zeta. f_equal. f_equal.
    pose proof (get_opt_Some _ _ _ Hg) as [Hr _].
    destruct Hcase as [Hlast|Hnext].
    - replace (length lines - Z.to_nat (sline section + 1))%nat with O by lia.
      cbn [upto seq List.map find]. lia.
    - destruct (length lines - Z.to_nat (sline section + 1))%nat as [|k] eqn:Ek.
      + cbn [upto seq List.map find]. lia.
      + rewrite upto_S. cbn [find].
        replace (getHeadingLevel (get lines (sline section + 1)) >? 0) with true
          by (symmetry; apply Z.gtb_lt; lia).
        replace (getHeadingLevel (get lines (sline section + 1))
                 <=? getHeadingLevel headingLine) with true
          by (symmetry; apply Z.leb_le; lia).
        cbn [andb]. lia. }
  rewrite sortTimestampsInSection_eq. fold lines. rewrite Eb. cbv zeta.
  unfold entriesOf, rowsOf. rewrite range_empty. reflexivity.
Qed.

Lemma empty_section_nothing_to_sort_witness :
  sortTimestampsInSection edtHost
    (join_lines [lit "# Log"; lit "# Notes"; lineA])
    {| heading := lit "Log"; sline := 0 |}
  = Some [Notice nothingNotice].
Proof.
  apply (empty_section_nothing_to_sort edtHost
           (join_lines [lit "# Log"; lit "# Notes"; lineA])
           {| heading := lit "Log"; sline := 0 |} (lit "# Log")).
  - discriminate.
  - reflexivity.
  - right. vm_compute. split; [reflexivity | discriminate].
Defined.

(** *** The time zone of the host *)

(** A host whose offset from UTC never changes. *)
Definition constantOffset (h : Host) : Prop :=
  forall t1 t2, LocalTZA h t1 false = LocalTZA h t2 false.

Definition shift (c : Z) (e : TimestampedEntry) : TimestampedEntry :=
  {| line := line e; timestamp := option_map (fun t => t - c) (timestamp e);
     originalIndex := originalIndex e |}.

Lemma Date_local_constant h y mo d hh mi :
  constantOffset h ->
  Date_local h y mo d hh mi = Date_local utcHost y mo d hh mi - LocalTZA h 0 false.
Proof.
  intros Hc. unfold Date_local, UTC.
  set (yr := if (0 <=? y) && (y <=? 99) then 1900 + y else y).
  set (x := MakeDate (MakeDay yr mo d) (MakeTime hh mi 0 0)).
  rewrite (Hc x 0). cbn [LocalTZA utcHost fixedHost].
  change (Z.max (-1439) (Z.min 1439 0) * msPerMinute) with 0. lia.
Qed.

Lemma parseTimestamp_constant h l :
  constantOffset h ->
  parseTimestamp h l
  = option_map (fun t => t - LocalTZA h 0 false) (parseTimestamp utcHost l).
Proof.
  intros Hc. rewrite !parseTimestamp_code.
  destruct (strict_code l) as [ds|]; [|reflexivity].
  destruct (length ds =? 8)%nat.
  - cbn [option_map]. f_equal. unfold decode8. apply Date_local_constant. exact Hc.
  - destruct (length ds =? 12)%nat; [|reflexivity].
    cbn [option_map]. f_equal. unfold decode12. apply Date_local_constant. exact Hc.
Qed.

Lemma isTimestampRow_constant h l :
  constantOffset h -> isTimestampRow h l = isTimestampRow utcHost l.
Proof.
  intros Hc. unfold isTimestampRow. rewrite (parseTimestamp_constant h l Hc).
  destruct (parseTimestamp utcHost l); reflexivity.
Qed.

Lemma compareEntries_shift c a b :
  compareEntries (shift c a) (shift c b) = compareEntries a b.
Proof.
  unfold compareEntries, shift. cbn [timestamp originalIndex].
  destruct (timestamp a), (timestamp b); cbn [option_map]; lia.
Qed.

Lemma insert_map {A} (cmp : A -> A -> Z) (f : A -> A) :
  (forall a b, cmp (f a) (f b) = cmp a b) ->
  forall x l, JSArray.insert cmp (f x) (List.map f l) = List.map f (JSArray.insert cmp x l).
Proof.
  intros Hf x l. induction l as [|y l IH]; [reflexivity |].
  cbn [List.map JSArray.insert]. rewrite Hf.
  destruct (cmp x y >? 0); cbn [List.map]; [rewrite IH |]; reflexivity.
Qed.

Lemma sort_map {A} (cmp : A -> A -> Z) (f : A -> A) :
  (forall a b, cmp (f a) (f b) = cmp a b) ->
  forall l, JSArray.sort cmp (List.map f l) = List.map f (JSArray.sort cmp l).
Proof.
  intros Hf l. induction l as [|x l IH]; [reflexivity |].
  cbn [List.map JSArray.sort fold_right].
  change (fold_right (JSArray.insert cmp) [] (List.map f l))
    with (JSArray.sort cmp (List.map f l)).
  rewrite IH. apply insert_map. exact Hf.
Qed.

Lemma filter_agree {A} (f g : A -> bool) l :
  (forall x, f x = g x) -> filter f l = filter g l.
Proof.
  intros H. induction l as [|x l IH]; [reflexivity |].
  cbn [filter]. rewrite H, IH. reflexivity.
Qed.

Lemma newBody_constant h lines a b :
  constantOffset h ->
  length (entriesOf h lines a b) = length (entriesOf utcHost lines a b)
  /\ newBody h lines a b = newBody utcHost lines a b.
Proof.
  intros Hc.
  assert (Er : rowsOf h lines a b = rowsOf utcHost lines a b).
  { unfold rowsOf. apply filter_agree. intros i. unfold isRowAt.
    apply isTimestampRow_constant. exact Hc. }
  assert (Eo : otherLines h lines a b = otherLines utcHost lines a b).
  { unfold otherLines, othersOf. apply (f_equal (List.map (get lines))).
    apply filter_agree. intros i.
    unfold isRowAt. rewrite (isTimestampRow_constant h _ Hc). reflexivity. }
  assert (Ee : entriesOf h lines a b
               = List.map (shift (LocalTZA h 0 false)) (entriesOf utcHost lines a b)).
  { unfold entriesOf. rewrite Er, map_map. apply map_ext. intros i.
    unfold mkEntry, shift. cbn [line timestamp originalIndex].
    rewrite (parseTimestamp_constant h _ Hc). reflexivity. }
  split; [rewrite Ee; apply length_map |].
  unfold newBody. cbv zeta. rewrite Eo, Ee. unfold sortTimestampedEntries.
  rewrite (sort_map compareEntries _ (compareEntries_shift _)).
  rewrite map_map, length_map. reflexivity.
Qed.

(** X16 — The sort does not depend on the time zone of the host, as
    long as the offset from UTC does not change: two hosts with constant
    offsets do the same to every document and section. *)
Theorem sort_same_in_every_constant_zone (h1 h2 : Host) (content : list N)
    (section : Section_) :
  (forall t1 t2, LocalTZA h1 t1 false = LocalTZA h1 t2 false) ->
  (forall t1 t2, LocalTZA h2 t1 false = LocalTZA h2 t2 false) ->
  sortTimestampsInSection h1 content section
  = sortTimestampsInSection h2 content section.
Proof.
  intros H1 H2. rewrite !sortTimestampsInSection_eq.
  destruct (sectionBounds (split_lines content) section) as [[a b]|]; [|reflexivity].
  cbv zeta.
  destruct (newBody_constant h1 (split_lines content) a b H1) as [L1 B1].
  destruct (newBody_constant h2 (split_lines content) a b H2) as [L2 B2].
  rewrite L1, L2, B1, B2. reflexivity.
Qed.

Lemma sort_same_in_every_constant_zone_witness :
  sortTimestampsInSection edtHost
    (join_lines [lineA; lit "  "; lineNote; []; lineB]) wholeDocument
  = sortTimestampsInSection (fixedHost 540)
      (join_lines [lineA; lit "  "; lineNote; []; lineB]) wholeDocument.
Proof.
  apply (sort_same_in_every_constant_zone edtHost (fixedHost 540)).
  - intros t1 t2. reflexivity.
  - intros t1 t2. reflexivity.
Defined.

End SorterExtras.

(* ================================================================= *)
(** ** The headings offered for choice *)

Module HeadingExtras.
Local Open Scope Z_scope.

(** A repetition succeeds as soon as some admissible number of
    characters leads to a rest that the continuation accepts. *)
Lemma rep_complete p s : forall lo hi k n,
  (lo <= n)%nat -> le_hi n hi = true -> (n <= prefix_len p s)%nat ->
  k (skipn n s) <> None -> rep p lo hi s k <> None.
Proof.
  induction s as [|c s IH]; intros lo hi k n Hlo Hhi Hn Hk.
  - cbn [prefix_len] in Hn. assert (n = O) by lia. subst n.
    assert (lo = O) by lia. subst lo. exact Hk.
  - destruct n as [|n].
    + assert (lo = O) by lia. subst lo. cbn [skipn] in Hk. cbn [rep].
      destruct (p c && more hi); [|exact Hk].
      destruct (rep p (pred 0) (option_map pred hi) s k); [discriminate | exact Hk].
    + cbn [prefix_len] in Hn. destruct (p c) eqn:Hc; [|lia].
      assert (Hm : more hi = true).
      { destruct hi as [[|m]|]; simpl in *; auto; discriminate. }
      cbn [rep]. rewrite Hc, Hm. cbn [andb].
      assert (G : rep p (pred lo) (option_map pred hi) s k <> None).
      { apply (IH _ _ _ n); try lia.
        - destruct hi as [[|m]|]; simpl in *; auto; discriminate.
        - exact Hk. }
      destruct (rep p (pred lo) (option_map pred hi) s k); [discriminate | contradiction].
Qed.

Lemma prefix_len_full p s : all p s -> prefix_len p s = length s.
Proof.
  intros H. induction H as [|c s Hc _ IH]; simpl; [reflexivity |].
  rewrite Hc, IH. reflexivity.
Qed.

Lemma shape_after l level text ws :
  l = repeat 35%N level ++ ws ++ text -> hashes l = level ->
  after isHash l = ws ++ text.
Proof.
  intros El Hh. unfold after. fold (hashes l). rewrite Hh. rewrite El at 1.
  rewrite <- (repeat_length 35%N level) at 1. apply skipn_length_app.
Qed.

(** The continuation of the heading pattern after the white space. *)
Definition title_k (l : list N) : list N -> option mres :=
  fun s' =>
    rmatch (seqs [RGroup (plus isDot); REnd]) s' [firstn (hashes l) l] accept.

Lemma title_k_all l text :
  text <> [] -> all isDot text ->
  title_k l text = Some ([], [firstn (hashes l) l; text]).
Proof.
  intros Hne Hall. unfold title_k, plus. cbn [seqs rmatch].
  rewrite rep_greedy; rewrite (prefix_len_full _ _ Hall); rewrite ?skipn_all.
  - unfold accept. cbn [length app]. rewrite Nat.sub_0_r, firstn_all. reflexivity.
  - apply nonempty_length. exact Hne.
  - discriminate.
Qed.

Lemma match_heading_eq l :
  match_start heading_re l =
  if (1 <=? hashes l)%nat && (hashes l <=? 6)%nat
  then match rep isSpace 1 None (after isHash l) (title_k l) with
       | Some (rest, caps) => Some (firstn (length l - length rest) l :: caps)
       | None => None
       end
  else None.
Proof.
  unfold match_start, heading_re, plus, between. cbn [seqs rmatch].
  rewrite rep_commit.
  2:{ intros c t Hc. apply rep_short. simpl. rewrite (hash_not_space c Hc). lia. }
  fold (hashes l). cbn [le_hi].
  destruct ((1 <=? hashes l)%nat && (hashes l <=? 6)%nat); [|reflexivity].
  change (skipn (hashes l) l) with (after isHash l).
  rewrite taken_length. reflexivity.
Qed.

(** Every line of the heading shape is accepted by the pattern of the
    discovery. *)
Lemma heading_re_complete l level text :
  HeadingShape l level text -> match_start heading_re l <> None.
Proof.
  intros (ws & El & Hlv & Hh & Hne & Hws & Hte & Htx).
  rewrite match_heading_eq, Hh.
  destruct (Nat.leb_spec 1 level), (Nat.leb_spec level 6); try lia. cbn [andb].
  rewrite (shape_after l level text ws El Hh).
  assert (G : rep isSpace 1 None (ws ++ text) (title_k l) <> None).
  { apply (rep_complete _ _ _ _ _ (length ws)).
    - apply nonempty_length. exact Hne.
    - reflexivity.
    - apply prefix_len_ge. exact Hws.
    - rewrite skipn_length_app, (title_k_all l text Hte Htx). discriminate. }
  destruct (rep isSpace 1 None (ws ++ text) (title_k l)) as [[rest caps]|];
    [discriminate | contradiction].
Qed.

(** When something other than white space follows the [#] and the white
    space, the title is the line from there on. *)
Lemma heading_title l m :
  match_start heading_re l = Some m ->
  after isSpace (after isHash l) <> [] ->
  nth 2 m [] = after isSpace (after isHash l).
Proof.
  intros Hm Hne. pose proof (heading_re_shape l m Hm) as Hs.
  destruct Hs as (ws & El & Hlv & Hh & Hwn & Hws & Hte & Htx).
  pose proof (shape_after l _ _ ws El Hh) as Ea.
  rewrite match_heading_eq in Hm.
  destruct ((1 <=? hashes l)%nat && (hashes l <=? 6)%nat); [|discriminate].
  assert (Hall : all isDot (after isSpace (after isHash l))).
  { unfold after at 1. rewrite Ea.
    pose proof (prefix_len_ge isSpace ws (nth 2 m []) Hws) as Hge.
    replace (prefix_len isSpace (ws ++ nth 2 m []))
      with ((prefix_len isSpace (ws ++ nth 2 m []) - length ws) + length ws)%nat by lia.
    rewrite <- skipn_skipn, skipn_length_app.
    rewrite <- (firstn_skipn (prefix_len isSpace (ws ++ nth 2 m []) - length ws)
                 (nth 2 m [])) in Htx.
    apply Forall_app in Htx. apply Htx. }
  rewrite rep_greedy in Hm.
  - change (skipn (prefix_len isSpace (after isHash l)) (after isHash l))
      with (after isSpace (after isHash l)) in Hm.
    rewrite (title_k_all l _ Hne Hall) in Hm. inversion Hm. reflexivity.
  - rewrite Ea. pose proof (prefix_len_ge isSpace ws (nth 2 m []) Hws).
    apply nonempty_length in Hwn. lia.
  - change (skipn (prefix_len isSpace (after isHash l)) (after isHash l))
      with (after isSpace (after isHash l)).
    rewrite (title_k_all l _ Hne Hall). discriminate.
Qed.

(** The entry that the discovery adds for one line. *)
Definition headingAt (index : Z) (l : list N) : list Section_ :=
  match match_start heading_re l with
  | Some headingMatch =>
      [{| heading := concat (repeat (lit "  ") (length (nth 1 headingMatch []) - 1))
                     ++ nth 2 headingMatch [];
          sline := index |}]
  | None => []
  end.

Lemma headingsOf_flat lines :
  headingsOf lines =
  flat_map (fun p => headingAt (fst p) (snd p))
    (combine (upto 0 (length lines)) lines).
Proof.
  unfold headingsOf. generalize (combine (upto 0 (length lines)) lines) as xs.
  intros xs.
  match goal with
  | |- fold_left ?F xs [] = _ =>
      enough (G : forall acc,
                fold_left F xs acc
                = acc ++ flat_map (fun p => headingAt (fst p) (snd p)) xs)
        by apply (G [])
  end.
  induction xs as [|[i l] xs IH]; intros acc; cbn [fold_left flat_map].
  - symmetry. apply app_nil_r.
  - rewrite IH. cbn [fst snd]. unfold headingAt.
    destruct (match_start heading_re l); cbv zeta.
    + rewrite <- app_assoc. reflexivity.
    + reflexivity.
Qed.

Definition lineBefore (s1 s2 : Section_) : Prop := sline s1 < sline s2.

Lemma headings_sorted ls : forall a,
  StronglySorted lineBefore
    (flat_map (fun p => headingAt (fst p) (snd p)) (combine (upto a (length ls)) ls))
  /\ Forall (fun s => a <= sline s)
       (flat_map (fun p => headingAt (fst p) (snd p)) (combine (upto a (length ls)) ls)).
Proof.
  induction ls as [|l ls IH]; intros a.
  - split; constructor.
  - cbn [length]. rewrite upto_S. cbn [combine flat_map fst snd].
    destruct (IH (a + 1)) as [Hs Hf].
    assert (Hf' : Forall (fun s => a <= sline s)
              (flat_map (fun p => headingAt (fst p) (snd p))
                 (combine (upto (a + 1) (length ls)) ls))).
    { apply Forall_impl with (2 := Hf). intros s. lia. }
    unfold headingAt at 1 3. destruct (match_start heading_re l).
    + cbn [app]. split.
      * constructor; [exact Hs |]. apply Forall_impl with (2 := Hf).
        intros s. unfold lineBefore. cbn [sline]. lia.
      * constructor; [cbn [sline]; lia | exact Hf'].
    + cbn [app]. split; assumption.
Qed.

Lemma combine_upto_In {A} (ls : list A) : forall a i (l : A),
  nth_error ls i = Some l ->
  In (a + Z.of_nat i, l) (combine (upto a (length ls)) ls).
Proof.
  induction ls as [|x ls IH]; intros a i l H; [destruct i; discriminate |].
  cbn [length]. rewrite upto_S. cbn [combine]. destruct i as [|i].
  - inversion H; subst x. left. rewrite Z.add_0_r. reflexivity.
  - right. replace (a + Z.of_nat (S i)) with (a + 1 + Z.of_nat i) by lia.
    apply IH. exact H.
Qed.

(** X3 — The list that [loadSectionsForFile] offers starts with the
    entry for the whole document and continues in strictly increasing
    line order; a line of the document is offered exactly when it
    consists of 1 to 6 [#], white space and a text that is not empty and
    has no line terminator; the label of an offered heading is two
    spaces per level above the first followed by the title, and the
    title starts at the first character after the white space whenever
    there is one. *)
Theorem headings_offered (content : list N) :
  StronglySorted (fun s1 s2 => sline s1 < sline s2) (loadSectionsForFile content)
  /\ (forall i l,
        nth_error (split_lines content) i = Some l ->
        (exists s, In s (loadSectionsForFile content) /\ sline s = Z.of_nat i)
        <-> exists level text, HeadingShape l level text)
  /\ (forall s,
        In s (loadSectionsForFile content) -> sline s <> -1 ->
        exists level title,
          HeadingShape (get (split_lines content) (sline s)) level title
          /\ heading s = concat (repeat (lit "  ") (level - 1)) ++ title
          /\ (after isSpace (after isHash (get (split_lines content) (sline s))) <> [] ->
              title = after isSpace (after isHash (get (split_lines content) (sline s))))).
Proof.
  unfold loadSectionsForFile. set (lines := split_lines content).
  repeat split.
  - rewrite headingsOf_flat. destruct (headings_sorted lines 0) as [Hs Hf].
    constructor; [exact Hs |]. apply Forall_impl with (2 := Hf).
    intros s. cbn [sline]. lia.
  - intros (s & [<-|Hin] & Hs); [cbn [sline] in Hs; lia |].
    apply headingsOf_In in Hin. destruct Hin as (j & l' & m & Hn & Hj & Hm & _).
    assert (j = i) by lia. subst j. assert (l' = l) by congruence. subst l'.
    eexists _, _. apply (heading_re_shape l m Hm).
  - intros (level & text & Hsh).
    pose proof (heading_re_complete l level text Hsh) as Hne.
    destruct (match_start heading_re l) as [m|] eqn:Em; [|contradiction].
    eexists. split.
    + right. rewrite headingsOf_flat. apply in_flat_map.
      exists (0 + Z.of_nat i, l). split; [apply combine_upto_In; exact H |].
      cbn [fst snd]. unfold headingAt. rewrite Em. left. reflexivity.
    + cbn [sline]. lia.
  - intros s [<-|Hin] Hs; [cbn [sline] in Hs; lia |].
    apply headingsOf_In in Hin. destruct Hin as (j & l & m & Hn & Hj & Hm & Hh).
    assert (Hg : get lines (sline s) = l).
    { unfold get. rewrite Hj, Nat2Z.id. apply nth_error_nth. exact Hn. }
    rewrite Hg. exists (length (nth 1 m [])), (nth 2 m []).
    split; [apply heading_re_shape; exact Hm |]. split; [exact Hh |].
    apply heading_title. exact Hm.
Qed.

(** X4 — A heading line followed by a carriage return or another line
    terminator, as every line but the last of a text with CRLF line
    ends, is not offered for choice, but still closes the sections of
    its level and below: the boundary test gives it its level. *)
Theorem line_end_hides_heading (l : list N) (level : nat) (text : list N) (c : N) :
  HeadingShape l level text ->
  isLineTerminator c = true ->
  match_start heading_re (l ++ [c]) = None
  /\ getHeadingLevel (l ++ [c]) = Z.of_nat level.
Proof.
  intros Hsh Hc. split.
  - destruct (match_start heading_re (l ++ [c])) as [m|] eqn:Em; [|reflexivity].
    exfalso. apply heading_re_shape in Em.
    destruct Em as (ws & El & _ & _ & _ & _ & Hte & Htx).
    assert (Hlast : In c (nth 2 m [])).
    { destruct (exists_last Hte) as (t & c' & Et). rewrite Et in El.
      rewrite !app_assoc in El. apply app_inj_tail in El. destruct El as [_ <-].
      rewrite Et. apply in_or_app. right. left. reflexivity. }
    unfold all in Htx. rewrite Forall_forall in Htx. apply Htx in Hlast.
    unfold isDot in Hlast. rewrite Hc in Hlast. discriminate.
  - destruct Hsh as (ws & El & Hlv & Hh & Hne & Hws & Hte & Htx).
    assert (Hh' : hashes (l ++ [c]) = level).
    { rewrite El. unfold hashes. rewrite <- !app_assoc.
      rewrite prefix_len_app; [apply repeat_length | |].
      - apply Forall_forall. intros x Hx. apply repeat_spec in Hx. subst x. reflexivity.
      - rewrite starts_in_app by exact Hne.
        destruct ws as [|w ws]; [congruence |]. inversion Hws; subst.
        cbn [starts_in]. destruct (isHash w) eqn:Ew; [|reflexivity].
        apply hash_not_space in Ew. congruence. }
    rewrite getHeadingLevel_eq, Hh'.
    assert (Ea : after isHash (l ++ [c]) = ws ++ text ++ [c]).
    { apply (shape_after _ level); [|exact Hh'].
      rewrite El at 1. rewrite <- !app_assoc. reflexivity. }
    rewrite Ea. pose proof (prefix_len_ge isSpace ws (text ++ [c]) Hws) as Hge.
    apply nonempty_length in Hne.
    destruct (Nat.leb_spec 1 level), (Nat.leb_spec level 6); try lia.
    destruct (Nat.leb_spec 1 (prefix_len isSpace (ws ++ text ++ [c]))); [reflexivity | lia].
Qed.

Lemma line_end_hides_heading_witness :
  match_start heading_re (lit "## Log" ++ [13%N]) = None
  /\ getHeadingLevel (lit "## Log" ++ [13%N]) = 2.
Proof.
  apply (line_end_hides_heading (lit "## Log") 2 (lit "Log") 13%N).
  - exists (lit " "). repeat split; try (vm_compute; lia); try discriminate.
    + repeat constructor.
    + repeat constructor.
  - reflexivity.
Defined.

End HeadingExtras.

(* ================================================================= *)
(** ** More about the strict parser *)

Module ParserExtras.
Local Open Scope Z_scope.

Lemma parseInt_acc s : forall acc,
  fold_left (fun acc c => 10 * acc + (Z.of_N c - 48)) s acc
  = acc * 10 ^ Z.of_nat (length s) + parseInt s.
Proof.
  unfold parseInt. induction s as [|c s IH]; intros acc.
  - cbn [fold_left length]. change (10 ^ Z.of_nat 0) with 1. lia.
  - cbn [fold_left length]. rewrite IH, (IH (10 * 0 + (Z.of_N c - 48))).
    rewrite Nat2Z.inj_succ, Z.pow_succ_r by lia. ring.
Qed.

Lemma parseInt_app a b :
  parseInt (a ++ b) = parseInt a * 10 ^ Z.of_nat (length b) + parseInt b.
Proof. unfold parseInt at 1. rewrite fold_left_app. apply parseInt_acc. Qed.

(** The number that the twelve digits spell, from its five fields. *)
Lemma code_number ds :
  all isDigit ds -> length ds = 12%nat ->
  parseInt ds =
  parseInt (substring 0 4 ds) * 100000000 + parseInt (substring 4 6 ds) * 1000000
  + parseInt (substring 6 8 ds) * 10000 + parseInt (substring 8 10 ds) * 100
  + parseInt (substring 10 12 ds).
Proof.
  intros Hd Hl.
  destruct (twelve_fields ds Hd Hl)
    as (Eds & [_ L1] & [_ L2] & [_ L3] & [_ L4] & [_ L5]).
  rewrite Eds at 1. rewrite !parseInt_app, !length_app, L2, L3, L4, L5.
  change (10 ^ Z.of_nat (2 + (2 + (2 + 2)))) with 100000000.
  change (10 ^ Z.of_nat (2 + (2 + 2))) with 1000000.
  change (10 ^ Z.of_nat (2 + 2)) with 10000.
  change (10 ^ Z.of_nat 2) with 100. ring.
Qed.

(** The digits are a date and a time of day that exist, in a year that
    the Date constructor takes as it is. *)
Definition validCode (ds : list N) : Prop :=
  100 <= parseInt (substring 0 4 ds)
  /\ validDate (parseInt (substring 0 4 ds)) (parseInt (substring 4 6 ds))
       (parseInt (substring 6 8 ds))
  /\ validTime (parseInt (substring 8 10 ds)) (parseInt (substring 10 12 ds)).

(** The local time that a code of twelve digits names. *)
Definition localTimeOf (ds : list N) : Z :=
  MakeDate
    (MakeDay (parseInt (substring 0 4 ds)) (parseInt (substring 4 6 ds) - 1)
       (parseInt (substring 6 8 ds)))
    (MakeTime (parseInt (substring 8 10 ds)) (parseInt (substring 10 12 ds)) 0 0).

Lemma decode12_local h ds :
  100 <= parseInt (substring 0 4 ds) ->
  decode12 h ds = UTC h (localTimeOf ds).
Proof.
  intros Hy. unfold decode12, Date_local, localTimeOf.
  replace ((0 <=? parseInt (substring 0 4 ds)) && (parseInt (substring 0 4 ds) <=? 99))
    with false by (symmetry; apply andb_false_iff; right; apply Z.leb_gt; lia).
  reflexivity.
Qed.

Lemma MakeDay_later_month y mo1 d1 mo2 d2 :
  validDate y mo1 d1 -> validDate y mo2 d2 -> mo1 < mo2 ->
  MakeDay y (mo1 - 1) d1 < MakeDay y (mo2 - 1) d2.
Proof.
  intros H1 H2 Hlt.
  destruct (MakeDay_in_year y mo1 d1 H1) as [E1 _].
  destruct (MakeDay_in_year y mo2 d2 H2) as [E2 _].
  rewrite E1, E2. destruct H1 as [Hm1 Hd1], H2 as [Hm2 Hd2].
  unfold leapDays in *.
  destruct (DaysInYear_cases y) as [E|E]; rewrite E in *;
    destruct (month_cases mo1 Hm1) as [->|[->|[->|[->|[->|[->|[->|[->|[->|[->|[->| ->]]]]]]]]]]];
    destruct (month_cases mo2 Hm2) as [->|[->|[->|[->|[->|[->|[->|[->|[->|[->|[->| ->]]]]]]]]]]];
    try lia;
    known_month; unfold leapDays in *; rewrite ?E in *; lia.
Qed.

Lemma MakeDay_later_year y1 mo1 d1 y2 mo2 d2 :
  validDate y1 mo1 d1 -> validDate y2 mo2 d2 -> y1 < y2 ->
  MakeDay y1 (mo1 - 1) d1 < MakeDay y2 (mo2 - 1) d2.
Proof.
  intros H1 H2 Hlt.
  destruct (MakeDay_in_year y1 mo1 d1 H1) as [E1 B1].
  destruct (MakeDay_in_year y2 mo2 d2 H2) as [E2 B2].
  rewrite E1, E2. pose proof (DayFromYear_step y1).
  pose proof (DayFromYear_mono (y1 + 1) y2 ltac:(lia)). lia.
Qed.

Lemma MakeDay_same_month y mo d1 d2 :
  validDate y mo d1 -> validDate y mo d2 ->
  MakeDay y (mo - 1) d1 - MakeDay y (mo - 1) d2 = d1 - d2.
Proof.
  intros H1 H2.
  destruct (MakeDay_in_year y mo d1 H1) as [E1 _].
  destruct (MakeDay_in_year y mo d2 H2) as [E2 _].
  rewrite E1, E2. lia.
Qed.

(** Between two codes that exist, the greater number names the later
    local time. *)
Lemma localTimeOf_mono ds1 ds2 :
  all isDigit ds1 -> length ds1 = 12%nat -> validCode ds1 ->
  all isDigit ds2 -> length ds2 = 12%nat -> validCode ds2 ->
  parseInt ds1 < parseInt ds2 -> localTimeOf ds1 < localTimeOf ds2.
Proof.
  intros D1 L1 (Hy1 & Hd1 & Ht1) D2 L2 (Hy2 & Hd2 & Ht2).
  rewrite (code_number ds1 D1 L1), (code_number ds2 D2 L2). unfold localTimeOf.
  set (y1 := parseInt (substring 0 4 ds1)) in *.
  set (mo1 := parseInt (substring 4 6 ds1)) in *.
  set (d1 := parseInt (substring 6 8 ds1)) in *.
  set (hh1 := parseInt (substring 8 10 ds1)) in *.
  set (mi1 := parseInt (substring 10 12 ds1)) in *.
  set (y2 := parseInt (substring 0 4 ds2)) in *.
  set (mo2 := parseInt (substring 4 6 ds2)) in *.
  set (d2 := parseInt (substring 6 8 ds2)) in *.
  set (hh2 := parseInt (substring 8 10 ds2)) in *.
  set (mi2 := parseInt (substring 10 12 ds2)) in *.
  clearbody y1 mo1 d1 hh1 mi1 y2 mo2 d2 hh2 mi2.
  intros Hlt.
  assert (B1 : 1 <= d1 <= 31 /\ 1 <= mo1 <= 12).
  { destruct Hd1 as [Hm Hd]. split; [|exact Hm]. unfold leapDays in Hd.
    destruct (DaysInYear_cases y1) as [E|E];
      destruct (month_cases mo1 Hm) as [->|[->|[->|[->|[->|[->|[->|[->|[->|[->|[->| ->]]]]]]]]]]];
      known_month; unfold leapDays in *; rewrite ?E in *; lia. }
  assert (B2 : 1 <= d2 <= 31 /\ 1 <= mo2 <= 12).
  { destruct Hd2 as [Hm Hd]. split; [|exact Hm]. unfold leapDays in Hd.
    destruct (DaysInYear_cases y2) as [E|E];
      destruct (month_cases mo2 Hm) as [->|[->|[->|[->|[->|[->|[->|[->|[->|[->|[->| ->]]]]]]]]]]];
      known_month; unfold leapDays in *; rewrite ?E in *; lia. }
  destruct Ht1 as [Hh1 Hi1], Ht2 as [Hh2 Hi2].
  unfold MakeDate, MakeTime, msPerDay, msPerHour, msPerMinute, msPerSecond.
  destruct (Z.lt_trichotomy y1 y2) as [Hy|[Hy|Hy]]; [| |lia].
  - pose proof (MakeDay_later_year y1 mo1 d1 y2 mo2 d2 Hd1 Hd2 Hy). lia.
  - subst y2. destruct (Z.lt_trichotomy mo1 mo2) as [Hm|[Hm|Hm]]; [| |lia].
    + pose proof (MakeDay_later_month y1 mo1 d1 mo2 d2 Hd1 Hd2 Hm). lia.
    + subst mo2. pose proof (MakeDay_same_month y1 mo1 d1 d2 Hd1 Hd2). lia.
Qed.

Lemma shape_code line ds :
  RowShape line ds -> length ds = 12%nat -> strict_code line = Some ds.
Proof. intros Hs Hl. apply strict_code_iff. auto. Qed.

(** X5 — Of two rows whose codes of twelve digits are dates and times
    that exist (year 0100 or later), the one with the greater number is
    the later instant and is sorted first, on a host whose offset from
    UTC is the same at both local times. *)
Theorem greater_code_sorts_first (h : Host) (line1 line2 ds1 ds2 : list N)
    (i1 i2 : Z) :
  RowShape line1 ds1 -> length ds1 = 12%nat -> validCode ds1 ->
  RowShape line2 ds2 -> length ds2 = 12%nat -> validCode ds2 ->
  LocalTZA h (localTimeOf ds1) false = LocalTZA h (localTimeOf ds2) false ->
  parseInt ds1 < parseInt ds2 ->
  exists t1 t2,
    parseTimestamp h line1 = Some t1 /\ parseTimestamp h line2 = Some t2
    /\ t1 < t2
    /\ compareEntries {| line := line2; timestamp := Some t2; originalIndex := i2 |}
         {| line := line1; timestamp := Some t1; originalIndex := i1 |} < 0.
Proof.
  intros S1 L1 V1 S2 L2 V2 Hoff Hlt.
  exists (decode12 h ds1), (decode12 h ds2).
  rewrite !parseTimestamp_code, (shape_code _ _ S1 L1), (shape_code _ _ S2 L2), L1, L2.
  cbn [Nat.eqb]. split; [reflexivity |]. split; [reflexivity |].
  assert (D1 : all isDigit ds1)
    by (destruct S1 as (? & ? & ? & ? & _ & _ & _ & _ & _ & _ & _ & D); exact D).
  assert (D2 : all isDigit ds2)
    by (destruct S2 as (? & ? & ? & ? & _ & _ & _ & _ & _ & _ & _ & D); exact D).
  pose proof (localTimeOf_mono ds1 ds2 D1 L1 V1 D2 L2 V2 Hlt) as Hm.
  assert (Ht : decode12 h ds1 < decode12 h ds2).
  { rewrite (decode12_local h ds1), (decode12_local h ds2)
      by (first [apply V1 | apply V2]).
    unfold UTC. rewrite Hoff. lia. }
  split; [exact Ht |]. unfold compareEntries. cbn [timestamp]. lia.
Qed.

Lemma greater_code_sorts_first_witness :
  exists t1 t2,
    parseTimestamp edtHost (lit "- 202406181245 - a") = Some t1
    /\ parseTimestamp edtHost (lit "- 202406190800 - b") = Some t2
    /\ t1 < t2
    /\ compareEntries
         {| line := lit "- 202406190800 - b"; timestamp := Some t2; originalIndex := 1 |}
         {| line := lit "- 202406181245 - a"; timestamp := Some t1; originalIndex := 0 |}
       < 0.
Proof.
  apply (greater_code_sorts_first edtHost (lit "- 202406181245 - a")
           (lit "- 202406190800 - b") (lit "202406181245") (lit "202406190800") 0 1).
  - exists (lit " "), (lit " "), (lit " "), (lit "a").
    repeat split; try discriminate; repeat constructor.
  - reflexivity.
  - unfold validCode, validDate, validTime. vm_compute. intuition discriminate.
  - exists (lit " "), (lit " "), (lit " "), (lit "b").
    repeat split; try discriminate; repeat constructor.
  - reflexivity.
  - unfold validCode, validDate, validTime. vm_compute. intuition discriminate.
  - reflexivity.
  - vm_compute. reflexivity.
Defined.

(** X6 — A row with a date of eight digits is read as the same date
    with the time 0000: it parses to the same instant as the row whose
    code is these digits followed by 0000. *)
Theorem date_only_row_is_midnight (h : Host) (line1 line2 ds : list N) :
  RowShape line1 ds -> length ds = 8%nat ->
  RowShape line2 (ds ++ lit "0000") ->
  parseTimestamp h line1 = parseTimestamp h line2
  /\ parseTimestamp h line1 <> None.
Proof.
  intros S1 L1 S2.
  assert (L2 : length (ds ++ lit "0000") = 12%nat)
    by (rewrite length_app, L1; reflexivity).
  assert (C1 : strict_code line1 = Some ds) by (apply strict_code_iff; auto).
  rewrite !parseTimestamp_code, C1, (shape_code _ _ S2 L2), L1, L2.
  cbn [Nat.eqb]. split; [|discriminate]. f_equal.
  unfold decode8, decode12.
  do 8 (destruct ds as [|? ds]; [discriminate |]).
  destruct ds; [|discriminate].
  change (lit "0000") with [48; 48; 48; 48]%N.
  cbv [substring firstn skipn Nat.sub app].
  change (parseInt [48; 48]%N) with 0. reflexivity.
Qed.

Lemma date_only_row_is_midnight_witness :
  parseTimestamp edtHost (lit "- 20240618 - a")
  = parseTimestamp edtHost (lit "- 202406180000 - b")
  /\ parseTimestamp edtHost (lit "- 20240618 - a") <> None.
Proof.
  apply (date_only_row_is_midnight edtHost (lit "- 20240618 - a")
           (lit "- 202406180000 - b") (lit "20240618")).
  - exists (lit " "), (lit " "), (lit " "), (lit "a").
    repeat split; try discriminate; repeat constructor.
  - reflexivity.
  - exists (lit " "), (lit " "), (lit " "), (lit "b").
    repeat split; try discriminate; repeat constructor.
Defined.

End ParserExtras.

(* ================================================================= *)
(** ** More about the extractor *)

Module ExtractorExtras.
Import ExtractorClaims.
Local Open Scope Z_scope.

Lemma match_start_permalink_None s :
  match_start permalink_re s = None <-> permalink_at s = None.
Proof.
  rewrite match_start_permalink. destruct (permalink_at s); split; congruence.
Qed.

(** The match of the permalink pattern is the leftmost permalink path of
    the string. *)
Lemma match_anywhere_leftmost slug : forall m,
  match_anywhere permalink_re slug = Some m ->
  exists pre path rest,
    slug = pre ++ path ++ rest
    /\ PermalinkPath path rest (path ++ rest)
    /\ m = [path; path]
    /\ forall pre' s', slug = pre' ++ s' -> (length pre' < length pre)%nat ->
                       permalink_at s' = None.
Proof.
  induction slug as [|c slug IH]; intros m H.
  - cbn [match_anywhere] in H.
    destruct (match_start permalink_re []) as [m'|] eqn:Em; [|discriminate].
    vm_compute in Em. discriminate.
  - cbn [match_anywhere] in H.
    destruct (match_start permalink_re (c :: slug)) as [m'|] eqn:Em.
    + inversion H; subst m'; clear H. rewrite match_start_permalink in Em.
      destruct (permalink_at (c :: slug)) as [rest|] eqn:Ep; [|discriminate].
      apply permalink_at_shape in Ep. destruct Ep as (path & Hp).
      assert (Es : c :: slug = path ++ rest) by (destruct Hp as (? & ? & _ & E & _); exact E).
      exists [], path, rest. split; [exact Es |].
      split; [rewrite <- Es; exact Hp |].
      split.
      * rewrite Es, length_app in Em.
        replace (length path + length rest - length rest)%nat with (length path)
          in Em by lia.
        rewrite firstn_length_app in Em. inversion Em. reflexivity.
      * intros pre' s' _ Hl. cbn [length] in Hl. lia.
    + apply IH in H. destruct H as (pre & path & rest & Es & Hp & Hm & Hl).
      exists (c :: pre), path, rest. split; [rewrite Es; reflexivity |].
      split; [exact Hp |]. split; [exact Hm |].
      intros pre' s' E Hlen. destruct pre' as [|c' pre'].
      * cbn [app] in E. subst s'. apply match_start_permalink_None. exact Em.
      * inversion E as [[Ec E']]. apply (Hl pre'); [exact E' |].
        cbn [length] in Hlen. lia.
Qed.

Lemma postLine_form h elem l :
  postLine h elem = Some l ->
  exists title slug timestampStr m,
    attr elem (lit "post-title") = Some title /\ title <> []
    /\ attr elem (lit "permalink") = Some slug /\ slug <> []
    /\ attr elem (lit "created-timestamp") = Some timestampStr /\ timestampStr <> []
    /\ match_anywhere permalink_re slug = Some m
    /\ l = lit "- " ++ formattedTime h (edtTimeOf (Date_parse h timestampStr))
             ++ lit " - [" ++ title ++ lit "](" ++ lit "https://www.reddit.com"
             ++ nth 1 m [] ++ lit ")".
Proof.
  intros H. assert (Hv : validCandidate elem).
  { apply (postLine_Some_iff h). congruence. }
  destruct Hv as (title & slug & ts & E1 & N1 & E2 & N2 & E3 & N3 & Hp).
  apply match_anywhere_permalink in Hp.
  destruct (match_anywhere permalink_re slug) as [m|] eqn:Em; [|congruence].
  exists title, slug, ts, m. repeat split; auto.
  rewrite (postLine_kept h elem title slug ts m E1 N1 E2 N2 E3 N3 Em) in H.
  inversion H. reflexivity.
Qed.

Lemma extract_In h posts l :
  In l (extractRedditPosts h posts) <-> exists elem, In elem posts /\ postLine h elem = Some l.
Proof.
  rewrite extractRedditPosts_flat_map, in_flat_map. unfold linesOf. split.
  - intros (e & He & Hl). exists e. split; [exact He |].
    destruct (postLine h e) as [l'|]; [|destruct Hl].
    destruct Hl as [->|[]]. reflexivity.
  - intros (e & He & Hl). exists e. split; [exact He |]. rewrite Hl. left. reflexivity.
Qed.

(** X9 — Every line that the extractor gives comes from one of the
    elements and reads [- <code> - [<title>](https://www.reddit.com<path>)]
    where the title is the element's title as it is, the code is made
    from its created-timestamp, and the path is the leftmost
    [/r/<sub>/comments/<id>/] of its permalink: what precedes and what
    follows that path in the permalink is dropped. *)
Theorem emitted_line_form (h : Host) (posts : list Element) (l : list N) :
  In l (extractRedditPosts h posts) ->
  exists elem title slug timestampStr pre path rest,
    In elem posts
    /\ attr elem (lit "post-title") = Some title
    /\ attr elem (lit "permalink") = Some slug
    /\ attr elem (lit "created-timestamp") = Some timestampStr
    /\ slug = pre ++ path ++ rest
    /\ PermalinkPath path rest (path ++ rest)
    /\ (forall pre' s', slug = pre' ++ s' -> (length pre' < length pre)%nat ->
                        match_start permalink_re s' = None)
    /\ l = lit "- " ++ formattedTime h (edtTimeOf (Date_parse h timestampStr))
             ++ lit " - [" ++ title ++ lit "](https://www.reddit.com" ++ path ++ lit ")".
Proof.
  intros H. apply extract_In in H. destruct H as (elem & Hin & Hl).
  apply postLine_form in Hl.
  destruct Hl as (title & slug & ts & m & E1 & _ & E2 & _ & E3 & _ & Em & ->).
  apply match_anywhere_leftmost in Em.
  destruct Em as (pre & path & rest & Es & Hp & -> & Hleft).
  exists elem, title, slug, ts, pre, path, rest.
  do 6 (split; [assumption |]). split.
  - intros pre' s' E Hlen. apply match_start_permalink_None. apply (Hleft pre'); assumption.
  - cbn [nth].
    change (lit "](https://www.reddit.com") with (lit "](" ++ lit "https://www.reddit.com").
    rewrite <- !app_assoc. reflexivity.
Qed.

Lemma emitted_line_form_witness :
  exists elem title slug timestampStr pre path rest,
    In elem [helloPost]
    /\ attr elem (lit "post-title") = Some title
    /\ attr elem (lit "permalink") = Some slug
    /\ attr elem (lit "created-timestamp") = Some timestampStr
    /\ slug = pre ++ path ++ rest
    /\ PermalinkPath path rest (path ++ rest)
    /\ (forall pre' s', slug = pre' ++ s' -> (length pre' < length pre)%nat ->
                        match_start permalink_re s' = None)
    /\ helloLine
       = lit "- " ++ formattedTime utcHost (edtTimeOf (Date_parse utcHost timestampStr))
           ++ lit " - [" ++ title ++ lit "](https://www.reddit.com" ++ path ++ lit ")".
Proof.
  apply (emitted_line_form utcHost [helloPost] helloLine).
  vm_compute. left. reflexivity.
Defined.

(** X10 — A candidate whose created-timestamp is not a date that
    [Date] can read is not dropped: its line carries the code
    [NaNNaNNaNNaNNaN], and on no host is that line a timestamp row for
    the sorter. *)
Theorem unreadable_time_gives_NaN_line (h : Host) (elem : Element)
    (timestampStr l : list N) :
  postLine h elem = Some l ->
  attr elem (lit "created-timestamp") = Some timestampStr ->
  Date_parse h timestampStr = None ->
  (exists tail, l = lit "- NaNNaNNaNNaNNaN - [" ++ tail)
  /\ forall h', isTimestampRow h' l = false.
Proof.
  intros Hl Ea Hp. apply postLine_form in Hl.
  destruct Hl as (title & slug & ts & m & _ & _ & _ & _ & E3 & _ & _ & ->).
  assert (ts = timestampStr) by congruence. subst ts. rewrite Hp.
  change (formattedTime h (edtTimeOf None)) with (lit "NaNNaNNaNNaNNaN").
  split.
  - exists (title ++ lit "](" ++ lit "https://www.reddit.com" ++ nth 1 m [] ++ lit ")").
    reflexivity.
  - intros h'.
    generalize (title ++ lit "](" ++ lit "https://www.reddit.com" ++ nth 1 m [] ++ lit ")").
    intros tail. reflexivity.
Qed.

Lemma unreadable_time_gives_NaN_line_witness :
  (exists tail,
     lit "- NaNNaNNaNNaNNaN - [Hello](https://www.reddit.com/r/test/comments/abc123/)"
     = lit "- NaNNaNNaNNaNNaN - [" ++ tail)
  /\ forall h',
       isTimestampRow h'
         (lit "- NaNNaNNaNNaNNaN - [Hello](https://www.reddit.com/r/test/comments/abc123/)")
       = false.
Proof.
  apply (unreadable_time_gives_NaN_line utcHost
           [ (lit "post-title", lit "Hello");
             (lit "permalink", lit "/r/test/comments/abc123/hello/");
             (lit "created-timestamp", lit "yesterday") ]
           (lit "yesterday")).
  - vm_compute. reflexivity.
  - reflexivity.
  - vm_compute. reflexivity.
Defined.

(** *** From the extractor to the sorter *)

(** The date fields of a time value are a date that exists, and make
    the day of the time value again. *)
Lemma fields_of_day t :
  exists mo,
    1 <= mo <= 12
    /\ MonthFromTime t = mo - 1
    /\ 1 <= DateFromTime t <= DaysInMonth (YearFromTime t) mo
    /\ DayFromYear (YearFromTime t) + monthStart (mo - 1) (leapDays (YearFromTime t))
       + DateFromTime t - 1 = Day t.
Proof.
  unfold DateFromTime, MonthFromTime. cbv zeta.
  pose proof (YearFromDay_spec (Day t)) as Hy. fold (YearFromTime t) in Hy.
  rewrite DayFromYear_step in Hy.
  assert (Hw : 0 <= DayWithinYear t < DaysInYear (YearFromTime t))
    by (unfold DayWithinYear; lia).
  assert (Ed : Day t = DayFromYear (YearFromTime t) + DayWithinYear t)
    by (unfold DayWithinYear; lia).
  rewrite Ed. clear Ed Hy.
  assert (El : InLeapYear t = leapDays (YearFromTime t)).
  { unfold InLeapYear, leapDays.
    destruct (DaysInYear_cases (YearFromTime t)) as [E|E]; rewrite E; reflexivity. }
  rewrite El. clear El.
  assert (Hl : DaysInYear (YearFromTime t) = 365 + leapDays (YearFromTime t))
    by (unfold leapDays; lia).
  assert (Hl01 : 0 <= leapDays (YearFromTime t) <= 1).
  { unfold leapDays. destruct (DaysInYear_cases (YearFromTime t)); lia. }
  set (y := YearFromTime t) in *. set (w := DayWithinYear t) in *.
  set (lp := leapDays y) in *.
  assert (Elp : leapDays y = lp) by reflexivity. clearbody lp w.
  repeat match goal with
         | |- context [?a <? ?b] => destruct (Z.ltb_spec a b)
         end;
    [ exists 1 | exists 2 | exists 3 | exists 4 | exists 5 | exists 6
    | exists 7 | exists 8 | exists 9 | exists 10 | exists 11 | exists 12 ];
    known_month; rewrite ?Elp; repeat split; lia.
Qed.

Lemma fields_of_time t :
  validTime (HourFromTime t) (MinFromTime t)
  /\ MakeDate (Day t) (MakeTime (HourFromTime t) (MinFromTime t) 0 0)
     = t - t mod msPerMinute.
Proof.
  unfold validTime, HourFromTime, MinFromTime, MakeDate, MakeTime, Day,
    msPerDay, msPerHour, msPerMinute, msPerSecond.
  repeat split; Z.div_mod_to_equations; lia.
Qed.

(** The four digits of a year, and the two digits of a smaller field. *)
Definition four (y : Z) : list N :=
  [Z.to_N (y / 1000 + 48); Z.to_N (y / 100 mod 10 + 48);
   Z.to_N (y / 10 mod 10 + 48); Z.to_N (y mod 10 + 48)].

Definition two (n : Z) : list N := [Z.to_N (n / 10 + 48); Z.to_N (n mod 10 + 48)].

Lemma digit_of d : 0 <= d <= 9 -> isDigit (Z.to_N (d + 48)) = true.
Proof.
  intros H. unfold isDigit. apply andb_true_iff. split; apply N.leb_le; lia.
Qed.

Lemma four_digits y : 1000 <= y <= 9999 ->
  all isDigit (four y) /\ parseInt (four y) = y.
Proof.
  intros H. split.
  - unfold four. repeat constructor; apply digit_of; Z.div_mod_to_equations; lia.
  - unfold four, parseInt. cbn [fold_left].
    rewrite !Z2N.id by (Z.div_mod_to_equations; lia).
    Z.div_mod_to_equations. lia.
Qed.

Lemma two_digits n : 0 <= n <= 99 ->
  all isDigit (two n) /\ parseInt (two n) = n.
Proof.
  intros H. split.
  - unfold two. repeat constructor; apply digit_of; Z.div_mod_to_equations; lia.
  - unfold two, parseInt. cbn [fold_left].
    rewrite !Z2N.id by (Z.div_mod_to_equations; lia).
    Z.div_mod_to_equations. lia.
Qed.

Lemma toString_year y : 1000 <= y <= 9999 -> Number_toString y = four y.
Proof.
  intros H. destruct (four_digits y H) as [Hd Hp].
  rewrite <- Hp at 1. apply toString_four; [exact Hd | reflexivity | lia].
Qed.

Lemma pad_field n : 0 <= n <= 99 -> padStart2 (Number_toString n) = two n.
Proof.
  intros H. destruct (two_digits n H) as [Hd Hp].
  rewrite <- Hp at 1. apply pad_two; [exact Hd | reflexivity].
Qed.

(** The code of a time value whose local year has four digits. *)
Lemma formattedTime_digits h t :
  1000 <= getFullYear h t <= 9999 ->
  formattedTime h (Some t)
  = four (getFullYear h t) ++ two (getMonth h t + 1) ++ two (getDate h t)
    ++ two (getHours h t) ++ two (getMinutes h t)
  /\ validDate (getFullYear h t) (getMonth h t + 1) (getDate h t)
  /\ validTime (getHours h t) (getMinutes h t).
Proof.
  intros Hy. unfold getFullYear, getMonth, getDate, getHours, getMinutes in *.
  set (tl := LocalTime h t) in *.
  destruct (fields_of_day tl) as (mo & Hmo & Em & Hd & _).
  destruct (fields_of_time tl) as [Ht _].
  assert (Hd31 : 1 <= DateFromTime tl <= 31).
  { clear -Hmo Hd. unfold DaysInMonth, leapDays in Hd.
    destruct (DaysInYear_cases (YearFromTime tl)) as [E|E]; rewrite E in Hd;
      destruct (month_cases mo Hmo) as [->|[->|[->|[->|[->|[->|[->|[->|[->|[->|[->| ->]]]]]]]]]]];
      cbv beta iota in Hd; lia. }
  split.
  - rewrite formattedTime_fields. fold tl.
    rewrite (toString_year _ Hy).
    rewrite (pad_field (MonthFromTime tl + 1)) by lia.
    rewrite (pad_field (DateFromTime tl)) by lia.
    destruct Ht as [Hh Hm].
    rewrite (pad_field (HourFromTime tl)) by lia.
    rewrite (pad_field (MinFromTime tl)) by lia.
    reflexivity.
  - split; [|exact Ht]. unfold validDate.
    replace (MonthFromTime tl + 1) with mo by lia. split; [exact Hmo | exact Hd].
Qed.

(** The minute of the local time that the code of [t] shows. *)
Definition shownMinute (h : Host) (t : Z) : Z :=
  LocalTime h t - LocalTime h t mod msPerMinute.

Lemma decode12_of_fields h t :
  1000 <= getFullYear h t <= 9999 ->
  decode12 h (formattedTime h (Some t)) = UTC h (shownMinute h t).
Proof.
  intros Hy. destruct (formattedTime_digits h t Hy) as (Ef & Hd & Ht).
  rewrite Ef. unfold decode12.
  destruct (four_digits _ Hy) as [_ P1].
  assert (B2 : 0 <= getMonth h t + 1 <= 99) by (destruct Hd; lia).
  assert (B3 : 0 <= getDate h t <= 99).
  { destruct Hd as [Hm Hd']. clear -Hm Hd'. unfold DaysInMonth, leapDays in Hd'.
    destruct (DaysInYear_cases (getFullYear h t)) as [E|E]; rewrite E in Hd';
      destruct (month_cases _ Hm) as [E'|[E'|[E'|[E'|[E'|[E'|[E'|[E'|[E'|[E'|[E'|E']]]]]]]]]]];
      rewrite E' in Hd'; cbv beta iota in Hd'; lia. }
  assert (B4 : 0 <= getHours h t <= 99) by (destruct Ht; lia).
  assert (B5 : 0 <= getMinutes h t <= 99) by (destruct Ht; lia).
  destruct (two_digits _ B2) as [_ P2]. destruct (two_digits _ B3) as [_ P3].
  destruct (two_digits _ B4) as [_ P4]. destruct (two_digits _ B5) as [_ P5].
  unfold four, two in *.
  cbv [substring firstn skipn Nat.sub app].
  rewrite P1, P2, P3, P4, P5.
  unfold Date_local.
  replace ((0 <=? getFullYear h t) && (getFullYear h t <=? 99)) with false
    by (symmetry; apply andb_false_iff; right; apply Z.leb_gt; lia).
  f_equal. unfold shownMinute, getFullYear, getMonth, getDate, getHours, getMinutes.
  set (tl := LocalTime h t).
  destruct (fields_of_day tl) as (mo & Hmo & Em & Hdd & Eday).
  destruct (fields_of_time tl) as [_ Etime].
  rewrite <- Etime. f_equal.
  replace (MonthFromTime tl + 1 - 1) with (mo - 1) by lia.
  assert (Hv : validDate (YearFromTime tl) mo (DateFromTime tl)) by (split; assumption).
  destruct (MakeDay_in_year _ _ _ Hv) as [E _]. rewrite E. exact Eday.
Qed.

(** X11 — The lines of the extractor are rows for the sorter: when the
    created-timestamp is read as a date and the shifted instant has a
    local year of four digits, the line is a timestamp row with a code
    of twelve digits, and the strict parser reads this code as the
    minute of local time that the code shows. *)
Theorem extracted_line_is_sorter_row (h : Host) (elem : Element)
    (timestampStr l : list N) (edtTime : Z) :
  postLine h elem = Some l ->
  attr elem (lit "created-timestamp") = Some timestampStr ->
  edtTimeOf (Date_parse h timestampStr) = Some edtTime ->
  1000 <= getFullYear h edtTime <= 9999 ->
  RowShape l (formattedTime h (Some edtTime))
  /\ length (formattedTime h (Some edtTime)) = 12%nat
  /\ isTimestampRow h l = true
  /\ parseTimestamp h l
     = Some (UTC h (LocalTime h edtTime - LocalTime h edtTime mod msPerMinute)).
Proof.
  intros Hl Ea He Hy. apply postLine_form in Hl.
  destruct Hl as (title & slug & ts & m & _ & _ & _ & _ & E3 & _ & _ & ->).
  assert (ts = timestampStr) by congruence. subst ts. rewrite He.
  destruct (formattedTime_digits h edtTime Hy) as (Ef & Hd & Ht).
  assert (Hlen : length (formattedTime h (Some edtTime)) = 12%nat)
    by (rewrite Ef; reflexivity).
  assert (Hdig : all isDigit (formattedTime h (Some edtTime))).
  { rewrite Ef.
    assert (B3 : 0 <= getDate h edtTime <= 99).
    { destruct Hd as [Hm Hd']. clear -Hm Hd'. unfold DaysInMonth, leapDays in Hd'.
      destruct (DaysInYear_cases (getFullYear h edtTime)) as [E|E]; rewrite E in Hd';
        destruct (month_cases _ Hm) as [E'|[E'|[E'|[E'|[E'|[E'|[E'|[E'|[E'|[E'|[E'|E']]]]]]]]]]];
        rewrite E' in Hd'; cbv beta iota in Hd'; lia. }
    destruct Hd as [Hm _], Ht as [Hh Hi].
    unfold all. rewrite !Forall_app. repeat split.
    - apply four_digits. exact Hy.
    - apply two_digits. lia.
    - apply two_digits. lia.
    - apply two_digits. lia.
    - apply two_digits. lia. }
  assert (Hs : RowShape
                 (lit "- " ++ formattedTime h (Some edtTime) ++ lit " - [" ++ title
                  ++ lit "](" ++ lit "https://www.reddit.com" ++ nth 1 m [] ++ lit ")")
                 (formattedTime h (Some edtTime))).
  { exists (lit " "), (lit " "), (lit " "),
      (lit "[" ++ title ++ lit "](" ++ lit "https://www.reddit.com" ++ nth 1 m [] ++ lit ")").
    split; [reflexivity |].
    repeat split; try discriminate; try exact Hdig; repeat constructor. }
  split; [exact Hs |]. split; [exact Hlen |].
  split.
  - apply isTimestampRow_iff. exists (formattedTime h (Some edtTime)).
    split; [exact Hs | lia].
  - rewrite parseTimestamp_code.
    assert (Hc : strict_code
                   (lit "- " ++ formattedTime h (Some edtTime) ++ lit " - [" ++ title
                    ++ lit "](" ++ lit "https://www.reddit.com" ++ nth 1 m [] ++ lit ")")
                 = Some (formattedTime h (Some edtTime)))
      by (apply strict_code_iff; auto).
    rewrite Hc, Hlen. cbn [Nat.eqb]. f_equal. apply decode12_of_fields. exact Hy.
Qed.

Lemma extracted_line_is_sorter_row_witness :
  RowShape
    (lit "- 202406180845 - [Hello](https://www.reddit.com/r/test/comments/abc123/)")
    (formattedTime edtHost (Some 1718714700000))
  /\ length (formattedTime edtHost (Some 1718714700000)) = 12%nat
  /\ isTimestampRow edtHost
       (lit "- 202406180845 - [Hello](https://www.reddit.com/r/test/comments/abc123/)")
     = true
  /\ parseTimestamp edtHost
       (lit "- 202406180845 - [Hello](https://www.reddit.com/r/test/comments/abc123/)")
     = Some (UTC edtHost (LocalTime edtHost 1718714700000
                          - LocalTime edtHost 1718714700000 mod msPerMinute)).
Proof.
  apply (extracted_line_is_sorter_row edtHost helloPost (lit "2024-06-18T16:45:00Z")).
  - vm_compute. reflexivity.
  - reflexivity.
  - vm_compute. reflexivity.
  - vm_compute. split; discriminate.
Defined.

(** *** A created-timestamp in the ISO format, on a host on UTC *)

Lemma rep_exact p k : forall pre rest,
  all p pre ->
  rep p (length pre) (Some (length pre)) (pre ++ rest) k = k rest.
Proof.
  induction pre as [|c pre IH]; intros rest H.
  - cbn [length app]. destruct rest as [|c rest]; [reflexivity |].
    cbn [rep more]. rewrite andb_false_r. reflexivity.
  - inversion H as [|? ? Hc Hp]; subst. cbn [length app rep more pred option_map].
    rewrite Hc. cbn [andb]. rewrite (IH rest Hp).
    destruct (k rest); reflexivity.
Qed.

Lemma firstn_taken {A} (pre rest : list A) :
  firstn (length (pre ++ rest) - length rest) (pre ++ rest) = pre.
Proof.
  rewrite length_app.
  replace (length pre + length rest - length rest)%nat with (length pre) by lia.
  apply firstn_length_app.
Qed.

(** [YYYY-MM-DDTHH:mm:ssZ] *)
Definition isoString (y m d hh mi ss : list N) : list N :=
  y ++ 45%N :: m ++ 45%N :: d ++ 84%N :: hh ++ 58%N :: mi ++ 58%N :: ss ++ [90%N].

Lemma iso_match (y m d hh mi ss : list N) :
  all isDigit y -> length y = 4%nat ->
  all isDigit m -> length m = 2%nat ->
  all isDigit d -> length d = 2%nat ->
  all isDigit hh -> length hh = 2%nat ->
  all isDigit mi -> length mi = 2%nat ->
  all isDigit ss -> length ss = 2%nat ->
  match_start iso_utc_re (isoString y m d hh mi ss)
  = Some [isoString y m d hh mi ss; y; m; d; hh; mi; ss; []].
Proof.
  intros Dy Ly Dm Lm Dd Ld Dh Lh Di Li Ds Ls.
  unfold isoString, match_start, iso_utc_re, exactly. cbn [seqs rmatch].
  rewrite <- Ly at 1 2. rewrite (rep_exact isDigit _ y _ Dy). cbv beta.
  change (char_eqb 45 45) with true. cbv iota.
  rewrite <- Lm at 1 2. rewrite (rep_exact isDigit _ m _ Dm). cbv beta.
  change (char_eqb 45 45) with true. cbv iota.
  rewrite <- Ld at 1 2. rewrite (rep_exact isDigit _ d _ Dd). cbv beta.
  change (char_eqb 84 84) with true. cbv iota.
  rewrite <- Lh at 1 2. rewrite (rep_exact isDigit _ hh _ Dh). cbv beta.
  change (char_eqb 58 58) with true. cbv iota.
  rewrite <- Li at 1 2. rewrite (rep_exact isDigit _ mi _ Di). cbv beta.
  change (char_eqb 58 58) with true. cbv iota.
  rewrite <- Ls at 1 2. rewrite (rep_exact isDigit _ ss _ Ds). cbv beta.
  change (char_eqb 46 90) with false. cbv iota.
  cbn [rep more andb]. change (isDigit 90) with false. cbn [andb].
  change (char_eqb 90 90) with true. cbv iota. unfold accept.
  change (length (@nil N)) with O. rewrite Nat.sub_0_r, firstn_all.
  rewrite (firstn_taken y (45%N :: _)), (firstn_taken m (45%N :: _)),
    (firstn_taken d (84%N :: _)), (firstn_taken hh (58%N :: _)),
    (firstn_taken mi (58%N :: _)), (firstn_taken ss [90%N]).
  rewrite Nat.sub_diag. reflexivity.
Qed.

Lemma MakeDay_bound y mo d :
  0 <= y <= 9999 -> validDate y mo d ->
  -1000000 <= MakeDay y (mo - 1) d <= 4000000.
Proof.
  intros Hy Hv. destruct (MakeDay_in_year y mo d Hv) as [E B]. rewrite E.
  assert (Hd : -1000000 <= DayFromYear y <= 3000000).
  { unfold DayFromYear. Z.div_mod_to_equations. lia. }
  destruct (DaysInYear_cases y); lia.
Qed.

(** X18 — On a host on UTC, a created-timestamp [YYYY-MM-DDTHH:mm:ssZ]
    that names a date and time that exist, with a year of four digits
    without leading zero and an hour of 04 or later, gives the code of
    the same date with the hour four less and the same minute: the
    wall-clock time of UTC-4.  [Date] reads such a string to the same
    instant on every host. *)
Theorem iso_time_on_utc_host (y m d hh mi ss : list N) :
  all isDigit y -> length y = 4%nat ->
  all isDigit m -> length m = 2%nat ->
  all isDigit d -> length d = 2%nat ->
  all isDigit hh -> length hh = 2%nat ->
  all isDigit mi -> length mi = 2%nat ->
  all isDigit ss -> length ss = 2%nat ->
  1000 <= parseInt y ->
  validDate (parseInt y) (parseInt m) (parseInt d) ->
  4 <= parseInt hh <= 23 -> parseInt mi <= 59 -> parseInt ss <= 59 ->
  (forall h,
     Date_parse h (isoString y m d hh mi ss)
     = Some (MakeDate (MakeDay (parseInt y) (parseInt m - 1) (parseInt d))
               (MakeTime (parseInt hh) (parseInt mi) (parseInt ss) 0)))
  /\ formattedTime utcHost (edtTimeOf (Date_parse utcHost (isoString y m d hh mi ss)))
     = y ++ m ++ d ++ two (parseInt hh - 4) ++ mi.
Proof.
  intros Dy Ly Dm Lm Dd Ld Dh Lh Di Li Ds Ls Hy Hv Hh Hmi Hss.
  pose proof (parseInt_four y Dy Ly) as By.
  pose proof (parseInt_two mi Di Li) as Bmi.
  pose proof (parseInt_two ss Ds Ls) as Bss.
  assert (Hp : forall h,
             Date_parse h (isoString y m d hh mi ss)
             = Some (MakeDate (MakeDay (parseInt y) (parseInt m - 1) (parseInt d))
                       (MakeTime (parseInt hh) (parseInt mi) (parseInt ss) 0))).
  { intros h. unfold Date_parse, parse_iso_utc.
    rewrite (iso_match y m d hh mi ss Dy Ly Dm Lm Dd Ld Dh Lh Di Li Ds Ls).
    cbv zeta. destruct Hv as [Hm Hd].
    replace (1 <=? parseInt m) with true by (symmetry; apply Z.leb_le; lia).
    replace (parseInt m <=? 12) with true by (symmetry; apply Z.leb_le; lia).
    replace (1 <=? parseInt d) with true by (symmetry; apply Z.leb_le; lia).
    replace (parseInt d <=? DaysInMonth (parseInt y) (parseInt m)) with true
      by (symmetry; apply Z.leb_le; lia).
    replace (parseInt hh <=? 23) with true by (symmetry; apply Z.leb_le; lia).
    replace (parseInt mi <=? 59) with true by (symmetry; apply Z.leb_le; lia).
    replace (parseInt ss <=? 59) with true by (symmetry; apply Z.leb_le; lia).
    cbn [andb]. change (parseInt []) with 0. reflexivity. }
  split; [exact Hp |]. rewrite Hp. unfold edtTimeOf, TimeClip, edtOffsetMs.
  set (day := MakeDay (parseInt y) (parseInt m - 1) (parseInt d)).
  pose proof (MakeDay_bound (parseInt y) (parseInt m) (parseInt d) ltac:(lia) Hv) as Bd.
  fold day in Bd.
  set (tm := MakeTime (parseInt hh - 4) (parseInt mi) (parseInt ss) 0).
  assert (Et : MakeDate day (MakeTime (parseInt hh) (parseInt mi) (parseInt ss) 0)
               - 4 * 60 * 60 * 1000 = MakeDate day tm).
  { unfold tm, MakeDate, MakeTime, msPerDay, msPerHour, msPerMinute, msPerSecond. lia. }
  rewrite Et.
  assert (Btm : 0 <= tm < msPerDay).
  { unfold tm, MakeTime, msPerDay, msPerHour, msPerMinute, msPerSecond. lia. }
  replace (Z.abs (MakeDate day tm) <=? 8640000000000000) with true.
  2:{ symmetry. apply Z.leb_le. unfold MakeDate, msPerDay in *. lia. }
  rewrite formattedTime_fields.
  assert (El : LocalTime utcHost (MakeDate day tm) = MakeDate day tm).
  { unfold LocalTime. cbn [LocalTZA utcHost fixedHost].
    change (Z.max (-1439) (Z.min 1439 0) * msPerMinute) with 0. lia. }
  rewrite El.
  destruct (decode_date (parseInt y) (parseInt m) (parseInt d) tm Hv Btm)
    as (E1 & E2 & E3).
  fold day in E1, E2, E3. rewrite E1, E2, E3.
  assert (E4 : HourFromTime (MakeDate day tm) = parseInt hh - 4).
  { unfold HourFromTime, MakeDate, tm, MakeTime, msPerDay, msPerHour, msPerMinute,
      msPerSecond. Z.div_mod_to_equations. lia. }
  assert (E5 : MinFromTime (MakeDate day tm) = parseInt mi).
  { unfold MinFromTime, MakeDate, tm, MakeTime, msPerDay, msPerHour, msPerMinute,
      msPerSecond. Z.div_mod_to_equations. lia. }
  rewrite E4, E5.
  replace (parseInt m - 1 + 1) with (parseInt m) by lia.
  rewrite (toString_four y Dy Ly Hy), (pad_two m Dm Lm), (pad_two d Dd Ld),
    (pad_two mi Di Li).
  rewrite (pad_field (parseInt hh - 4)) by lia. reflexivity.
Qed.

Lemma iso_time_on_utc_host_witness :
  (forall h,
     Date_parse h (lit "2024-06-18T16:45:00Z")
     = Some (MakeDate (MakeDay 2024 (6 - 1) 18) (MakeTime 16 45 0 0)))
  /\ formattedTime utcHost (edtTimeOf (Date_parse utcHost (lit "2024-06-18T16:45:00Z")))
     = lit "202406181245".
Proof.
  apply (iso_time_on_utc_host (lit "2024") (lit "06") (lit "18") (lit "16")
           (lit "45") (lit "00"));
    try reflexivity; try (repeat constructor; fail);
    try (vm_compute; intuition discriminate).
Defined.

End ExtractorExtras.

(* ================================================================= *)
(** ** The two commands as they are run *)

(** [execute] of both commands, as the sequence of what a run does to
    its surroundings.  What the run is given from outside (the text of
    the clipboard, what the user picks in a modal, what the vault holds,
    the message of an exception of the runtime) is an argument.  Console
    output is not part of the sequence. *)
Module Execute.
Import ExtractorClaims.
Local Open Scope Z_scope.

(** *** [RedditPostParserCommand.execute] *)

Inductive action : Type :=
| ShowNotice (message : list N)
| WriteText (text : list N)
| ReplaceSelection (text : list N).

(** What [execute] meets: [readText] gives a text or is rejected with a
    message, [cheerio] selects the [shreddit-post] elements of a text,
    [writeText] is accepted or rejected with a message, a Markdown view
    is active or not. *)
Record Desk : Type := {
  readText : list N + list N;
  select : list N -> list Element;
  writeRejected : option (list N);
  activeView : bool
}.

Definition parseError (message : list N) : list action :=
  [ShowNotice (lit "Error parsing Reddit posts: " ++ message)].

Definition parse_execute (h : Host) (d : Desk) : list action :=
  match readText d with
  | inl message => parseError message
  | inr htmlContent =>
      if str_eqb htmlContent [] then [ShowNotice (lit "Clipboard is empty")]
      else
        let posts := extractRedditPosts h (select d htmlContent) in
        if (length posts =? 0)%nat then
          [ShowNotice (lit "No Reddit posts found in clipboard content. Make sure you copied HTML from a Reddit subreddit page.")]
        else
          let output := join_lines posts in
          match writeRejected d with
          | Some message => parseError message
          | None =>
              WriteText output ::
              (if activeView d then
                 [ReplaceSelection output;
                  ShowNotice (lit "Parsed and pasted "
                                ++ Number_toString (Z.of_nat (length posts))
                                ++ lit " Reddit posts")]
               else
                 [ShowNotice (lit "Parsed "
                                ++ Number_toString (Z.of_nat (length posts))
                                ++ lit " Reddit posts and copied to clipboard")])
          end
  end.

Definition isNotice (a : action) : bool :=
  match a with ShowNotice _ => true | _ => false end.

(** *** [SortTimestampedListCommand.execute] *)

(** A modal that resolves a promise: [onChooseItem] resolves with the
    item, [onClose] sets a timer that resolves with [null]; the flag
    [resolved] guards both. *)
Inductive modalEvent (Item : Type) : Type :=
| ChooseItem (item : Item)
| Close
| TimerFires.
Arguments ChooseItem {Item} item.
Arguments Close {Item}.
Arguments TimerFires {Item}.

Record modalState (Item : Type) : Type := {
  resolved : bool;
  timers : nat;
  resolutions : list (option Item)
}.
Arguments resolved {Item} m.
Arguments timers {Item} m.
Arguments resolutions {Item} m.

Definition modalStep {Item : Type} (st : modalState Item) (e : modalEvent Item)
  : modalState Item :=
  match e with
  | ChooseItem item =>
      if resolved st then st
      else {| resolved := true; timers := timers st;
              resolutions := resolutions st ++ [Some item] |}
  | Close =>
      {| resolved := resolved st; timers := S (timers st);
         resolutions := resolutions st |}
  | TimerFires =>
      match timers st with
      | O => st
      | S n =>
          if resolved st
          then {| resolved := true; timers := n; resolutions := resolutions st |}
          else {| resolved := true; timers := n;
                  resolutions := resolutions st ++ [None] |}
      end
  end.

Definition modalStart {Item : Type} : modalState Item :=
  {| resolved := false; timers := O; resolutions := [] |}.

Definition modalRun {Item : Type} (events : list (modalEvent Item)) : modalState Item :=
  fold_left modalStep events modalStart.





Definition isModify (e : effect) : bool :=
  match e with Modify _ => true | Notice _ => false end.

(** *** Properties *)

Lemma extract_nonempty h posts :
  extractRedditPosts h posts <> [] <-> exists elem, In elem posts /\ validCandidate elem.
Proof.
  split.
  - intros H. destruct (extractRedditPosts h posts) as [|l ls] eqn:E; [congruence |].
    assert (Hin : In l (extractRedditPosts h posts)) by (rewrite E; left; reflexivity).
    rewrite extractRedditPosts_flat_map in Hin. apply in_flat_map in Hin.
    destruct Hin as (elem & He & Hl). exists elem. split; [exact He |].
    apply (postLine_Some_iff h). unfold linesOf in Hl.
    destruct (postLine h elem); [discriminate | destruct Hl].
  - intros (elem & He & Hv) E. apply (postLine_Some_iff h) in Hv.
    destruct (postLine h elem) as [l|] eqn:El; [|congruence].
    assert (Hin : In l (extractRedditPosts h posts)).
    { rewrite extractRedditPosts_flat_map. apply in_flat_map. exists elem.
      split; [exact He |]. unfold linesOf. rewrite El. left. reflexivity. }
    rewrite E in Hin. destruct Hin.
Qed.

(** X12 — Every run of the Reddit command ends with exactly one notice.
    It writes the clipboard at most once, and only when the clipboard
    held a text in which at least one element is a candidate that the
    extractor keeps; what it writes is the lines of the extractor joined
    by line feeds, which split again into these lines when no line holds
    a line feed of its own; and it pastes into the editor only the text
    it has written to the clipboard. *)
Theorem parse_execute_outcomes (h : Host) (d : Desk) :
  length (filter isNotice (parse_execute h d)) = 1%nat
  /\ (forall text,
        In (WriteText text) (parse_execute h d) ->
        exists htmlContent,
          readText d = inr htmlContent
          /\ (exists elem, In elem (select d htmlContent) /\ validCandidate elem)
          /\ text = join_lines (extractRedditPosts h (select d htmlContent))
          /\ (Forall noLF (extractRedditPosts h (select d htmlContent)) ->
              split_lines text = extractRedditPosts h (select d htmlContent))
          /\ filter (fun a => negb (isNotice a)) (parse_execute h d)
             = WriteText text :: (if activeView d then [ReplaceSelection text] else []))
  /\ (forall text,
        In (ReplaceSelection text) (parse_execute h d) ->
        In (WriteText text) (parse_execute h d)).
Proof.
  unfold parse_execute, parseError.
  destruct (readText d) as [message|htmlContent].
  { split; [reflexivity |]. split; intros text [H|[]]; discriminate. }
  destruct (str_eqb htmlContent []).
  { split; [reflexivity |]. split; intros text [H|[]]; discriminate. }
  cbv zeta.
  destruct (extractRedditPosts h (select d htmlContent)) as [|l ls] eqn:Ep.
  { split; [reflexivity |]. split; intros text [H|[]]; discriminate. }
  cbn [length Nat.eqb].
  destruct (writeRejected d) as [message|].
  { split; [reflexivity |]. split; intros text [H|[]]; discriminate. }
  split; [destruct (activeView d); reflexivity |].
  split.
  - intros text Hin.
    assert (Et : text = join_lines (l :: ls)).
    { destruct (activeView d); cbn [In] in Hin;
        repeat (destruct Hin as [Hin|Hin]; try discriminate);
        try (inversion Hin; reflexivity); destruct Hin. }
    subst text. exists htmlContent. rewrite Ep. split; [reflexivity |].
    split; [apply (extract_nonempty h); rewrite Ep; discriminate |].
    split; [reflexivity |].
    split; [intros Hn; apply split_join; [discriminate | exact Hn] |].
    destruct (activeView d); reflexivity.
  - intros text Hin. left.
    destruct (activeView d); cbn [In] in Hin;
      repeat (destruct Hin as [Hin|Hin]; try discriminate);
      try (inversion Hin; reflexivity); destruct Hin.
Qed.






Lemma modalStep_once {Item : Type} (st : modalState Item) (e : modalEvent Item) :
  (resolved st = true -> resolutions (modalStep st e) = resolutions st)
  /\ (resolved st = true -> resolved (modalStep st e) = true)
  /\ (resolved st = false -> resolutions st = [] ->
      (resolved (modalStep st e) = false /\ resolutions (modalStep st e) = [])
      \/ (resolved (modalStep st e) = true
          /\ exists r, resolutions (modalStep st e) = [r])).
Proof.
  destruct e as [item| |]; cbn [modalStep].
  - destruct (resolved st) eqn:E.
    + repeat split; auto; try (intros; discriminate).
    + repeat split; try discriminate. intros _ Hr. right. cbn. rewrite Hr.
      split; [reflexivity | eexists; reflexivity].
  - cbn. repeat split; auto; try (intros; discriminate).
  - destruct (timers st) as [|n].
    + repeat split; auto; try (intros; discriminate).
    + destruct (resolved st) eqn:E; cbn.
      * repeat split; auto; try (intros; discriminate).
      * repeat split; try discriminate. intros _ Hr. right. rewrite Hr.
        split; [reflexivity | eexists; reflexivity].
Qed.

Lemma modalRun_from {Item : Type} (events : list (modalEvent Item)) :
  forall st r,
    resolved st = true -> resolutions st = [r] ->
    resolutions (fold_left modalStep events st) = [r].
Proof.
  induction events as [|e events IH]; intros st r Hres Hr; [exact Hr |].
  cbn [fold_left]. destruct (modalStep_once st e) as (H1 & H2 & _).
  apply IH; [apply H2; exact Hres | rewrite (H1 Hres); exact Hr].
Qed.

(** X14 — The promise of a selection modal is resolved at most once,
    whatever the modal does and however often.  When the modal closes
    and then gives the chosen item before the timer of the close handler
    fires, the promise resolves with that item, and the timer changes
    nothing; when the timer fires first, it resolves with [null]. *)
Theorem modal_resolves_once {Item : Type} (events : list (modalEvent Item)) :
  (length (resolutions (modalRun events)) <= 1)%nat
  /\ (forall (item : Item) (rest : list (modalEvent Item)),
        resolutions (modalRun (Close :: ChooseItem item :: rest)) = [Some item])
  /\ (forall rest : list (modalEvent Item),
        resolutions (modalRun (Close :: TimerFires :: rest)) = [None]).
Proof.
  split; [|split].
  - unfold modalRun.
    assert (G : forall evs (st : modalState Item),
               (resolved st = false /\ resolutions st = [])
               \/ (resolved st = true /\ (length (resolutions st) <= 1)%nat) ->
               (length (resolutions (fold_left modalStep evs st)) <= 1)%nat).
    { induction evs as [|e evs IH]; intros st Hst.
      - cbn [fold_left]. destruct Hst as [[_ ->]|[_ H]]; [cbn; lia | exact H].
      - cbn [fold_left]. apply IH.
        destruct (modalStep_once st e) as (H1 & H2 & H3).
        destruct Hst as [[Hf Hr]|[Ht Hl]].
        + destruct (H3 Hf Hr) as [[A B]|[A (r & B)]]; [left; auto |].
          right. split; [exact A | rewrite B; cbn; lia].
        + right. split; [apply H2; exact Ht | rewrite (H1 Ht); exact Hl]. }
    apply G. left. split; reflexivity.
  - intros item rest. unfold modalRun. cbn [fold_left modalStep modalStart resolved
      timers resolutions app]. apply modalRun_from; reflexivity.
  - intros rest. unfold modalRun. cbn [fold_left modalStep modalStart resolved
      timers resolutions app]. apply modalRun_from; reflexivity.
Qed.

End Execute.
